(** * LandNOA-Agent: registry, host agent and anchoring engine

    A shallow embedding of the three TypeScript services of the
    repository that carry its coordination logic, and the proofs of
    their specified properties:

    - [Registry]   : [registry.ts], the service registry (Redis backed,
                     with an in-process fallback);
    - [Host]       : the host agent (discovery cache, heuristic router,
                     health-gated dispatcher);
    - [Specialist] : the AI-guide specialist agent and its anchoring
                     engine (candidate generation, scoring, selection).

    Around them, the code they call and the code that calls them:
    [HostStartup] (the discovery loop of the host), [Retriever]
    ([rag_edson.ts]), [Monitor] ([monitoramento.ts], the conversation
    log), [SpecialistLog] ([/execute] with its writes to the log), [UI]
    ([/chat] of the interface) and [Backend] (the endpoints of the
    backend, its retriever and its conversation with the model).

    Conventions of the embedding.
    - A JavaScript string is a [string]; every [ascii] stands for one
      UTF-16 code unit below 256 (the Latin-1 range), so [length],
      [charCodeAt], [includes], [trim] and [toLowerCase] are exact on
      the strings of the model.
    - A JavaScript number that holds a similarity score or a sampling
      temperature is a binary64 [float] and is compared with the
      primitive IEEE comparisons; counters and time stamps are [Z].
    - A plain object used as a dictionary is a [gmap] when only lookups
      matter and an association list when the iteration order of
      [Object.entries] matters; both hold the own properties of the
      object. Where a service reads or writes such an object under a
      name taken from a request or from the registry, what JavaScript
      does with the names of [Object.prototype] and with [__proto__]
      is written out ([Obj]).
    - HTTP handlers are functions from the request, the state of the
      process and the answers of the outside world to the response, the
      new state and the ordered list of outbound calls and log lines. *)

From Stdlib Require Import ZArith Floats Uint63 List String Ascii Bool Lia DecimalString.
From stdpp Require Import gmap strings list fin_maps.
Import ListNotations.

Set Warnings "-inexact-float".
Local Open Scope string_scope.
Local Open Scope Z_scope.

(* ================================================================== *)
(** * Part I: the programs *)
(* ================================================================== *)

(** ** JavaScript string built-ins used by the services *)

Module JS.

Definition chr (n : nat) : string := String (ascii_of_nat n) EmptyString.

(** ["\n"] *)
Definition nl : string := chr 10.

(** [s.charCodeAt(i)] for the code unit [c] found at index [i]. *)
Definition charCode (c : ascii) : Z := Z.of_N (N_of_ascii c).

(** Lower-casing of one code unit: A-Z, and À-Þ except the
    multiplication sign U+00D7. *)
Definition lower_unit (c : ascii) : ascii :=
  let n := N_of_ascii c in
  if (((65 <=? n) && (n <=? 90))
      || ((192 <=? n) && (n <=? 222) && negb (n =? 215)))%N
  then ascii_of_N (n + 32) else c.

(** [s.toLowerCase()] *)
Fixpoint toLowerCase (s : string) : string :=
  match s with
  | EmptyString => EmptyString
  | String c s' => String (lower_unit c) (toLowerCase s')
  end.

(** White space as [trim] sees it: TAB, LF, VT, FF, CR, SP and NBSP. *)
Definition is_white_space (c : ascii) : bool :=
  let n := N_of_ascii c in
  (((9 <=? n) && (n <=? 13)) || (n =? 32) || (n =? 160))%N.

Fixpoint trimStart (s : string) : string :=
  match s with
  | EmptyString => EmptyString
  | String c s' => if is_white_space c then trimStart s' else s
  end.

Fixpoint trimEnd (s : string) : string :=
  match s with
  | EmptyString => EmptyString
  | String c s' =>
      match trimEnd s' with
      | EmptyString => if is_white_space c then EmptyString else String c EmptyString
      | t => String c t
      end
  end.

(** [s.trim()] *)
Definition trim (s : string) : string := trimEnd (trimStart s).

(** [s.startsWith(k)] *)
Fixpoint startsWith (s k : string) {struct k} : bool :=
  match k, s with
  | EmptyString, _ => true
  | String a k', String b s' => if Ascii.eqb a b then startsWith s' k' else false
  | String _ _, EmptyString => false
  end.

(** [s.includes(k)] *)
Fixpoint includes (s k : string) : bool :=
  startsWith s k ||
  match s with
  | EmptyString => false
  | String _ s' => includes s' k
  end.

(** Truthiness of a string value: only [""] is falsy. *)
Definition truthy (s : string) : bool :=
  match s with
  | EmptyString => false
  | String _ _ => true
  end.

(** [o || ''] for a field that may be missing. *)
Definition or_empty (o : option string) : string := default EmptyString o.

(** [s.split(sep)] for a one-unit separator; [cur] is the segment being
    read. *)
Fixpoint split_from (sep : ascii) (cur s : string) : list string :=
  match s with
  | EmptyString => [cur]
  | String c s' =>
      if Ascii.eqb c sep then cur :: split_from sep EmptyString s'
      else split_from sep (cur +:+ String c EmptyString) s'
  end.

Definition split (sep : ascii) (s : string) : list string :=
  split_from sep EmptyString s.

(** [s.split(sep).pop()] : the segment after the last separator. *)
Definition split_pop (sep : ascii) (s : string) : string :=
  List.last (split sep s) EmptyString.

(** [l.join(sep)] *)
Definition join (sep : string) (l : list string) : string := String.concat sep l.

(** [s.slice(n)] *)
Fixpoint slice (n : nat) (s : string) : string :=
  match n, s with
  | O, _ => s
  | S n', String _ s' => slice n' s'
  | S _, EmptyString => EmptyString
  end.

(** [s.replace(pat, rep)] with a string pattern: the first occurrence
    only. *)
Fixpoint replace (pat rep s : string) : string :=
  if startsWith s pat then rep +:+ slice (String.length pat) s
  else match s with
       | EmptyString => EmptyString
       | String c s' => String c (replace pat rep s')
       end.

(** A number printed in a template literal (integers only). *)
Definition show_Z (z : Z) : string := NilZero.string_of_int (Z.to_int z).

(** One code unit inside the text [JSON.stringify] gives for a string:
    the quotation mark and the backslash are escaped with a backslash,
    the control characters by their letter or as [\u00XX]; any other
    unit stands for itself. *)
Definition hex (n : Z) : string :=
  String.substring (Z.to_nat n) 1 "0123456789abcdef".

Definition quote_unit (c : ascii) : string :=
  let n := charCode c in
  if n =? 34 then chr 92 +:+ chr 34
  else if n =? 92 then chr 92 +:+ chr 92
  else if n =? 8 then chr 92 +:+ "b"
  else if n =? 9 then chr 92 +:+ "t"
  else if n =? 10 then chr 92 +:+ "n"
  else if n =? 12 then chr 92 +:+ "f"
  else if n =? 13 then chr 92 +:+ "r"
  else if n <? 32 then chr 92 +:+ "u00" +:+ hex (n / 16) +:+ hex (n mod 16)
  else String c EmptyString.

Fixpoint quote_units (s : string) : string :=
  match s with
  | EmptyString => EmptyString
  | String c s' => quote_unit c +:+ quote_units s'
  end.

(** [JSON.stringify(s)] of a string, and of an array of strings. *)
Definition stringify (s : string) : string := chr 34 +:+ quote_units s +:+ chr 34.

Definition stringify_array (l : list string) : string :=
  "[" +:+ String.concat "," (map stringify l) +:+ "]".

(** [l.find(p)] *)
Definition find {A} (p : A -> bool) (l : list A) : option A := List.find p l.

(** [l.some(p)] *)
Definition some {A} (p : A -> bool) (l : list A) : bool := existsb p l.

(** [l.reduce(f)] without an initial value; JavaScript throws on the
    empty array, which is [None] here. *)
Definition reduce {A} (f : A -> A -> A) (l : list A) : option A :=
  match l with
  | [] => None
  | x :: xs => Some (fold_left f xs x)
  end.

End JS.

(** ** Plain objects used as dictionaries

    An object made by [{}] or by [JSON.parse] is modelled by a [gmap]
    of its own properties. Two things of JavaScript go beyond the own
    properties, and are written out where a service depends on
    them. A read [obj[key]] of a name the object does not hold goes on
    to [Object.prototype], which holds the names below: all are
    functions, except [__proto__], which reads the prototype itself;
    all are truthy. And an assignment [obj['__proto__'] = v] of an
    object [v] makes [v] the prototype of [obj] and creates no
    property: [Object.entries] and [JSON.stringify] never show it. *)

Module Obj.

(** The names of the properties of [Object.prototype]. *)
Definition prototype_names : list string :=
  ["constructor"; "__defineGetter__"; "__defineSetter__"; "hasOwnProperty";
   "__lookupGetter__"; "__lookupSetter__"; "isPrototypeOf"; "propertyIsEnumerable";
   "toString"; "valueOf"; "__proto__"; "toLocaleString"].

(** [key] is read from [Object.prototype] when the object has no
    property of that name. *)
Definition inherited (key : string) : bool := existsb (String.eqb key) prototype_names.

(** What a template literal prints for the member of
    [Object.prototype] read under [name]: the source text of a built-in
    function, or [[object Object]] for the prototype. *)
Definition show_member (name : string) : string :=
  if String.eqb name "__proto__" then "[object Object]"
  else "function " +:+ (if String.eqb name "constructor" then "Object" else name)
       +:+ "() { [native code] }".

(** The own properties of an object whose [gmap] also keeps, under
    [__proto__], what was assigned to that name. *)
Definition own {V} (obj : gmap string V) : gmap string V := delete "__proto__" obj.

(** [delete obj[key]] on such an object: [__proto__] is no property of
    its own. *)
Definition remove {V} (key : string) (obj : gmap string V) : gmap string V :=
  if String.eqb key "__proto__" then obj else delete key obj.

End Obj.

(** ** Data shared by the services *)

(** A tool as an agent declares it when it registers. *)
Record Tool := mkTool { tool_name : string; tool_description : string }.

(** The public part of a registration: [{ base_url, tools }]. *)
Record PublicPayload := mkPublic { base_url : string; tools : list Tool }.

(** What an awaited call gives back: the value it resolved to, or the
    message of the error it threw. *)
Inductive outcome (A : Type) :=
| Resolved (a : A)
| Thrown (message : string).
Arguments Resolved {A} a.
Arguments Thrown {A} message.

(** ** The registry ([registry.ts]) *)

Module Registry.

Definition AGENT_DATA_PREFIX : string := "agent:".
Definition AGENT_SECRET_PREFIX : string := "secret:".

Definition dataKey (agentId : string) : string := AGENT_DATA_PREFIX +:+ agentId.
Definition secretKey (agentId : string) : string := AGENT_SECRET_PREFIX +:+ agentId.

(** *** The Redis commands the registry issues

    A value is either the JSON text of a public payload, kept as the
    payload it denotes ([JSON.parse (JSON.stringify p)] is [p]), or a
    bare string such as a secret token. A key carries an optional deadline in milliseconds; a
    key whose deadline has passed is dead for every command and is never
    seen again. The server is taken to answer every command: a
    command that is rejected, with no server behind the client, is no
    part of the model. *)

Inductive RedisValue :=
| RJson (p : PublicPayload)
| RStr (s : string).

Record RedisEntry := mkEntry { value : RedisValue; expire_at : option Z }.

Definition live (now : Z) (e : RedisEntry) : bool :=
  match expire_at e with
  | None => true
  | Some deadline => now <=? deadline
  end.

(** [SET key v] : stores the value and discards any deadline. *)
Definition SET (db : gmap string RedisEntry) (key : string) (v : RedisValue)
  : gmap string RedisEntry :=
  <[key := mkEntry v None]> db.

(** [GET key] *)
Definition GET (now : Z) (db : gmap string RedisEntry) (key : string) : option RedisValue :=
  match db !! key with
  | Some e => if live now e then Some (value e) else None
  | None => None
  end.

(** [EXISTS key] *)
Definition EXISTS (now : Z) (db : gmap string RedisEntry) (key : string) : bool :=
  match db !! key with
  | Some e => live now e
  | None => false
  end.

(** [EXPIRE key seconds] : a deadline [seconds] from now on a live key;
    a non-positive time-to-live deletes the key. *)
Definition EXPIRE (now : Z) (db : gmap string RedisEntry) (key : string) (seconds : Z)
  : gmap string RedisEntry :=
  match db !! key with
  | Some e =>
      if live now e then
        if seconds <=? 0 then delete key db
        else <[key := mkEntry (value e) (Some (now + seconds * 1000))]> db
      else db
  | None => db
  end.

(** [DEL key] *)
Definition DEL (db : gmap string RedisEntry) (key : string) : gmap string RedisEntry :=
  delete key db.

(** [KEYS prefix*] : the live keys that start with [prefix], in the
    order the server enumerates them. *)
Definition KEYS (now : Z) (db : gmap string RedisEntry) (prefix : string) : list string :=
  (map_to_list
     (filter (fun kv => JS.startsWith (fst kv) prefix = true /\ live now (snd kv) = true) db)).*1.

(** *** The state of the registry process *)

(** The record the in-process fallback keeps for an agent. *)
Record MemRecord := mkMem {
  m_base_url : string;
  m_tools : list Tool;
  m_secret_token : string;
  m_ttl : Z
}.

(** [redisClient] is the client together with the database it talks
    to, or [None] when the fallback is active. [inMemoryAgents] is the
    table of the fallback: its own properties and, under [__proto__],
    the record that a registration of that name made its prototype.

    The start-up sets [redisClient] to [null] only when
    [new Redis(...)] throws; the constructor hands back a client
    whether or not a server answers, so a running registry holds a
    client and its fallback branches are not entered. They are modelled
    as they are written. *)
Record State := mkState {
  redisClient : option (gmap string RedisEntry);
  inMemoryAgents : gmap string MemRecord
}.

(** Whether [inMemoryAgents[agentId]] is truthy: a record of the table,
    or what the read finds further up: a field of the record that is
    the prototype, or a member of [Object.prototype]. *)
Definition in_memory (mem : gmap string MemRecord) (agentId : string) : bool :=
  match Obj.own mem !! agentId with
  | Some _ => true
  | None =>
      match mem !! "__proto__" with
      | Some record =>
          if String.eqb agentId "base_url" then JS.truthy (m_base_url record)
          else if String.eqb agentId "tools" then true
          else if String.eqb agentId "secret_token" then JS.truthy (m_secret_token record)
          else if String.eqb agentId "ttl" then negb (m_ttl record =? 0)
          else Obj.inherited agentId
      | None => Obj.inherited agentId
      end
  end.

(** The JSON body of [POST /register]; a field may be missing, and
    [tools] is [None] when it is not an array. *)
Record RegisterRequest := mkRegister {
  agent_id : option string;
  req_base_url : option string;
  req_tools : option (list Tool);
  secret_token : option string
}.

Inductive Body :=
| Message (message : string)
| Error (error : string)
| Agents (out : gmap string PublicPayload).

Record Response := mkResponse { status : Z; body : Body }.

Section Handlers.

(** [HEARTBEAT_TTL], in seconds (60 unless the environment says
    otherwise). *)
Variable HEARTBEAT_TTL : Z.

(** [app.post('/register')]; [now] is the clock at the request. In the
    fallback, [inMemoryAgents[agentId] = ...] under [__proto__] fills
    the prototype slot of the table. *)
Definition register (now : Z) (st : State) (data : RegisterRequest) : Response * State :=
  let agentId := JS.trim (JS.or_empty (agent_id data)) in
  let baseUrl := JS.trim (JS.or_empty (req_base_url data)) in
  let secretToken := JS.trim (JS.or_empty (secret_token data)) in
  match req_tools data with
  | Some tools =>
      if negb (JS.truthy agentId) || negb (JS.truthy baseUrl) || negb (JS.truthy secretToken)
      then (mkResponse 400 (Error "Dados de registro incompletos."), st)
      else
        let publicPayload := mkPublic baseUrl tools in
        let ack := mkResponse 200 (Message ("Agente " +:+ agentId +:+ " registrado com sucesso.")) in
        match redisClient st with
        | Some db =>
            let db := SET db (dataKey agentId) (RJson publicPayload) in
            let db := SET db (secretKey agentId) (RStr secretToken) in
            let db := EXPIRE now db (dataKey agentId) HEARTBEAT_TTL in
            let db := EXPIRE now db (secretKey agentId) HEARTBEAT_TTL in
            (ack, mkState (Some db) (inMemoryAgents st))
        | None =>
            let record := mkMem baseUrl tools secretToken (now + HEARTBEAT_TTL * 1000) in
            (ack, mkState None (<[agentId := record]> (inMemoryAgents st)))
        end
  | None => (mkResponse 400 (Error "Dados de registro incompletos."), st)
  end.

(** [app.post('/deregister')] *)
Definition deregister (now : Z) (st : State) (agent_id : option string) : Response * State :=
  let agentId := JS.trim (JS.or_empty agent_id) in
  if negb (JS.truthy agentId)
  then (mkResponse 400 (Error "O 'agent_id' nao foi fornecido."), st)
  else
    match redisClient st with
    | Some db =>
        if EXISTS now db (dataKey agentId) then
          let db := DEL db (dataKey agentId) in
          let db := DEL db (secretKey agentId) in
          (mkResponse 200 (Message ("Agente " +:+ agentId +:+ " desregistrado com sucesso.")),
           mkState (Some db) (inMemoryAgents st))
        else (mkResponse 404 (Error ("Agente " +:+ agentId +:+ " nao encontrado.")), st)
    | None =>
        if in_memory (inMemoryAgents st) agentId then
          (mkResponse 200 (Message "desregistrado"),
           mkState None (Obj.remove agentId (inMemoryAgents st)))
        else (mkResponse 404 (Error "nao encontrado"), st)
    end.

(** The loop of [/list_agents] over the keys Redis returned. An empty
    value is skipped like a missing one; any other bare string is no
    JSON text and makes [JSON.parse] throw: the handler catches the
    exception around the whole loop and answers with what it had
    collected. *)
Fixpoint list_loop (now : Z) (db : gmap string RedisEntry) (keys : list string)
  (out : gmap string PublicPayload) : gmap string PublicPayload :=
  match keys with
  | [] => out
  | k :: keys' =>
      let agentId := JS.replace AGENT_DATA_PREFIX EmptyString k in
      match GET now db k with
      | None => list_loop now db keys' out
      | Some (RJson data) =>
          list_loop now db keys' (<[agentId := mkPublic (base_url data) (tools data)]> out)
      | Some (RStr s) => if JS.truthy s then out else list_loop now db keys' out
      end
  end.

(** The object [out] of [app.get('/list_agents')] as [res.json(out)]
    sends it: the own properties of what the loops built. An
    assignment [out['__proto__'] = ...] in the loop over the Redis keys
    creates none, and [Object.entries(inMemoryAgents)] are the own
    properties of the table. *)
Definition list_out (now : Z) (st : State) : gmap string PublicPayload :=
  Obj.own
    match redisClient st with
    | Some db => list_loop now db (KEYS now db AGENT_DATA_PREFIX) ∅
    | None => (fun v => mkPublic (m_base_url v) (m_tools v)) <$> Obj.own (inMemoryAgents st)
    end.

(** [app.get('/list_agents')] *)
Definition list_agents (now : Z) (st : State) : Response :=
  mkResponse 200 (Agents (list_out now st)).

End Handlers.

(** *** Runs of the registry: timed requests applied in order *)

Inductive Request :=
| Register (data : RegisterRequest)
| Deregister (agent_id : option string)
| ListAgents.

Definition step (TTL : Z) (st : State) (r : Z * Request) : State :=
  match snd r with
  | Register data => snd (register TTL (fst r) st data)
  | Deregister a => snd (deregister (fst r) st a)
  | ListAgents => st
  end.

Definition run (TTL : Z) (st : State) (rs : list (Z * Request)) : State :=
  fold_left (step TTL) rs st.

End Registry.

(** ** The host agent ([host_agent.ts]): discovery cache, router and
    dispatcher *)

Module Host.

(** A tool of the discovery cache: the registered tool, tagged by
    [fetchToolsFromRegistry] with its owner and the owner's execute
    URL. *)
Record DiscoveredTool := mkDiscovered {
  name : string;
  description : string;
  owner_agent_id : string;
  agent_execute_url : string
}.

(** [type Decision], without its [null]. *)
Record Decision := mkDecision {
  tool_to_use : string;
  decision_owner : string;
  decision_url : string
}.

(** The two module-level variables [discoveredTools] and
    [discoveredAgentsData]; the second is a [Record<string, any>] read
    with [Object.entries], hence an association list in insertion
    order. *)
Record State := mkState {
  discoveredTools : list DiscoveredTool;
  discoveredAgentsData : list (string * PublicPayload)
}.

(** The constants read from the environment at start-up. *)
Record Config := mkConfig {
  SPECIALIST_AGENTS_SECRETS : gmap string string;
  HOST_AGENT_ID : string;
  REGISTRY_BASE_URL : string
}.

Record A2AMessage := mkA2A {
  message_id : string;
  timestamp : string;
  sender_agent_id : string;
  receiver_agent_id : string;
  payload_type : string;
  payload_query : string;
  payload_uuid : option string
}.

(** The JSON a specialist answers with; every field may be missing. *)
Record SpecialistResult := mkResult {
  sr_result : option string;
  sr_answer : option string;
  sr_sources : option (list string);
  sr_chosen_temperature : option float;
  sr_similarity : option float
}.

(** How [axios.post(targetUrl, ...)] ends: a 2xx answer, an answer with
    another status ([e.response]), or no answer at all ([e.message]). *)
Inductive ForwardOutcome :=
| Answered (data : SpecialistResult)
| Refused (status : Z) (data : string)
| Failed (message : string).

(** The outside world during one request. *)
Record World := mkWorld {
  get_list_agents : outcome (list (string * PublicPayload));
  get_health : string -> bool;
  post_deregister : string -> outcome unit;
  post_execute : string -> A2AMessage -> string -> ForwardOutcome;
  uuidv4 : string;
  now_iso : string
}.

Inductive PostBody :=
| DeregisterBody (agent_id : string)
| A2ABody (m : A2AMessage).

(** Outbound calls and log lines, in the order the handler makes
    them. *)
Inductive Effect :=
| HttpGet (url : string)
| HttpPost (url : string) (body : PostBody) (bearer : option string)
| ConsoleLog (line : string)
| ConsoleWarn (line : string).

Record AgentView := mkView {
  view_agent_id : string;
  view_base_url : string;
  view_tools : list Tool
}.

Inductive Body :=
| Error (error : string)
| Capabilities (answer : string) (agents : list AgentView)
| Answer (answer : option string) (source_agent_id : string) (source_tool : string)
    (sources : option (list string)) (chosen_temperature similarity : option float).

Record Response := mkResponse { status : Z; body : Body }.

Record QueryRequest := mkQuery { query : option string; uuid : option string }.

(** [obj[key] = v] on an object read in insertion order. *)
Fixpoint assoc_set {V} (key : string) (v : V) (obj : list (string * V)) : list (string * V) :=
  match obj with
  | [] => [(key, v)]
  | (k, w) :: rest =>
      if String.eqb k key then (k, v) :: rest else (k, w) :: assoc_set key v rest
  end.

(** [obj[key]] *)
Fixpoint assoc_get {V} (key : string) (obj : list (string * V)) : option V :=
  match obj with
  | [] => None
  | (k, w) :: rest => if String.eqb k key then Some w else assoc_get key rest
  end.

(** The inner loop of [fetchToolsFromRegistry]: the tools of one agent,
    tagged. *)
Definition tag_tools (agentId : string) (info : PublicPayload) : list DiscoveredTool :=
  map (fun tool =>
         mkDiscovered (tool_name tool) (tool_description tool) agentId
           (base_url info +:+ "/execute"))
      (tools info).

(** The outer loop of [fetchToolsFromRegistry] over
    [Object.entries(registered)]. *)
Fixpoint discover (entries : list (string * PublicPayload))
  (allTools : list DiscoveredTool) (agentData : list (string * PublicPayload))
  : list DiscoveredTool * list (string * PublicPayload) :=
  match entries with
  | [] => (allTools, agentData)
  | (agentId, info) :: rest =>
      discover rest (allTools ++ tag_tools agentId info)%list (assoc_set agentId info agentData)
  end.

Definition show_nat (n : nat) : string := JS.show_Z (Z.of_nat n).

Section Handlers.

Variable cfg : Config.
Variable world : World.

(** [fetchToolsFromRegistry] *)
Definition fetchToolsFromRegistry (st : State) : State * list Effect :=
  let call := HttpGet (REGISTRY_BASE_URL cfg +:+ "/list_agents") in
  match get_list_agents world with
  | Resolved registered =>
      let '(allTools, agentData) := discover registered [] [] in
      (mkState allTools agentData,
       [call;
        ConsoleLog ("HOST: descobriu " +:+ show_nat (length allTools) +:+ " ferramentas de "
                    +:+ show_nat (length agentData) +:+ " agentes")])
  | Thrown message =>
      (st,
       [call;
        ConsoleWarn ("HOST: falha ao consultar Registry, mantendo ultimo estado conhecido "
                     +:+ message)])
  end.

Definition aiKw : list string :=
  ["inteligencia artificial"; "ia"; "ai"; JS.chr 233 +:+ "tica"; "etica"; "modelo de ia"].
Definition bioKw : list string := ["biologia"; "ecologia"; "biologo"].

Definition is_ai_tool (t : DiscoveredTool) : bool :=
  JS.includes (JS.toLowerCase (name t)) "guia"
  || JS.includes (JS.toLowerCase (description t)) "ia".

Definition is_bio_tool (t : DiscoveredTool) : bool :=
  JS.includes (JS.toLowerCase (name t)) "biolog"
  || JS.includes (JS.toLowerCase (description t)) "biolog".

Definition decide_for (t : DiscoveredTool) : Decision :=
  mkDecision (name t) (owner_agent_id t) (agent_execute_url t).

(** [heuristicRoute] *)
Definition heuristicRoute (st : State) (query : string) : option Decision :=
  if negb (JS.truthy query) || (length (discoveredTools st) =? 0)%nat then None
  else
    let q := JS.toLowerCase query in
    let bio :=
      if JS.some (fun k => JS.includes q k) bioKw then
        match JS.find is_bio_tool (discoveredTools st) with
        | Some decision => Some (decide_for decision)
        | None => None
        end
      else None in
    if JS.some (fun k => JS.includes q k) aiKw then
      match JS.find is_ai_tool (discoveredTools st) with
      | Some decision => Some (decide_for decision)
      | None => bio
      end
    else bio.

Definition capabilityKeywords : list string :=
  ["o que voce faz"; "quais agentes"; "ferramentas disponiveis"; "capacidades"; "o que pode"].

(** [isCapabilitiesQuery] *)
Definition isCapabilitiesQuery (text : string) : bool :=
  if negb (JS.truthy text) then false
  else
    let t := JS.toLowerCase (JS.trim text) in
    JS.some (fun k => JS.includes t k) capabilityKeywords.

(** The bullet of the listing; U+2022 in the source, outside the code
    units of the model, written as the middle dot U+00B7. *)
Definition bullet : string := JS.chr 183.

Definition agent_view (entry : string * PublicPayload) : AgentView :=
  mkView (fst entry) (base_url (snd entry))
    (map (fun t => mkTool (tool_name t) (tool_description t)) (tools (snd entry))).

Definition tool_line (t : Tool) : string :=
  "   " +:+ bullet +:+ " " +:+ tool_name t +:+ ": " +:+ tool_description t +:+ JS.nl.

Definition agent_lines (a : AgentView) : string :=
  "- " +:+ view_agent_id a +:+ JS.nl +:+ String.concat "" (map tool_line (view_tools a)).

(** [formatCapabilitiesResponse] : the pair [{ answer, agents }]. *)
Definition formatCapabilitiesResponse (st : State) : string * list AgentView :=
  let agents := map agent_view (discoveredAgentsData st) in
  let text :=
    "Posso coordenar os seguintes agentes e ferramentas:" +:+ JS.nl
    +:+ String.concat "" (map agent_lines agents) in
  (text, agents).

(** [delegateToLLM] : no decision. *)
Definition delegateToLLM (query : string) : option Decision := None.

(** [requestDeregistration] : the call and the one line it logs; the
    error of a failed call goes no further. *)
Definition requestDeregistration (agentId : string) : list Effect :=
  let call :=
    HttpPost (REGISTRY_BASE_URL cfg +:+ "/deregister") (DeregisterBody agentId) None in
  match post_deregister world agentId with
  | Resolved _ => [call; ConsoleLog ("HOST: solicitou desregistro de " +:+ agentId)]
  | Thrown message => [call; ConsoleWarn ("HOST: falha ao solicitar desregistro " +:+ message)]
  end.

Definition explicacao : string :=
  "Ol" +:+ JS.chr 225
  +:+ "! Sou o agente Host. Quando nao encontro um agente ideal, posso mostrar quem esta disponivel agora:"
  +:+ JS.nl +:+ JS.nl.

(** The tail of [app.post('/query')] once an agent has been chosen and
    its token and data have been found. *)
Definition dispatch (userQuery : string) (userUuid : option string) (decision : Decision)
  (secretToken : string) (agentBaseUrl : string) : Response * list Effect :=
  let targetAgentId := decision_owner decision in
  let targetUrl := decision_url decision in
  let healthUrl := agentBaseUrl +:+ "/health" in
  if get_health world healthUrl then
    let a2aMessage :=
      mkA2A ("msg_" +:+ uuidv4 world) (now_iso world) (HOST_AGENT_ID cfg) targetAgentId
        "text_query" userQuery userUuid in
    let call := HttpPost targetUrl (A2ABody a2aMessage) (Some secretToken) in
    match post_execute world targetUrl a2aMessage secretToken with
    | Answered specialistResult =>
        let answer :=
          match sr_result specialistResult with
          | Some r => if JS.truthy r then Some r else sr_answer specialistResult
          | None => sr_answer specialistResult
          end in
        (mkResponse 200
           (Answer answer targetAgentId (tool_to_use decision) (sr_sources specialistResult)
              (sr_chosen_temperature specialistResult) (sr_similarity specialistResult)),
         [HttpGet healthUrl; call])
    | Refused st data =>
        (mkResponse 502
           (Error ("Erro ao comunicar com o agente especialista: "
                   +:+ JS.show_Z st +:+ " " +:+ data)),
         [HttpGet healthUrl; call])
    | Failed message =>
        (mkResponse 502 (Error ("Erro ao comunicar com o agente especialista: " +:+ message)),
         [HttpGet healthUrl; call])
    end
  else
    (mkResponse 503
       (Error ("O agente especialista '" +:+ targetAgentId +:+ "' esta indisponivel no momento.")),
     HttpGet healthUrl
       :: (if JS.truthy targetAgentId then requestDeregistration targetAgentId else [])).

(** [SPECIALIST_AGENTS_SECRETS[targetAgentId]], when what is read is
    truthy, as [Bearer ${secretToken}] prints it. The object comes from
    [JSON.parse]: a name it does not hold is read from
    [Object.prototype]. *)
Definition read_secret (targetAgentId : string) : option string :=
  match SPECIALIST_AGENTS_SECRETS cfg !! targetAgentId with
  | Some secretToken => if JS.truthy secretToken then Some secretToken else None
  | None =>
      if Obj.inherited targetAgentId then Some (Obj.show_member targetAgentId) else None
  end.

(** [discoveredAgentsData[targetAgentId]], when what is read is truthy,
    by the [base_url] the health URL prints: the one of the agent, or
    [undefined] for a member of [Object.prototype], which has none. *)
Definition read_base_url (st : State) (targetAgentId : string) : option string :=
  match assoc_get targetAgentId (discoveredAgentsData st) with
  | Some agentInfo => Some (base_url agentInfo)
  | None => if Obj.inherited targetAgentId then Some "undefined" else None
  end.

(** [app.post('/query')] *)
Definition post_query (st : State) (req : QueryRequest) : Response * State * list Effect :=
  let userQuery := JS.or_empty (query req) in
  let userUuid := uuid req in
  if negb (JS.truthy userQuery)
  then (mkResponse 400 (Error "A 'query' nao pode estar vazia."), st, [])
  else
    let '(st, fetched) := fetchToolsFromRegistry st in
    if (length (discoveredTools st) =? 0)%nat
    then (mkResponse 503 (Error "Nenhum agente especialista disponivel no momento."), st, fetched)
    else if isCapabilitiesQuery userQuery
    then
      let cap := formatCapabilitiesResponse st in
      (mkResponse 200 (Capabilities (fst cap) (snd cap)), st, fetched)
    else
      let decision :=
        match delegateToLLM userQuery with
        | Some d => Some d
        | None => heuristicRoute st userQuery
        end in
      match decision with
      | None =>
          let cap := formatCapabilitiesResponse st in
          (mkResponse 200 (Capabilities (explicacao +:+ fst cap) (snd cap)), st, fetched)
      | Some decision =>
          let targetAgentId := decision_owner decision in
          match read_secret targetAgentId with
          | Some secretToken =>
              match read_base_url st targetAgentId with
              | Some agentBaseUrl =>
                  let '(response, effects) :=
                    dispatch userQuery userUuid decision secretToken agentBaseUrl in
                  (response, st, (fetched ++ effects)%list)
              | None =>
                  (mkResponse 500
                     (Error ("Dados do agente '" +:+ targetAgentId +:+ "' nao encontrados.")),
                   st, fetched)
              end
          | None =>
              (mkResponse 500
                 (Error ("Erro de seguranca interno: token para o agente " +:+ targetAgentId
                         +:+ " nao encontrado.")),
               st, fetched)
          end
      end.

End Handlers.

End Host.

(** ** The start-up of the host agent ([host_agent.ts], the discovery
    loop at the end of the file) *)

Module HostStartup.

Import Host.

(** What the start-up does besides the effects of its refreshes. *)
Inductive StartupEffect :=
| Did (e : Effect)
| Sleep (ms : Z)
| Listen (port : Z).

Definition waiting : string :=
  "HOST: nenhum agente encontrado ainda. tentando novamente em 5s...".

Definition started (port : Z) (host_agent_id : string) : string :=
  "Host Agent iniciado em http://0.0.0.0:" +:+ JS.show_Z port +:+ " ID: " +:+ host_agent_id.

(** The loop [while (true)] of the start-up: one refresh per turn,
    until a refresh leaves at least one discovered tool; then the host
    listens. The registry answers the successive turns with [worlds];
    the result is [None] when the loop is still waiting after the last
    of them. *)
Fixpoint bootstrap (cfg : Config) (port : Z) (worlds : list World) (st : State)
  : option (State * list StartupEffect) :=
  match worlds with
  | [] => None
  | world :: later =>
      let '(st, fetched) := fetchToolsFromRegistry cfg world st in
      if (0 <? length (discoveredTools st))%nat then
        Some (st,
              (map Did fetched
               ++ [Did (ConsoleLog (started port (HOST_AGENT_ID cfg))); Listen port])%list)
      else
        match bootstrap cfg port later st with
        | Some (st', effects) =>
            Some (st', (map Did fetched ++ Did (ConsoleLog waiting) :: Sleep 5000 :: effects)%list)
        | None => None
        end
  end.

End HostStartup.

(** ** The specialist agent ([ai_guide_agent.ts]) and its anchoring
    engine *)

Module Specialist.

Local Open Scope float_scope.

(** [Math.sqrt(x) || 1] : zero and NaN are falsy. *)
Definition or_one (x : float) : float :=
  if PrimFloat.is_nan x || (x =? 0) then 1 else x.

(** [a.reduce((s, v, i) => s + v * (b[i] ?? 0), 0)], with [b] read from
    index [i] on. *)
Fixpoint dot_from (s : float) (a b : list float) : float :=
  match a with
  | [] => s
  | v :: a' =>
      dot_from (s + v * match b with [] => 0 | w :: _ => w end) a' (List.tl b)
  end.

Definition sum_squares (a : list float) : float :=
  fold_left (fun s v => s + v * v) a 0.

(** [cosineSimilarity] *)
Definition cosineSimilarity (a b : list float) : float :=
  let dot := dot_from 0 a b in
  let na := or_one (PrimFloat.sqrt (sum_squares a)) in
  let nb := or_one (PrimFloat.sqrt (sum_squares b)) in
  dot / (na * nb).

(** A digit [0..9] as a number. *)
Definition of_digit (d : Z) : float := PrimFloat.of_uint63 (Uint63.of_Z d).

(** The loop of [encodeToVector], from index [i] on. *)
Fixpoint encode_from (dim i : nat) (text : string) (vec : list float) : list float :=
  match text with
  | EmptyString => vec
  | String c text' =>
      encode_from dim (S i) text'
        (alter (fun x => x + of_digit (JS.charCode c mod 10)) (i mod dim)%nat vec)
  end.

(** [encodeToVector(text, dim)]. With [dim = 0] the array is empty and
    stays so: [vec[i % 0]] is [vec[NaN]], which is no element of the
    array. *)
Definition encodeToVector (text : string) (dim : nat) : list float :=
  encode_from dim 0 text (replicate dim 0).

(** [Math.max] of two numbers. *)
Definition max2 (a b : float) : float :=
  if PrimFloat.is_nan a || PrimFloat.is_nan b then nan
  else if a <? b then b
  else if b <? a then a
  else if PrimFloat.get_sign a then b else a.

(** [Math.max(...l)] *)
Definition math_max (l : list float) : float := fold_left max2 l neg_infinity.

(** [calcularSimilaridadeMaxima]. The text is encoded with the default
    dimension, 128. The documents are encoded by
    [documentos.map(encodeToVector)], and [map] hands its callback the
    index of the element as second argument: the document at index [k]
    is encoded with dimension [k], the first one as the empty
    vector. *)
Definition calcularSimilaridadeMaxima (texto : string) (documentos : list string) : float :=
  if (length documentos =? 0)%nat then 0
  else
    let vText := encodeToVector texto 128 in
    let docsVecs := imap (fun index doc => encodeToVector doc index) documentos in
    let sims := map (fun dv => cosineSimilarity dv vText) docsVecs in
    if (length sims =? 0)%nat then 0 else math_max sims.

Record Config := mkConfig { AGENT_ID : string; AGENT_SECRET_TOKEN : string }.

(** The outside world during one request: the retriever, and the
    model. The model is asked with the prompt, the temperature and a
    seed made of the clock and the index of the call; it is a function
    of the prompt, the temperature and that index here. *)
Record World := mkWorld {
  retrieveAndFormat : string -> string -> Z -> outcome (string * list string * list string);
  invokeModelWithTemperature : list string -> float -> nat -> outcome string
}.

(** The request as the handler reads it: the [authorization] header,
    [payload.query], [payload.uuid] and [sender_agent_id]. *)
Record Request := mkRequest {
  authorization : option string;
  payload_query : option string;
  payload_uuid : option string;
  sender_agent_id : option string
}.

Record Candidate := mkCandidate {
  text : string;
  isAnchor : bool;
  score : float;
  temp : float
}.

Inductive Body :=
| Error (error : string)
| Answer (answer result : string) (sources : list string)
    (chosen_temperature : option float) (similarity : float).

Record Response := mkResponse { status : Z; body : Body }.

Definition SYSTEM_PROMPT : string :=
  "Voc" +:+ JS.chr 234 +:+ " " +:+ JS.chr 233
  +:+ " um assistente de IA que responde com base no contexto fornecido.".

Definition temps : list float := [0.3; 0.6; 0.9].

Definition threshold : float := 0.35.

Definition respostaPadrao : string :=
  "Nao encontrei material sobre este topico especifico nas minhas diretrizes.".

(** [String(resp.content || resp)] : an empty content is falsy and the
    response object itself is printed. *)
Definition text_of (content : string) : string :=
  if JS.truthy content then content else "[object Object]".

(** [(a, b) => (a.score > b.score ? a : b)] *)
Definition better (a b : Candidate) : Candidate :=
  if score b <? score a then a else b.

(** The choice of the final text, temperature and score among the
    candidates. *)
Definition choose (candidates : list Candidate) : string * option float * float :=
  let anchored := List.filter isAnchor candidates in
  match JS.reduce better anchored with
  | Some best => (text best, Some (temp best), score best)
  | None => (respostaPadrao, None, 0)
  end.

(** [fontesLine] *)
Definition fontesLine (sourceNames : list string) : string :=
  let displaySources := map (JS.split_pop "/") (List.filter JS.truthy sourceNames) in
  if (length displaySources =? 0)%nat then "Fontes: -"
  else "Fontes: " +:+ JS.join " e " displaySources.

Section Handlers.

Variable cfg : Config.
Variable world : World.

(** The loop over [temps], from index [i] on; a failed generation
    leaves no candidate. *)
Fixpoint generate (prompt : list string) (rawDocs : list string) (i : nat) (ts : list float)
  : list Candidate :=
  match ts with
  | [] => []
  | t :: ts' =>
      match invokeModelWithTemperature world prompt t i with
      | Resolved content =>
          let text := text_of content in
          let score := calcularSimilaridadeMaxima text rawDocs in
          let isAnchor := threshold <=? score in
          mkCandidate text isAnchor score t :: generate prompt rawDocs (S i) ts'
      | Thrown _ => generate prompt rawDocs (S i) ts'
      end
  end.

(** The candidates of one request. *)
Definition candidates_of (ragContext query : string) (rawDocs : list string) : list Candidate :=
  generate [SYSTEM_PROMPT; ragContext; query] rawDocs 0 temps.

(** [app.post('/execute')]. The two writes to the conversation log are
    left out: their failures are caught and nothing is read back. *)
Definition execute (req : Request) : Response :=
  match authorization req with
  | None => mkResponse 403 (Error "Acesso nao autorizado.")
  | Some auth =>
      if negb (JS.truthy auth) || negb (String.eqb auth ("Bearer " +:+ AGENT_SECRET_TOKEN cfg))
      then mkResponse 403 (Error "Acesso nao autorizado.")
      else
        let query := JS.or_empty (payload_query req) in
        if negb (JS.truthy query)
        then mkResponse 400 (Error "A 'query' nao foi recebida.")
        else
          match retrieveAndFormat world "Boas_Praticas_IA" query 6 with
          | Resolved (ragContext, sourceNames, rawDocs) =>
              let candidates := candidates_of ragContext query rawDocs in
              let '(respostaFinal, bestTemp, bestScore) := choose candidates in
              let respostaFinal := respostaFinal +:+ JS.nl +:+ JS.nl +:+ fontesLine sourceNames in
              mkResponse 200 (Answer respostaFinal respostaFinal sourceNames bestTemp bestScore)
          | Thrown message =>
              mkResponse 500 (Error ("Erro interno do agente Guia de IA: " +:+ message))
          end
  end.

End Handlers.

End Specialist.

(** ** The retriever of the specialist agent ([rag_edson.ts]) *)

Module Retriever.

(** One metadata record of a ChromaDB answer, by its own fields. The
    values are strings; [null] in place of a record is [None] in the
    lists below. *)
Definition Metadata := gmap string string.

(** [res.data] of a query: each field may be missing; when it is there
    it holds one list per query text. *)
Record QueryResults := mkResults {
  documents : option (list (list string));
  metadatas : option (list (list (option Metadata)));
  ids : option (list (list string))
}.

Record Config := mkConfig { baseUrl : string; defaultN : Z }.

Record QueryBody := mkQueryBody {
  query_texts : list string;
  n_results : Z;
  include : list string
}.

(** What ChromaDB answers to the one call of a retrieval. *)
Record World := mkWorld { post : string -> QueryBody -> outcome QueryResults }.

Inductive Effect :=
| HttpPost (url : string) (body : QueryBody)
| ConsoleWarn (line detail : string).

(** [_queryCollection]; [!nResults] holds of a missing number and
    of 0. *)
Definition queryCollection (cfg : Config) (world : World)
  (collectionName queryText : string) (nResults : option Z) : QueryResults * list Effect :=
  let nResults :=
    match nResults with
    | Some n => if n =? 0 then defaultN cfg else n
    | None => defaultN cfg
    end in
  let url := baseUrl cfg +:+ "/collection/" +:+ collectionName +:+ "/query" in
  let body := mkQueryBody [queryText] nResults ["documents"; "metadatas"; "distances"; "ids"] in
  match post world url body with
  | Resolved data => (data, [HttpPost url body])
  | Thrown message =>
      (mkResults None None None,
       [HttpPost url body;
        ConsoleWarn "ChromaDBRetriever: falha ao consultar ChromaDB, retornando vazio" message])
  end.

(** [_formatContextForLLM] *)
Definition formatContextForLLM (documents : list string) : string :=
  if (length documents =? 0)%nat then "<RAG>Nenhum contexto encontrado.</RAG>"
  else
    fold_left
      (fun ctx d => ctx +:+ (JS.nl +:+ "---" +:+ JS.nl +:+ d +:+ JS.nl +:+ "---" +:+ JS.nl))
      documents
      ("<RAG> Contexto recuperado:" +:+ JS.nl)
    +:+ "</RAG>".

(** [(results?.field?.[0]) || []] *)
Definition first_or_empty {A} (field : option (list (list A))) : list A :=
  match field with
  | Some (first :: _) => first
  | _ => []
  end.

Definition label_keys : list string :=
  ["source"; "file_name"; "filename"; "path"; "name"; "title"; "url"].

(** The loop over the keys: the first key with a truthy value gives the
    label, and the loop stops there. *)
Fixpoint label_from (meta : Metadata) (keys : list string) : option string :=
  match keys with
  | [] => None
  | k :: keys' =>
      match meta !! k with
      | Some v =>
          if JS.truthy v
          then Some (let base := JS.split_pop "/" v in if JS.truthy base then base else v)
          else label_from meta keys'
      | None => label_from meta keys'
      end
  end.

(** The label pushed for one metadata record:
    [label || 'Origem desconhecida']. *)
Definition label_of (meta : option Metadata) : string :=
  match meta with
  | Some meta =>
      match label_from meta label_keys with
      | Some label => if JS.truthy label then label else "Origem desconhecida"
      | None => "Origem desconhecida"
      end
  | None => "Origem desconhecida"
  end.

(** [set.add(x)] on a set read in insertion order. *)
Definition set_add (seen : list string) (x : string) : list string :=
  if existsb (String.eqb x) seen then seen else (seen ++ [x])%list.

(** [Array.from(new Set(l))] *)
Definition unique (l : list string) : list string := fold_left set_add l [].

(** [retrieveAndFormat] *)
Definition retrieveAndFormat (cfg : Config) (world : World)
  (collectionName queryText : string) (nResults : option Z)
  : (string * list string * list string) * list Effect :=
  let '(results, effects) := queryCollection cfg world collectionName queryText nResults in
  let rawDocuments := first_or_empty (documents results) in
  let metadatas := first_or_empty (metadatas results) in
  let sourceNames := map label_of metadatas in
  let formattedContext := formatContextForLLM rawDocuments in
  let uniqueSourceNames := unique sourceNames in
  ((formattedContext, uniqueSourceNames, rawDocuments), effects).

End Retriever.

(** ** The conversation log ([monitoramento.ts]) *)

Module Monitor.

(** A message handed to [appendConversation]: a string, or another
    value with its [content] field, if any, and its JSON text. *)
Inductive Message :=
| Text (text : string)
| Object (content : option string) (json : string).

(** [typeof message === 'string' ? message
     : message?.content ?? JSON.stringify(message)] *)
Definition content_of (message : Message) : string :=
  match message with
  | Text text => text
  | Object (Some content) _ => content
  | Object None json => json
  end.

Record StoredMessage := mkStored {
  sender : option string;
  message : string;
  destination : option string;
  timestamp : Z
}.

(** A document of the collection [chat_history]. *)
Record Doc := mkDoc { ip : string; messages : list StoredMessage }.

(** The module-level variables: [collection], with the documents of the
    collection by their [uuid] when MongoDB is connected, and
    [inMemoryStore], by the arrays it holds. A session without uuid is
    stored under the uuid [null] in the collection. *)
Record State := mkState {
  collection : option (gmap (option string) Doc);
  inMemoryStore : gmap string (list StoredMessage)
}.

(** [inMemoryStore[key]] reads a member of [Object.prototype]: the
    store holds no array under the name, and the name is one of
    [Object.prototype]. What is read is truthy and is no array. *)
Definition reads_member (store : gmap string (list StoredMessage)) (key : string) : bool :=
  match store !! key with
  | Some _ => false
  | None => Obj.inherited key
  end.

(** The message of the [TypeError] of [inMemoryStore[sessionUuid].push]
    on a value without [push]. *)
Definition no_push : string := "inMemoryStore[sessionUuid].push is not a function".

(** [inMemoryStore[sessionUuid]] turns a missing uuid into the property
    name ["undefined"]. *)
Definition key_of (sessionUuid : option string) : string :=
  default "undefined" sessionUuid.

(** [invokeModel], on a string prompt. *)
Definition invokeModel (prompt : string) : string := "LLM_STUB_RESPONSE: " +:+ prompt.

(** [invokeModelWithTemperature], on the array of strings that
    [/execute] passes: [invokeModel] prints a prompt that is no string
    with [JSON.stringify]. [temperature] is the number as the template
    literal prints it. *)
Definition invokeModelWithTemperature (prompt : list string) (temperature : string)
  (seed : option Z) : string :=
  invokeModel (JS.stringify_array prompt) +:+ " [temp=" +:+ temperature +:+ " seed="
  +:+ match seed with Some n => JS.show_Z n | None => "none" end +:+ "]".

(** [appendConversation]; [mongo] is what the server does with the
    write when the collection is connected. In the fallback, a session
    named like a member of [Object.prototype] reads that member in
    place of [[]]: the assignment of line 59 keeps it under the name,
    where it reads the same, and [push] throws. *)
Definition appendConversation (mongo : outcome unit) (now : Z) (st : State)
  (message : Message) (senderId receiverId sessionUuid : option string) (ip : option string)
  : outcome unit * State :=
  let ip := default "local" ip in
  let content := content_of message in
  let newMessage := mkStored senderId content receiverId now in
  match collection st with
  | Some docs =>
      match mongo with
      | Resolved _ =>
          let doc :=
            match docs !! sessionUuid with
            | Some doc => mkDoc (Monitor.ip doc) (messages doc ++ [newMessage])
            | None => mkDoc ip [newMessage]
            end in
          (Resolved tt, mkState (Some (<[sessionUuid := doc]> docs)) (inMemoryStore st))
      | Thrown e => (Thrown e, st)
      end
  | None =>
      let key := key_of sessionUuid in
      if reads_member (inMemoryStore st) key then (Thrown no_push, st)
      else
        let old := default [] (inMemoryStore st !! key) in
        (Resolved tt, mkState None (<[key := (old ++ [newMessage])%list]> (inMemoryStore st)))
  end.

(** What [getContext] resolves to: the messages, the text of a
    summary, or the member of [Object.prototype] that the fallback
    store reads under the name of the session. *)
Inductive Context :=
| Messages (msgs : list StoredMessage)
| Summary (text : string)
| Member (name : string).

(** [getContext] *)
Definition getContext (mongo : outcome unit) (st : State) (sessionUuid : option string)
  : outcome Context :=
  match collection st with
  | Some docs =>
      match mongo with
      | Resolved _ =>
          match docs !! sessionUuid with
          | None => Resolved (Messages [])
          | Some doc =>
              let msgs := messages doc in
              if (5 <? length msgs)%nat
              then Resolved (Summary (invokeModel (JS.join JS.nl (map message msgs))))
              else Resolved (Messages msgs)
          end
      | Thrown e => Thrown e
      end
  | None =>
      let key := key_of sessionUuid in
      if reads_member (inMemoryStore st) key then Resolved (Member key)
      else Resolved (Messages (default [] (inMemoryStore st !! key)))
  end.

(** [input.replace(/<RAG>[\s\S]*?<\/RAG>/g, '')]. The input is read
    from left to right. Where [<RAG>] begins and a [</RAG>] follows it,
    everything up to the end of the first such [</RAG>] is dropped and
    reading goes on behind it; any other unit is kept. In
    [strip inside skip s], [skip] units of a tag are still to be passed
    over, and [inside] tells whether the units that follow them belong
    to an opened block. *)
Fixpoint strip (inside : bool) (skip : nat) (s : string) : string :=
  match s with
  | EmptyString => EmptyString
  | String c s' =>
      match skip with
      | S n => strip inside n s'
      | O =>
          if inside then
            if JS.startsWith s "</RAG>" then strip false 5 s' else strip true 0 s'
          else if JS.startsWith s "<RAG>" && JS.includes (JS.slice 5 s) "</RAG>"
          then strip true 4 s'
          else String c (strip false 0 s')
      end
  end.

(** [removeBetweenRagTags] *)
Definition removeBetweenRagTags (input : string) : string := strip false 0 input.

End Monitor.

(** ** The specialist agent with its retriever and its log
    ([ai_guide_agent.ts], [/execute] with the two writes to the
    conversation log) *)

Module SpecialistLog.

Import Specialist.

(** [`${t}`] for the three temperatures of [temps], the only numbers
    the handler passes. *)
Definition show_temperature (t : float) : string :=
  if (t =? 0.3)%float then "0.3"
  else if (t =? 0.6)%float then "0.6"
  else if (t =? 0.9)%float then "0.9"
  else EmptyString.

(** The model of [monitoramento.ts] behind [/execute]: call [i] of
    the loop passes the seed [Date.now() % 100000 + i], and [clock i]
    is what [Date.now()] gives there. The call never throws. *)
Definition stub_model (clock : nat -> Z) (prompt : list string) (t : float) (i : nat)
  : outcome string :=
  Resolved (Monitor.invokeModelWithTemperature prompt (show_temperature t)
              (Some (clock i mod 100000 + Z.of_nat i))).

(** [console.warn] of a write that failed. *)
Inductive Effect := ConsoleWarn (line detail : string).

Definition warn_of (line : string) (o : outcome unit) : list Effect :=
  match o with
  | Resolved _ => []
  | Thrown e => [ConsoleWarn line e]
  end.

(** [app.post('/execute')] with the log: the query is written after the
    retrieval, the final answer before the response is sent; a write
    that throws is caught and warned about. [mongo1] and [mongo2] are
    what MongoDB does with the two writes, [now1] and [now2] the clock
    at each. *)
Definition execute (cfg : Config) (world : World)
  (mongo1 mongo2 : outcome unit) (now1 now2 : Z)
  (log : Monitor.State) (req : Request) : Response * Monitor.State * list Effect :=
  match authorization req with
  | None => (mkResponse 403 (Error "Acesso nao autorizado."), log, [])
  | Some auth =>
      if negb (JS.truthy auth) || negb (String.eqb auth ("Bearer " +:+ AGENT_SECRET_TOKEN cfg))
      then (mkResponse 403 (Error "Acesso nao autorizado."), log, [])
      else
        let query := JS.or_empty (payload_query req) in
        let userUuid := payload_uuid req in
        if negb (JS.truthy query)
        then (mkResponse 400 (Error "A 'query' nao foi recebida."), log, [])
        else
          match retrieveAndFormat world "Boas_Praticas_IA" query 6 with
          | Resolved (ragContext, sourceNames, rawDocs) =>
              let '(written1, log) :=
                Monitor.appendConversation mongo1 now1 log (Monitor.Text query)
                  (sender_agent_id req) (Some (AGENT_ID cfg)) userUuid None in
              let candidates := candidates_of world ragContext query rawDocs in
              let '(respostaFinal, bestTemp, bestScore) := choose candidates in
              let respostaFinal := respostaFinal +:+ JS.nl +:+ JS.nl +:+ fontesLine sourceNames in
              let '(written2, log) :=
                Monitor.appendConversation mongo2 now2 log (Monitor.Text respostaFinal)
                  (Some (AGENT_ID cfg)) (sender_agent_id req) userUuid None in
              (mkResponse 200 (Answer respostaFinal respostaFinal sourceNames bestTemp bestScore),
               log,
               (warn_of "ai_guide_agent: falha append input" written1
                ++ warn_of "ai_guide_agent: falha append resposta" written2)%list)
          | Thrown message =>
              (mkResponse 500 (Error ("Erro interno do agente Guia de IA: " +:+ message)),
               log, [])
          end
  end.

End SpecialistLog.

(** ** The interface ([interface.ts]): [/chat] *)

Module UI.

(** What [fetch] of the host's [/query] resolves to: the answer of the
    host, whatever its status, or nothing. *)
Inductive Body :=
| Error (error : string)
| FromHost (data : Host.Body).

Record Response := mkResponse { status : Z; body : Body }.

(** [app.post('/chat')]; [host] is the host agent as [fetch] reaches
    it. *)
Definition chat (host : Host.QueryRequest -> outcome Host.Response) (req : Host.QueryRequest)
  : Response :=
  let query := JS.or_empty (Host.query req) in
  let uuid := Host.uuid req in
  if negb (JS.truthy query) then mkResponse 400 (Error "query required")
  else
    match host (Host.mkQuery (Some query) uuid) with
    | Resolved resp => mkResponse 200 (FromHost (Host.body resp))
    | Thrown message => mkResponse 502 (Error message)
    end.

End UI.

(** ** The backend ([index.ts], [chromaDBRetriever.ts], [llm.ts]) *)

Module Backend.

(** *** The conversation with the model ([LLMConversation]) *)

Inductive BaseMessage :=
| SystemMessage (content : string)
| HumanMessage (content : string)
| AIMessage (content : string).

Definition is_system (msg : BaseMessage) : bool :=
  match msg with
  | SystemMessage _ => true
  | _ => false
  end.

(** What a handler asks of ChromaDB and of the model, in order. *)
Inductive Effect :=
| Heartbeat
| AddEmbeddings (ids documents : list string)
| Query (query : list string) (n_results : Z)
| Invoke (history : list BaseMessage).

(** The fields [history] and [systemPrompt] of the object. The two
    token counters of [metrics] are left out. *)
Record LLMConversation := mkLLM {
  history : list BaseMessage;
  systemPrompt : string
}.

(** [new LLMConversation()], for the text [prompt] of the class. *)
Definition new_conversation (prompt : string) : LLMConversation :=
  mkLLM [SystemMessage prompt] prompt.

(** [invokeModel]; [model] is [this.model.invoke]. A call that throws
    leaves the history with the input already pushed. *)
Definition invokeModel (model : list BaseMessage -> outcome string) (llm : LLMConversation)
  (humanInput : string) (systemInput : option string)
  : outcome string * LLMConversation * list Effect :=
  let history :=
    if JS.truthy (JS.or_empty systemInput)
    then (history llm ++ [SystemMessage (JS.or_empty systemInput)])%list
    else history llm in
  let history := (history ++ [HumanMessage humanInput])%list in
  match model history with
  | Resolved AIResp =>
      (Resolved AIResp, mkLLM (history ++ [AIMessage AIResp])%list (systemPrompt llm),
       [Invoke history])
  | Thrown e => (Thrown e, mkLLM history (systemPrompt llm), [Invoke history])
  end.

Definition getHistory (llm : LLMConversation) : list BaseMessage := history llm.

Definition clearHistory (llm : LLMConversation) : LLMConversation :=
  mkLLM [SystemMessage (systemPrompt llm)] (systemPrompt llm).

Definition getSystemPrompt (llm : LLMConversation) : string := systemPrompt llm.

Definition setSystemPrompt (llm : LLMConversation) (prompt : string) : LLMConversation :=
  mkLLM (SystemMessage prompt :: List.filter (fun msg => negb (is_system msg)) (history llm))
    prompt.

(** *** The retriever of the backend ([chromaDBRetriever.ts]) *)

(** The answer of [collection.query] as [retrieveFormatted] reads it:
    the documents and the metadata records, one list per query text
    each; a record is given by its own fields, or is [null]. *)
Record QueryResults := mkResults {
  documents : option (list (list string));
  metadatas : option (list (list (option (gmap string string))))
}.

Record World := mkWorld {
  heartbeat : outcome Z;
  add : list string -> list string -> outcome string;
  query : list string -> Z -> outcome QueryResults;
  model : list BaseMessage -> outcome string
}.

(** What the loop over [metadatas] pushes for one of its elements. The
    element is the list of the records of one query text: an array,
    which is an object and has no property [source], whatever its
    records hold; the test fails and the fixed name is pushed. *)
Definition source_of (meta : list (option (gmap string string))) : string :=
  "Origem desconhecida".

Definition block (doc : string) : string :=
  JS.nl +:+ "---" +:+ JS.nl +:+ doc +:+ JS.nl +:+ "---" +:+ JS.nl.

(** [retrieveFormatted], with its default of 3 results: the context and
    the sources. *)
Definition retrieveFormatted (world : World) (text : string)
  : outcome (string * list string) * list Effect :=
  match query world [text] 3 with
  | Thrown e => (Thrown e, [Query [text] 3])
  | Resolved query_results =>
      let source_names :=
        match metadatas query_results with
        | Some metadatas => map source_of metadatas
        | None => []
        end in
      let unique_source_names := Retriever.unique source_names in
      let context_str := "<RAG> Contexto recuperado:" +:+ JS.nl in
      let context_str :=
        match documents query_results with
        | Some raw_documents =>
            fold_left
              (fun ctx docArr => fold_left (fun ctx doc => ctx +:+ block doc) docArr ctx)
              raw_documents context_str
        | None => context_str
        end in
      let context_str := context_str +:+ "</RAG>" in
      (Resolved (context_str, unique_source_names), [Query [text] 3])
  end.

(** *** The endpoints ([index.ts]) *)

Inductive Body :=
| Error (error : string)
| Failure (error : string)
| Health (chroma : Z)
| Added (result : string)
| Queried (response context : string) (sources : list string).

Record Response := mkResponse { status : Z; body : Body }.

(** [authenticateBearer]: the response it sends, or [None] when it
    calls [next()]. *)
Definition authenticateBearer (AGENT_SECRET_TOKEN : string) (authorization : option string)
  : option Response :=
  let authHeader := JS.or_empty authorization in
  if negb (JS.truthy authHeader) || negb (JS.startsWith authHeader "Bearer ")
  then Some (mkResponse 401 (Error "Bearer token required"))
  else
    let token := JS.slice 7 authHeader in
    if negb (String.eqb token AGENT_SECRET_TOKEN)
    then Some (mkResponse 403 (Error "Invalid token"))
    else None.

Record Payload := mkPayload { payload_query : option string; payload_uuid : option string }.

(** A request as the three endpoints read it. *)
Record Request := mkRequest {
  authorization : option string;
  ids : option (list string);
  req_documents : option (list string);
  payload : option Payload;
  sender_agent_id : option string
}.

Section Handlers.

Variable AGENT_SECRET_TOKEN : string.
Variable world : World.

(** [app.get('/health')] *)
Definition get_health (req : Request) : Response * list Effect :=
  match authenticateBearer AGENT_SECRET_TOKEN (authorization req) with
  | Some refused => (refused, [])
  | None =>
      match heartbeat world with
      | Resolved hb => (mkResponse 200 (Health hb), [Heartbeat])
      | Thrown e => (mkResponse 500 (Failure e), [Heartbeat])
      end
  end.

(** [app.post('/collections/add')] *)
Definition post_add (req : Request) : Response * list Effect :=
  match authenticateBearer AGENT_SECRET_TOKEN (authorization req) with
  | Some refused => (refused, [])
  | None =>
      match ids req, req_documents req with
      | Some ids, Some documents =>
          if negb (length ids =? length documents)%nat
          then (mkResponse 400 (Error "ids e documents devem ter o mesmo tamanho"), [])
          else
            match add world ids documents with
            | Resolved result => (mkResponse 200 (Added result), [AddEmbeddings ids documents])
            | Thrown e => (mkResponse 500 (Failure e), [AddEmbeddings ids documents])
            end
      | _, _ =>
          (mkResponse 400
             (Error ("Par" +:+ JS.chr 226 +:+ "metros inv" +:+ JS.chr 225
                     +:+ "lidos: collection, ids[], documents[] s" +:+ JS.chr 227
                     +:+ "o obrigat" +:+ JS.chr 243 +:+ "rios")),
           [])
      end
  end.

(** [app.post('/query')]. The handler catches nothing: when ChromaDB or
    the model throws, no response is sent, which is [None]. *)
Definition post_query (llm : LLMConversation) (req : Request)
  : option Response * LLMConversation * list Effect :=
  match authenticateBearer AGENT_SECRET_TOKEN (authorization req) with
  | Some refused => (Some refused, llm, [])
  | None =>
      let text :=
        match payload req with
        | Some payload => JS.or_empty (payload_query payload)
        | None => ""
        end in
      if negb (JS.truthy text)
      then (Some (mkResponse 400
                    (Error ("Par" +:+ JS.chr 226 +:+ "metros inv" +:+ JS.chr 225
                            +:+ "lidos: query obrigat" +:+ JS.chr 243 +:+ "ria"))),
            llm, [])
      else
        match retrieveFormatted world text with
        | (Thrown _, asked) => (None, llm, asked)
        | (Resolved (context, sources), asked) =>
            match invokeModel (model world) llm text (Some context) with
            | (Resolved llmResponse, llm, invoked) =>
                (Some (mkResponse 200 (Queried llmResponse context sources)), llm,
                 (asked ++ invoked)%list)
            | (Thrown _, llm, invoked) => (None, llm, (asked ++ invoked)%list)
            end
        end
  end.

End Handlers.

End Backend.

(* ================================================================== *)
(** * Part II: the properties *)
(* ================================================================== *)

(** ** The order of binary64 numbers

    The primitive comparisons are specified by [SFcompare] on the
    decoded numbers. A number that is not NaN has a key in the
    lexicographic order of [Z * Z * Z], and [SFcompare] compares the
    keys. *)

Section FloatOrder.

Local Open Scope float_scope.

Definition sf_key (f : spec_float) : option (Z * Z * Z) :=
  match f with
  | S754_nan => None
  | S754_infinity s => Some (if s then (-2, 0, 0) else (2, 0, 0))%Z
  | S754_zero _ => Some (0, 0, 0)%Z
  | S754_finite s m e => Some (if s then (-1, - e, - Z.pos m) else (1, e, Z.pos m))%Z
  end.

Definition lex3 (a b : Z * Z * Z) : comparison :=
  match (a.1.1 ?= b.1.1)%Z with
  | Eq => match (a.1.2 ?= b.1.2)%Z with
          | Eq => (a.2 ?= b.2)%Z
          | c => c
          end
  | c => c
  end.

Definition lt3 (a b : Z * Z * Z) : Prop :=
  (a.1.1 < b.1.1 \/ (a.1.1 = b.1.1 /\ (a.1.2 < b.1.2 \/ (a.1.2 = b.1.2 /\ a.2 < b.2))))%Z.

Definition key (x : float) : option (Z * Z * Z) := sf_key (Prim2SF x).

Lemma SFcompare_key a b :
  SFcompare a b =
  match sf_key a, sf_key b with
  | Some x, Some y => Some (lex3 x y)
  | _, _ => None
  end.
Proof.
  destruct a as [[]| [] | | [] m1 e1], b as [[]|[]| |[] m2 e2]; try reflexivity;
    cbn -[Z.compare Z.opp]; unfold lex3; cbn -[Z.compare Z.opp]; f_equal.
  rewrite Z.compare_opp, (Z.compare_antisym e1 e2).
  change (- Z.pos m1 ?= - Z.pos m2)%Z with (CompOpp (m1 ?= m2)%positive).
  destruct (e1 ?= e2)%Z; cbn; rewrite ?Pos.compare_cont_spec; try reflexivity.
  destruct (m1 ?= m2)%positive; reflexivity.
Qed.

Lemma lex3_Lt a b : lex3 a b = Lt <-> lt3 a b.
Proof.
  destruct a as [[a1 a2] a3], b as [[b1 b2] b3]; unfold lex3, lt3; cbn.
  destruct (Z.compare_spec a1 b1), (Z.compare_spec a2 b2), (Z.compare_spec a3 b3);
    split; intros; try discriminate; try reflexivity; lia.
Qed.

Lemma lex3_Gt a b : lex3 a b = Gt <-> lt3 b a.
Proof.
  destruct a as [[a1 a2] a3], b as [[b1 b2] b3]; unfold lex3, lt3; cbn.
  destruct (Z.compare_spec a1 b1), (Z.compare_spec a2 b2), (Z.compare_spec a3 b3);
    split; intros; try discriminate; try reflexivity; lia.
Qed.

(** [x < y] on numbers with keys. *)
Lemma ltb_key x y a b :
  key x = Some a -> key y = Some b -> ((x <? y) = true <-> lt3 a b).
Proof.
  unfold key. intros Ha Hb. rewrite FloatAxioms.ltb_spec. unfold SFltb.
  rewrite SFcompare_key, Ha, Hb. rewrite <- lex3_Lt.
  destruct (lex3 a b); split; congruence.
Qed.

(** [x <= y] on numbers with keys. *)
Lemma leb_key x y a b :
  key x = Some a -> key y = Some b -> ((x <=? y) = true <-> ~ lt3 b a).
Proof.
  unfold key. intros Ha Hb. rewrite FloatAxioms.leb_spec. unfold SFleb.
  rewrite SFcompare_key, Ha, Hb. rewrite <- lex3_Gt.
  destruct (lex3 a b); split; congruence.
Qed.

(** A comparison that holds was made between two numbers, not NaN. *)
Lemma leb_true_key x y :
  (x <=? y) = true -> exists a b, key x = Some a /\ key y = Some b.
Proof.
  unfold key. rewrite FloatAxioms.leb_spec. unfold SFleb. rewrite SFcompare_key.
  destruct (sf_key (Prim2SF x)) as [a|], (sf_key (Prim2SF y)) as [b|]; try discriminate.
  eauto.
Qed.

Lemma ltb_true_key x y :
  (x <? y) = true -> exists a b, key x = Some a /\ key y = Some b /\ lt3 a b.
Proof.
  intros H. assert (H' := H). revert H'. unfold key. rewrite FloatAxioms.ltb_spec. unfold SFltb.
  rewrite SFcompare_key.
  destruct (sf_key (Prim2SF x)) as [a|] eqn:Ha, (sf_key (Prim2SF y)) as [b|] eqn:Hb;
    try discriminate.
  intros _. exists a, b. repeat split. apply (ltb_key x y a b Ha Hb). exact H.
Qed.

End FloatOrder.

Section FloatOrderFacts.

Local Open Scope float_scope.

(** Not NaN. *)
Definition is_number (x : float) : Prop := is_Some (key x).

Lemma leb_true_number_r x y : (x <=? y) = true -> is_number y.
Proof. intros H. destruct (leb_true_key x y H) as (a & b & _ & Hb). exists b. exact Hb. Qed.

Lemma ltb_false_key x y a b :
  key x = Some a -> key y = Some b -> ((x <? y) = false <-> ~ lt3 a b).
Proof.
  intros Ha Hb. rewrite <- (ltb_key x y a b Ha Hb). symmetry. apply not_true_iff_false.
Qed.

(** [y <= x] and [z <= y] give [z <= x], all three being numbers. *)
Lemma nlt_trans x y z :
  is_number x -> is_number y -> is_number z ->
  (x <? y) = false -> (y <? z) = false -> (x <? z) = false.
Proof.
  intros [a Ha] [b Hb] [c Hc].
  rewrite (ltb_false_key x y a b), (ltb_false_key y z b c), (ltb_false_key x z a c) by assumption.
  unfold lt3. lia.
Qed.

(** [y <= x] and [z < y] give [z <= x]. *)
Lemma nlt_lt_trans x y z :
  is_number x -> (x <? y) = false -> (z <? y) = true -> (x <? z) = false.
Proof.
  intros [a Ha] Hxy Hzy.
  destruct (ltb_true_key z y Hzy) as (c & b & Hc & Hb & Hcb).
  rewrite (ltb_false_key x y a b) in Hxy by assumption.
  rewrite (ltb_false_key x z a c) by assumption.
  revert Hxy Hcb. unfold lt3. lia.
Qed.

Lemma ltb_le x y : (x <? y) = true -> (x <=? y) = true.
Proof.
  intros H. destruct (ltb_true_key x y H) as (a & b & Ha & Hb & Hab).
  rewrite (leb_key x y a b) by assumption. revert Hab. unfold lt3. lia.
Qed.

Lemma nlt_le x y : is_number x -> is_number y -> (x <? y) = false -> (y <=? x) = true.
Proof.
  intros [a Ha] [b Hb]. rewrite (ltb_false_key x y a b), (leb_key y x b a) by assumption.
  auto.
Qed.

Lemma leb_refl x : is_number x -> (x <=? x) = true.
Proof.
  intros [a Ha]. rewrite (leb_key x x a a) by assumption. unfold lt3. lia.
Qed.

End FloatOrderFacts.

(** ** The anchoring engine *)

Section Anchoring.

Import Specialist.
Local Open Scope float_scope.

(** What [reduce better] returns: an element of the list such that no
    element before it scores higher and every element after it scores
    strictly lower; [pre] and [mid] are the elements already visited
    before and after the current maximum [acc]. *)
Lemma fold_better (xs : list Candidate) :
  forall pre acc mid,
    Forall (fun c => is_number (score c)) (pre ++ acc :: mid ++ xs) ->
    Forall (fun c => (score acc <? score c) = false) pre ->
    Forall (fun c => (score c <? score acc) = true) mid ->
    exists before best after,
      (pre ++ acc :: mid ++ xs = before ++ best :: after)%list /\
      fold_left better xs acc = best /\
      Forall (fun c => (score best <? score c) = false) before /\
      Forall (fun c => (score c <? score best) = true) after.
Proof.
  induction xs as [|b xs IH]; intros pre acc mid Hnum Hpre Hmid.
  - exists pre, acc, mid. rewrite app_nil_r. auto.
  - cbn [fold_left]. unfold better at 2.
    destruct (score b <? score acc) eqn:E.
    + destruct (IH pre acc (mid ++ [b])%list) as (before & best & after & Heq & Hf & Hb & Ha).
      * rewrite <- app_assoc. exact Hnum.
      * exact Hpre.
      * apply Forall_app. split; [exact Hmid | repeat constructor; exact E].
      * exists before, best, after. rewrite <- app_assoc in Heq. auto.
    + assert (Hacc : is_number (score acc)).
      { rewrite Forall_app, Forall_cons in Hnum. tauto. }
      assert (Hb : is_number (score b)).
      { rewrite Forall_app, Forall_cons, Forall_app, Forall_cons in Hnum. tauto. }
      destruct (IH (pre ++ acc :: mid)%list b []) as (before & best & after & Heq & Hf & Hbf & Ha).
      * cbn [app]. rewrite <- app_assoc. exact Hnum.
      * apply Forall_app. split; [|constructor; [exact E|]].
        -- rewrite Forall_forall in Hpre |- *. intros c Hc.
           apply (nlt_trans _ (score acc)); auto.
           rewrite Forall_app, Forall_forall in Hnum. apply Hnum, Hc.
        -- rewrite Forall_forall in Hmid |- *. intros c Hc.
           apply (nlt_lt_trans _ (score acc)); auto.
      * constructor.
      * exists before, best, after. cbn [app] in Heq. rewrite <- app_assoc in Heq. auto.
Qed.

(** A candidate as the loop builds it: scored against the raw
    documents, and flagged by the threshold test. *)
Definition scored_against (rawDocs : list string) (c : Candidate) : Prop :=
  score c = calcularSimilaridadeMaxima (text c) rawDocs /\
  isAnchor c = (threshold <=? score c).

Lemma generate_scored world prompt rawDocs ts :
  forall i, Forall (scored_against rawDocs) (generate world prompt rawDocs i ts).
Proof.
  induction ts as [|t ts IH]; intros i; cbn [generate].
  - constructor.
  - destruct (invokeModelWithTemperature world prompt t i); [|apply IH].
    constructor; [split; reflexivity | apply IH].
Qed.

(** The candidates come in the order of the temperatures, one at most
    per temperature. *)
Lemma generate_temps world prompt rawDocs ts :
  forall i, sublist (map temp (generate world prompt rawDocs i ts)) ts.
Proof.
  induction ts as [|t ts IH]; intros i; cbn [generate].
  - constructor.
  - destruct (invokeModelWithTemperature world prompt t i); cbn [map temp].
    + apply sublist_skip, IH.
    + apply sublist_cons, IH.
Qed.

(** The outcome of [choose] on candidates whose anchor flag is the
    threshold test. *)
Lemma choose_spec (candidates : list Candidate) :
  Forall (fun c => isAnchor c = (threshold <=? score c)) candidates ->
  match List.filter isAnchor candidates with
  | [] => choose candidates = (respostaPadrao, None, 0)
  | _ :: _ =>
      exists before best after,
        (List.filter isAnchor candidates = before ++ best :: after)%list /\
        Forall (fun c => (score c <=? score best) = true) (List.filter isAnchor candidates) /\
        Forall (fun c => (score c <? score best) = true) after /\
        choose candidates = (text best, Some (temp best), score best)
  end.
Proof.
  intros Hflag. unfold choose.
  assert (Hnum : Forall (fun c => is_number (score c)) (List.filter isAnchor candidates)).
  { rewrite Forall_forall. intros c Hc. apply list_elem_of_In, filter_In in Hc as [Hc Ha].
    rewrite Forall_forall in Hflag. rewrite (Hflag c) in Ha by (apply list_elem_of_In, Hc).
    apply (leb_true_number_r _ _ Ha). }
  destruct (List.filter isAnchor candidates) as [|x xs]; [reflexivity|].
  cbn [JS.reduce].
  destruct (fold_better xs [] x []) as (before & best & after & Heq & Hf & Hb & Ha);
    [exact Hnum | constructor | constructor |].
  cbn [app] in Heq. exists before, best, after. rewrite Hf. repeat split; auto.
  rewrite Heq in Hnum |- *.
  assert (Hbest : is_number (score best)).
  { rewrite Forall_app, Forall_cons in Hnum. tauto. }
  apply Forall_app. split; [|constructor].
  - rewrite Forall_forall in Hb |- *. intros c Hc. apply nlt_le; auto.
    rewrite Forall_app, Forall_forall in Hnum. apply Hnum, Hc.
  - apply leb_refl, Hbest.
  - rewrite Forall_forall in Ha |- *. intros c Hc. apply ltb_le; auto.
Qed.

(** The body of a successful answer: the chosen text followed by the
    sources line. *)
Definition reply (sourceNames : list string) (chosen : string) (t : option float) (s : float)
  : Response :=
  let respostaFinal := chosen +:+ JS.nl +:+ JS.nl +:+ fontesLine sourceNames in
  mkResponse 200 (Answer respostaFinal respostaFinal sourceNames t s).

(** An authorised request with a query reaches the engine. *)
Lemma execute_engine cfg world req query ragContext sourceNames rawDocs :
  authorization req = Some ("Bearer " +:+ AGENT_SECRET_TOKEN cfg) ->
  payload_query req = Some query ->
  JS.truthy query = true ->
  retrieveAndFormat world "Boas_Praticas_IA" query 6
    = Resolved (ragContext, sourceNames, rawDocs) ->
  execute cfg world req =
    let '(chosen, t, s) := choose (candidates_of world ragContext query rawDocs) in
    reply sourceNames chosen t s.
Proof.
  intros Hauth Hq Htruthy Hret. unfold execute.
  rewrite Hauth, Hq. change (JS.or_empty (Some query)) with query.
  rewrite String.eqb_refl, Htruthy, Hret. cbn [negb orb JS.truthy String.append].
  destruct (choose _) as [[chosen t] s]. reflexivity.
Qed.

(** *** C1: anchoring and selection *)

(** A small world: two retrieved documents, ["x"] and ["A"]; the
    model answers ["A"] at the first temperature, ["K"] at the second
    and fails at the third. The first document is encoded with
    dimension 0 and scores 0 against everything; the second is encoded
    with dimension 1, and both texts, encoded as the same vector, score
    1 against it. *)
Definition tie_cfg : Config := mkConfig "ai-guide-agent" "secret".

Definition tie_world : World :=
  mkWorld
    (fun _ _ _ => Resolved ("<RAG> x A </RAG>", ["docs/guia.pdf"], ["x"; "A"]))
    (fun _ _ i =>
       match i with
       | O => Resolved "A"
       | S O => Resolved "K"
       | _ => Thrown "timeout"
       end).

Definition tie_request : Request :=
  mkRequest (Some "Bearer secret") (Some "etica") None (Some "host-agent").

(** The selection as the specification words it: among the anchored
    candidates the highest score, and among equal scores the earliest
    temperature. *)
Definition better_earliest (a b : Candidate) : Candidate :=
  if score a <? score b then b else a.

Definition choose_earliest (candidates : list Candidate) : string * option float * float :=
  match JS.reduce better_earliest (List.filter isAnchor candidates) with
  | Some best => (text best, Some (temp best), score best)
  | None => (respostaPadrao, None, 0)
  end.

(** The services as they are, in a tie. ChromaDB answers the query
    with two documents, ["x"] and ["c"], of one source; the retriever
    is the one of [rag_edson.ts] and the model the one of
    [monitoramento.ts], asked three times within the millisecond
    1762041620001, so that the seeds are 20001, 20002 and 20003.

    The three texts are 523 units long and differ in two units: the
    digit of the temperature, at index 510, and the last digit of the
    seed, at index 521. The second document, at index 1, is encoded
    with dimension 1, so the score of a text is entry 0 of its vector
    over the norm of the vector. The query is made of [x], whose code
    120 adds nothing to a vector, but for a [c] at the indices 256 and
    384 of the text, which brings entry 0 to 31, and a [c] and a [g]
    at the indices 254 and 382. No text differs at entry 0. At the
    entries 126 and 9, where the two digits fall, the first text has
    18 and 11 and the second 21 and 2: the same sum of squares, hence
    the same norm and the same score, above 0.35. The third text has
    24 and 3 there and scores less. *)
Definition filler (n : nat) : string := String.concat "" (replicate n "x").

Definition tie_query : string :=
  filler 92 +:+ "cxc" +:+ filler 125 +:+ "gxc" +:+ filler 114.

Definition stub_chroma : Retriever.World :=
  Retriever.mkWorld
    (fun _ _ =>
       Resolved
         (Retriever.mkResults (Some [["x"; "c"]])
            (Some [[Some {[ "source" := "docs/guia.pdf" ]};
                    Some {[ "source" := "docs/guia.pdf" ]}]])
            (Some [["id-1"; "id-2"]]))).

Definition stub_world : World :=
  mkWorld
    (fun collectionName queryText nResults =>
       Resolved (fst (Retriever.retrieveAndFormat (Retriever.mkConfig "http://localhost:8000" 6%Z)
                        stub_chroma collectionName queryText (Some nResults))))
    (SpecialistLog.stub_model (fun _ => 1762041620001%Z)).

Definition stub_request : Request :=
  mkRequest (Some "Bearer secret") (Some tie_query) None (Some "host-agent").

Definition stub_context : string := Retriever.formatContextForLLM ["x"; "c"].

(** The text of the model at a temperature and a seed. *)
Definition stub_text (temperature : string) (seed : Z) : string :=
  Monitor.invokeModelWithTemperature [SYSTEM_PROMPT; stub_context; tie_query] temperature
    (Some seed).

(** The tie in numbers: the vectors of the two documents, and entry 0
    and the sum of squares of the vector of each text. *)
Lemma the_tie_in_numbers :
  encodeToVector "x" 0 = [] /\
  encodeToVector "c" 1 = [9] /\
  map (fun temperature_seed =>
         let v := encodeToVector (stub_text (fst temperature_seed) (snd temperature_seed)) 128 in
         (String.length (stub_text (fst temperature_seed) (snd temperature_seed)),
          v !! 0%nat, v !! 126%nat, v !! 9%nat, sum_squares v))
    [("0.3", 20001%Z); ("0.6", 20002%Z); ("0.9", 20003%Z)]
  = [(523%nat, Some 31, Some 18, Some 11, 6565);
     (523%nat, Some 31, Some 21, Some 2, 6565);
     (523%nat, Some 31, Some 24, Some 3, 6705)].
Proof. repeat split; vm_compute; reflexivity. Qed.

(** C1, as stated, fails: the two first candidates are anchored and
    tie at the highest score; the specification's choice is the text
    generated at temperature 0.3, the handler answers with the text
    generated at 0.6. *)
Lemma C1_tie_goes_to_the_later_temperature :
  retrieveAndFormat stub_world "Boas_Praticas_IA" tie_query 6
    = Resolved (stub_context, ["guia.pdf"], ["x"; "c"]) /\
  candidates_of stub_world stub_context tie_query ["x"; "c"]
    = [mkCandidate (stub_text "0.3" 20001%Z) true 0.382599438761672 0.3;
       mkCandidate (stub_text "0.6" 20002%Z) true 0.382599438761672 0.6;
       mkCandidate (stub_text "0.9" 20003%Z) true 0.3785840411477777 0.9] /\
  choose_earliest (candidates_of stub_world stub_context tie_query ["x"; "c"])
    = (stub_text "0.3" 20001%Z, Some 0.3, 0.382599438761672) /\
  execute tie_cfg stub_world stub_request
    = reply ["guia.pdf"] (stub_text "0.6" 20002%Z) (Some 0.6) 0.382599438761672 /\
  execute tie_cfg stub_world stub_request
    <> reply ["guia.pdf"] (stub_text "0.3" 20001%Z) (Some 0.3) 0.382599438761672.
Proof.
  repeat split; try (vm_compute; reflexivity).
  vm_compute. intros H. discriminate H.
Qed.

(** C1, amended. For every authorised [/execute] request with a query
    whose retrieval succeeds: the candidates come in the order of the
    temperatures [0.3, 0.6, 0.9]; each is scored against the raw
    documents and is anchored iff its score is at least 0.35; when no
    candidate is anchored the answer is the refusal text followed by
    the sources line; otherwise it is the text of an anchored candidate
    [best] followed by the sources line, where no anchored candidate
    scores higher than [best] and every anchored candidate generated
    after [best] scores strictly lower, so that a tie goes to the
    latest temperature. *)
Theorem C1_anchored_selection
  (cfg : Config) (world : World) (req : Request)
  (query ragContext : string) (sourceNames rawDocs : list string) :
  authorization req = Some ("Bearer " +:+ AGENT_SECRET_TOKEN cfg) ->
  payload_query req = Some query ->
  JS.truthy query = true ->
  retrieveAndFormat world "Boas_Praticas_IA" query 6
    = Resolved (ragContext, sourceNames, rawDocs) ->
  let candidates := candidates_of world ragContext query rawDocs in
  let anchored := List.filter isAnchor candidates in
  sublist (map temp candidates) temps /\
  Forall (fun c => score c = calcularSimilaridadeMaxima (text c) rawDocs /\
                   (isAnchor c = true <-> (0.35 <=? score c) = true)) candidates /\
  (anchored = [] ->
   execute cfg world req = reply sourceNames respostaPadrao None 0) /\
  (anchored <> [] ->
   exists before best after,
     anchored = (before ++ best :: after)%list /\
     Forall (fun c => (score c <=? score best) = true) anchored /\
     Forall (fun c => (score c <? score best) = true) after /\
     execute cfg world req = reply sourceNames (text best) (Some (temp best)) (score best)).
Proof.
  intros Hauth Hq Htruthy Hret candidates anchored.
  pose proof (generate_scored world [SYSTEM_PROMPT; ragContext; query] rawDocs temps 0%nat)
    as Hscored.
  fold (candidates_of world ragContext query rawDocs) in Hscored. fold candidates in Hscored.
  assert (Hflag : Forall (fun c => isAnchor c = (threshold <=? score c)) candidates).
  { eapply Forall_impl; [exact Hscored|]. intros c [_ H]. exact H. }
  pose proof (choose_spec candidates Hflag) as Hchoose. fold anchored in Hchoose.
  pose proof (execute_engine cfg world req query ragContext sourceNames rawDocs
                Hauth Hq Htruthy Hret) as Hexec.
  fold candidates in Hexec.
  split; [apply generate_temps|]. split.
  { eapply Forall_impl; [exact Hscored|]. intros c [Hs Ha]. split; [exact Hs|].
    rewrite Ha. reflexivity. }
  split.
  - intros Hnil. rewrite Hnil in Hchoose. rewrite Hexec, Hchoose. reflexivity.
  - intros Hne. destruct anchored as [|x xs] eqn:Hanch; [congruence|].
    destruct Hchoose as (before & best & after & Heq & Hmax & Hafter & Hc).
    exists before, best, after. repeat split; auto.
    rewrite Hexec, Hc. reflexivity.
Qed.

Lemma C1_anchored_selection_witness :
  authorization tie_request = Some ("Bearer " +:+ AGENT_SECRET_TOKEN tie_cfg) /\
  payload_query tie_request = Some "etica" /\
  JS.truthy "etica" = true /\
  retrieveAndFormat tie_world "Boas_Praticas_IA" "etica" 6
    = Resolved ("<RAG> x A </RAG>", ["docs/guia.pdf"], ["x"; "A"]) /\
  sublist (map temp (candidates_of tie_world "<RAG> x A </RAG>" "etica" ["x"; "A"])) temps.
Proof.
  do 4 (split; [reflexivity|]).
  apply (C1_anchored_selection tie_cfg tie_world tie_request "etica" "<RAG> x A </RAG>"
           ["docs/guia.pdf"] ["x"; "A"]); reflexivity.
Defined.

(** *** C10: nothing retrieved, nothing anchored *)

Lemma calcular_no_documents texto : calcularSimilaridadeMaxima texto [] = 0.
Proof. reflexivity. Qed.

Lemma generate_no_documents world prompt ts :
  forall i,
    Forall (fun c => score c = 0 /\ isAnchor c = false) (generate world prompt [] i ts).
Proof.
  induction ts as [|t ts IH]; intros i; cbn [generate].
  - constructor.
  - destruct (invokeModelWithTemperature world prompt t i); [|apply IH].
    constructor; [split; reflexivity | apply IH].
Qed.

(** C10. When retrieval returns no document, every generated candidate
    scores exactly 0 and is not anchored, and the response is the
    refusal text followed by the sources line, with similarity 0 and no
    chosen temperature. *)
Theorem C10_empty_retrieval_refuses
  (cfg : Config) (world : World) (req : Request)
  (query ragContext : string) (sourceNames : list string) :
  authorization req = Some ("Bearer " +:+ AGENT_SECRET_TOKEN cfg) ->
  payload_query req = Some query ->
  JS.truthy query = true ->
  retrieveAndFormat world "Boas_Praticas_IA" query 6 = Resolved (ragContext, sourceNames, []) ->
  Forall (fun c => score c = 0 /\ isAnchor c = false)
    (candidates_of world ragContext query []) /\
  execute cfg world req =
    mkResponse 200
      (Answer (respostaPadrao +:+ JS.nl +:+ JS.nl +:+ fontesLine sourceNames)
              (respostaPadrao +:+ JS.nl +:+ JS.nl +:+ fontesLine sourceNames)
              sourceNames None 0).
Proof.
  intros Hauth Hq Htruthy Hret.
  pose proof (generate_no_documents world [SYSTEM_PROMPT; ragContext; query] temps 0%nat) as Hzero.
  fold (candidates_of world ragContext query []) in Hzero.
  split; [exact Hzero|].
  rewrite (execute_engine cfg world req query ragContext sourceNames [] Hauth Hq Htruthy Hret).
  unfold choose.
  replace (List.filter isAnchor (candidates_of world ragContext query [])) with (@nil Candidate).
  - reflexivity.
  - symmetry. induction Hzero as [|c l [_ Hc] _ IH]; [reflexivity|].
    cbn [List.filter]. rewrite Hc. exact IH.
Qed.

(** The world in which the retriever finds nothing. *)
Definition empty_world : World :=
  mkWorld
    (fun _ _ _ => Resolved ("<RAG>Nenhum contexto encontrado.</RAG>", [], []))
    (fun _ _ _ => Resolved "A resposta.").

Lemma C10_empty_retrieval_refuses_witness :
  authorization tie_request = Some ("Bearer " +:+ AGENT_SECRET_TOKEN tie_cfg) /\
  payload_query tie_request = Some "etica" /\
  JS.truthy "etica" = true /\
  retrieveAndFormat empty_world "Boas_Praticas_IA" "etica" 6
    = Resolved ("<RAG>Nenhum contexto encontrado.</RAG>", [], []) /\
  execute tie_cfg empty_world tie_request =
    mkResponse 200
      (Answer (respostaPadrao +:+ JS.nl +:+ JS.nl +:+ fontesLine [])
              (respostaPadrao +:+ JS.nl +:+ JS.nl +:+ fontesLine [])
              [] None 0).
Proof.
  do 4 (split; [reflexivity|]).
  apply (C10_empty_retrieval_refuses tie_cfg empty_world tie_request "etica"
           "<RAG>Nenhum contexto encontrado.</RAG>" []); reflexivity.
Defined.

End Anchoring.

(** ** The registry *)

Section RegistryFacts.

Import Registry.

(** *** Keys *)

Lemma startsWith_inv (k p : string) :
  JS.startsWith k p = true -> exists s, k = p +:+ s.
Proof.
  revert k. induction p as [|a p IH]; intros k H.
  - exists k. reflexivity.
  - destruct k as [|b k]; [discriminate|]. cbn in H.
    destruct (Ascii.eqb a b) eqn:E; [|discriminate].
    apply Ascii.eqb_eq in E. subst b.
    destruct (IH k H) as [s ->]. exists s. reflexivity.
Qed.

Lemma dataKey_inj a b : dataKey a = dataKey b -> a = b.
Proof. intros H. injection H. auto. Qed.

Lemma dataKey_not_secretKey a b : dataKey a <> secretKey b.
Proof. discriminate. Qed.

Lemma dataKey_prefix a : JS.startsWith (dataKey a) AGENT_DATA_PREFIX = true.
Proof. reflexivity. Qed.

Lemma secretKey_no_data_prefix a : JS.startsWith (secretKey a) AGENT_DATA_PREFIX = false.
Proof. reflexivity. Qed.

Lemma data_prefix_inv k :
  JS.startsWith k AGENT_DATA_PREFIX = true -> exists a, k = dataKey a.
Proof. apply startsWith_inv. Qed.

Lemma agent_id_of_dataKey a : JS.replace AGENT_DATA_PREFIX EmptyString (dataKey a) = a.
Proof. reflexivity. Qed.

(** *** The Redis commands *)

Lemma elem_of_KEYS now (db : gmap string RedisEntry) prefix k :
  k ∈ KEYS now db prefix <->
  exists e, db !! k = Some e /\ JS.startsWith k prefix = true /\ live now e = true.
Proof.
  unfold KEYS. rewrite list_elem_of_fmap. split.
  - intros [[k' e] [-> H]]. apply elem_of_map_to_list, map_lookup_filter_Some in H.
    exists e. exact H.
  - intros (e & H). exists (k, e). split; [reflexivity|].
    apply elem_of_map_to_list, map_lookup_filter_Some. exact H.
Qed.

(** What the listing must hold for an agent: the payload under its
    data key, if that key is live. *)
Definition listed (now : Z) (db : gmap string RedisEntry) (id : string) : option PublicPayload :=
  match GET now db (dataKey id) with
  | Some (RJson p) => Some p
  | _ => None
  end.

(** The values under the data keys are payloads: the invariant of a
    database that only the registry writes. *)
Definition wf_db (db : gmap string RedisEntry) : Prop :=
  forall k e, db !! k = Some e -> JS.startsWith k AGENT_DATA_PREFIX = true ->
              exists p, value e = RJson p.

Lemma list_loop_lookup now (db : gmap string RedisEntry) (keys : list string) :
  forall (out : gmap string PublicPayload) (id : string),
    (forall k, k ∈ keys -> exists a p, k = dataKey a /\ GET now db k = Some (RJson p)) ->
    list_loop now db keys out !! id
    = if decide (dataKey id ∈ keys) then listed now db id else out !! id.
Proof.
  induction keys as [|k ks IH]; intros out id Hkeys.
  - cbn. destruct (decide _) as [H|H]; [inversion H | reflexivity].
  - destruct (Hkeys k) as (a & p & -> & Hget); [left|].
    cbn [list_loop]. rewrite Hget, agent_id_of_dataKey.
    rewrite IH by (intros k' Hk'; apply Hkeys; right; exact Hk').
    replace (mkPublic (base_url p) (tools p)) with p by (destruct p; reflexivity).
    destruct (decide (dataKey id ∈ ks)) as [Hin|Hnin].
    + rewrite decide_True by (right; exact Hin). reflexivity.
    + destruct (decide (a = id)) as [->|Hne].
      * rewrite decide_True by left. rewrite lookup_insert_eq. unfold listed. rewrite Hget.
        reflexivity.
      * rewrite decide_False.
        -- apply lookup_insert_ne. exact Hne.
        -- intros Hin. apply elem_of_cons in Hin as [Heq|Hin]; [|contradiction].
           apply dataKey_inj in Heq. congruence.
Qed.

Lemma own_lookup {V} (obj : gmap string V) (key : string) :
  Obj.own obj !! key = if String.eqb key "__proto__" then None else obj !! key.
Proof.
  unfold Obj.own. destruct (String.eqb_spec key "__proto__") as [->|Hne].
  - apply lookup_delete_eq.
  - apply lookup_delete_ne. congruence.
Qed.

Lemma remove_lookup {V} (obj : gmap string V) (key k : string) :
  k <> key -> Obj.remove key obj !! k = obj !! k.
Proof.
  intros Hne. unfold Obj.remove. destruct (String.eqb key "__proto__"); [reflexivity|].
  apply lookup_delete_ne. congruence.
Qed.

(** The listing of a Redis-backed registry, key by key. *)
Lemma list_out_redis now db mem id :
  wf_db db ->
  list_out now (mkState (Some db) mem) !! id
  = if String.eqb id "__proto__" then None else listed now db id.
Proof.
  intros Hwf. unfold list_out. cbn [redisClient]. rewrite own_lookup.
  destruct (String.eqb id "__proto__"); [reflexivity|].
  rewrite list_loop_lookup.
  - destruct (decide _) as [Hin|Hnin]; [reflexivity|].
    rewrite lookup_empty. unfold listed, GET.
    destruct (db !! dataKey id) as [e|] eqn:He; [|reflexivity].
    destruct (live now e) eqn:Hl; [|reflexivity].
    exfalso. apply Hnin, elem_of_KEYS. exists e. auto using dataKey_prefix.
  - intros k Hk. apply elem_of_KEYS in Hk as (e & He & Hp & Hl).
    destruct (data_prefix_inv k Hp) as [a ->]. destruct (Hwf _ _ He Hp) as [p Hv].
    exists a, p. split; [reflexivity|]. unfold GET. rewrite He, Hl, Hv. reflexivity.
Qed.

(** *** Registration *)

(** The fields of a registration as the handler reads them. *)
Definition id_of (d : RegisterRequest) : string := JS.trim (JS.or_empty (agent_id d)).
Definition url_of (d : RegisterRequest) : string := JS.trim (JS.or_empty (req_base_url d)).
Definition secret_of (d : RegisterRequest) : string := JS.trim (JS.or_empty (secret_token d)).

(** The registrations the handler accepts. *)
Definition accepted (d : RegisterRequest) (tools : list Tool) : Prop :=
  req_tools d = Some tools /\ JS.truthy (id_of d) = true /\
  JS.truthy (url_of d) = true /\ JS.truthy (secret_of d) = true.

(** The two keys of an agent after [SET], [SET], [EXPIRE], [EXPIRE]. *)
Definition stored (TTL now : Z) (db : gmap string RedisEntry) (id : string)
  (p : PublicPayload) (secret : string) : gmap string RedisEntry :=
  if TTL <=? 0 then delete (secretKey id) (delete (dataKey id) db)
  else <[secretKey id := mkEntry (RStr secret) (Some (now + TTL * 1000))]>
         (<[dataKey id := mkEntry (RJson p) (Some (now + TTL * 1000))]> db).

Lemma commands_stored TTL now (db : gmap string RedisEntry) id p secret :
  EXPIRE now
    (EXPIRE now (SET (SET db (dataKey id) (RJson p)) (secretKey id) (RStr secret))
       (dataKey id) TTL)
    (secretKey id) TTL
  = stored TTL now db id p secret.
Proof.
  pose proof (dataKey_not_secretKey id id) as Hne.
  unfold SET, stored. unfold EXPIRE at 2.
  rewrite lookup_insert_ne, lookup_insert_eq by congruence. cbn [live expire_at value].
  unfold EXPIRE. destruct (TTL <=? 0).
  - rewrite lookup_delete_ne, lookup_insert_eq by congruence. cbn [live expire_at].
    apply map_eq. intros k.
    destruct (decide (k = secretKey id)) as [->|]; [rewrite !lookup_delete_eq; reflexivity|].
    rewrite !(lookup_delete_ne _ (secretKey id)) by congruence.
    destruct (decide (k = dataKey id)) as [->|]; [rewrite !lookup_delete_eq; reflexivity|].
    rewrite !lookup_delete_ne, !lookup_insert_ne by congruence. reflexivity.
  - rewrite lookup_insert_ne, lookup_insert_eq by congruence. cbn [live expire_at value].
    apply map_eq. intros k.
    destruct (decide (k = secretKey id)) as [->|]; [rewrite !lookup_insert_eq; reflexivity|].
    rewrite !(lookup_insert_ne _ (secretKey id)) by congruence.
    destruct (decide (k = dataKey id)) as [->|]; [rewrite !lookup_insert_eq; reflexivity|].
    rewrite !lookup_insert_ne by congruence. reflexivity.
Qed.

(** The state after a registration, in closed form. *)
Definition registered (TTL now : Z) (st : State) (id url : string) (tools : list Tool)
  (secret : string) : State :=
  match redisClient st with
  | Some db => mkState (Some (stored TTL now db id (mkPublic url tools) secret)) (inMemoryAgents st)
  | None => mkState None (<[id := mkMem url tools secret (now + TTL * 1000)]> (inMemoryAgents st))
  end.

Lemma register_accepted TTL now st d tools :
  accepted d tools ->
  register TTL now st d
  = (mkResponse 200 (Message ("Agente " +:+ id_of d +:+ " registrado com sucesso.")),
     registered TTL now st (id_of d) (url_of d) tools (secret_of d)).
Proof.
  intros (Ht & Hi & Hu & Hs). unfold register, registered.
  fold (id_of d) (url_of d) (secret_of d). rewrite Ht, Hi, Hu, Hs. cbn [negb orb].
  destruct (redisClient st) as [db|]; [|reflexivity].
  rewrite commands_stored. reflexivity.
Qed.

Lemma register_rejected TTL now st d :
  (forall tools, ~ accepted d tools) -> snd (register TTL now st d) = st.
Proof.
  intros Hrej. unfold register. fold (id_of d) (url_of d) (secret_of d).
  destruct (req_tools d) as [tools|] eqn:Ht; [|reflexivity].
  destruct (JS.truthy (id_of d)) eqn:Hi; [|reflexivity].
  destruct (JS.truthy (url_of d)) eqn:Hu; [|reflexivity].
  destruct (JS.truthy (secret_of d)) eqn:Hs; [|reflexivity].
  exfalso. apply (Hrej tools). repeat split; assumption.
Qed.

Lemma accepted_dec d : (exists tools, accepted d tools) \/ (forall tools, ~ accepted d tools).
Proof.
  unfold accepted. destruct (req_tools d) as [tools|].
  - destruct (JS.truthy (id_of d)), (JS.truthy (url_of d)), (JS.truthy (secret_of d));
      try (right; intros t (_ & ? & ? & ?); discriminate).
    left. exists tools. auto.
  - right. intros t (? & _). discriminate.
Qed.


(** *** The states the registry reaches *)

Definition wf_state (st : State) : Prop :=
  match redisClient st with
  | Some db => wf_db db
  | None => True
  end.

(** The state at start-up: an empty database behind the client, or the
    fallback, and an empty in-process table. *)
Definition initial (fallback : bool) : State :=
  mkState (if fallback then None else Some ∅) ∅.

Definition reachable (TTL : Z) (st : State) : Prop :=
  exists fallback rs, st = run TTL (initial fallback) rs.

Lemma wf_stored TTL now db id p secret : wf_db db -> wf_db (stored TTL now db id p secret).
Proof.
  intros Hwf k e Hk Hp. unfold stored in Hk. destruct (TTL <=? 0).
  - apply lookup_delete_Some in Hk as [_ Hk]. apply lookup_delete_Some in Hk as [_ Hk].
    exact (Hwf k e Hk Hp).
  - apply lookup_insert_Some in Hk as [[<- _]|[_ Hk]].
    { rewrite secretKey_no_data_prefix in Hp. discriminate. }
    apply lookup_insert_Some in Hk as [[_ <-]|[_ Hk]]; [eauto|].
    exact (Hwf k e Hk Hp).
Qed.

Lemma wf_step TTL st r : wf_state st -> wf_state (step TTL st r).
Proof.
  intros Hwf. destruct r as [now [d|a|]]; unfold step; cbn [fst snd]; [| |exact Hwf].
  - destruct (accepted_dec d) as [[tools Hacc]|Hrej].
    + rewrite (register_accepted _ _ _ _ _ Hacc). cbn [snd]. unfold registered, wf_state in *.
      destruct (redisClient st) as [db|]; cbn [redisClient]; [|exact I].
      apply wf_stored, Hwf.
    + rewrite register_rejected by exact Hrej. exact Hwf.
  - unfold deregister, wf_state in *. destruct (negb _); [exact Hwf|].
    destruct (redisClient st) as [db|] eqn:Hdb.
    + destruct (EXISTS now db _); cbn [snd redisClient]; [|rewrite Hdb; exact Hwf].
      intros k e Hk Hp. unfold DEL in Hk.
      apply lookup_delete_Some in Hk as [_ Hk]. apply lookup_delete_Some in Hk as [_ Hk].
      exact (Hwf k e Hk Hp).
    + destruct (in_memory _ _); cbn [snd redisClient]; [exact I|].
      rewrite Hdb. exact I.
Qed.

Lemma wf_run TTL rs : forall st, wf_state st -> wf_state (run TTL st rs).
Proof.
  induction rs as [|r rs IH]; intros st Hwf; [exact Hwf|].
  apply IH, wf_step, Hwf.
Qed.

Lemma reachable_wf TTL st : reachable TTL st -> wf_state st.
Proof.
  intros (fallback & rs & ->). apply wf_run. destruct fallback; [exact I|].
  intros k e Hk. rewrite lookup_empty in Hk. discriminate.
Qed.

(** The listing of a well-formed state, entry by entry, in both modes. *)
Lemma list_out_lookup t st id :
  wf_state st ->
  list_out t st !! id =
  if String.eqb id "__proto__" then None
  else
    match redisClient st with
    | Some db => listed t db id
    | None => (fun v => mkPublic (m_base_url v) (m_tools v)) <$> inMemoryAgents st !! id
    end.
Proof.
  intros Hwf. destruct st as [[db|] mem]; cbn [redisClient inMemoryAgents].
  - apply list_out_redis, Hwf.
  - unfold list_out. cbn [redisClient inMemoryAgents]. rewrite own_lookup.
    destruct (String.eqb id "__proto__") eqn:E; [reflexivity|].
    rewrite lookup_fmap, own_lookup, E. reflexivity.
Qed.





(** *** C5: registration is idempotent and last-write-wins *)





(** A registry with one agent, registered twice. *)
Definition bio_v1 : RegisterRequest :=
  mkRegister (Some "bio") (Some "http://bio-1:8020")
    (Some [mkTool "bio-lookup" "Consulta de biologia"]) (Some "s3cret").

Definition bio_v2 : RegisterRequest :=
  mkRegister (Some " bio ") (Some "http://bio-2:8020")
    (Some [mkTool "bio-lookup" "Consulta de biologia"; mkTool "eco" "Ecologia"])
    (Some "s3cret-2").


(** *** C3: expiry of an agent that is not refreshed *)


(** A request that names the agent at all. *)
Definition touches (id : string) (r : Request) : Prop :=
  match r with
  | Register d => id_of d = id
  | Deregister a => JS.trim (JS.or_empty a) = id
  | ListAgents => False
  end.


Lemma stored_other TTL now (db : gmap string RedisEntry) a p secret id :
  a <> id -> stored TTL now db a p secret !! dataKey id = db !! dataKey id.
Proof.
  intros Hne. unfold stored.
  assert (dataKey id <> dataKey a) by (intros H; apply dataKey_inj in H; congruence).
  pose proof (dataKey_not_secretKey id a).
  destruct (TTL <=? 0).
  - rewrite !lookup_delete_ne by congruence. reflexivity.
  - rewrite !lookup_insert_ne by congruence. reflexivity.
Qed.








Lemma fallback_step_keeps TTL st r id rec :
  redisClient st = None -> inMemoryAgents st !! id = Some rec -> ~ touches id (snd r) ->
  redisClient (step TTL st r) = None /\ inMemoryAgents (step TTL st r) !! id = Some rec.
Proof.
  intros Hmode Hrec Hnot. destruct r as [now [d|a|]]; unfold step; cbn [fst snd] in *; [| |auto].
  - destruct (accepted_dec d) as [[tools Hacc]|Hrej].
    + rewrite (register_accepted _ _ _ _ _ Hacc). cbn [snd]. unfold registered. rewrite Hmode.
      cbn [redisClient inMemoryAgents]. rewrite lookup_insert_ne by exact Hnot. auto.
    + rewrite register_rejected by exact Hrej. auto.
  - unfold deregister. destruct (negb _); [auto|]. rewrite Hmode.
    destruct (in_memory _ _); cbn [snd redisClient inMemoryAgents]; [|auto].
    rewrite remove_lookup by congruence. auto.
Qed.

(** The branches of the fallback do not honour the deadline: the [ttl]
    line 46 stores is read by no line, and a table that held an agent
    would show it in every later listing, at any time, until a request
    names it. No run of the registry gets there. *)
Lemma fallback_unrefreshed_agent_stays TTL now st d tools rs t :
  redisClient st = None ->
  accepted d tools ->
  id_of d <> "__proto__" ->
  Forall (fun r => ~ touches (id_of d) (snd r)) rs ->
  list_out t (run TTL (snd (register TTL now st d)) rs) !! id_of d
  = Some (mkPublic (url_of d) tools).
Proof.
  intros Hmode Hacc Hproto Hrs.
  rewrite (register_accepted _ _ _ _ _ Hacc). cbn [snd]. unfold registered. rewrite Hmode.
  set (rec := mkMem (url_of d) tools (secret_of d) (now + TTL * 1000)).
  set (st0 := mkState None (<[id_of d := rec]> (inMemoryAgents st))).
  assert (H0 : redisClient st0 = None /\ inMemoryAgents st0 !! id_of d = Some rec).
  { split; [reflexivity|]. apply lookup_insert_eq. }
  clearbody st0. revert st0 H0.
  induction rs as [|r rs IH]; intros st0 [Hm Hr].
  - cbn [run fold_left]. rewrite list_out_lookup by (unfold wf_state; rewrite Hm; exact I).
    rewrite Hm, Hr. destruct (String.eqb_spec (id_of d) "__proto__"); [contradiction|].
    reflexivity.
  - apply Forall_cons in Hrs as [Hnot Hrs]. cbn [run fold_left]. apply (IH Hrs).
    apply fallback_step_keeps; assumption.
Qed.

(** *** C8: the listing does not depend on the secrets *)

(** A state with its secrets blanked: the [secret_token] of every
    in-process record and the value under every secret key. Two states
    that differ only in secret tokens are two states with the same
    blanked state. *)
Definition blank_record (r : MemRecord) : MemRecord :=
  mkMem (m_base_url r) (m_tools r) EmptyString (m_ttl r).

Definition blank_entry (k : string) (e : RedisEntry) : RedisEntry :=
  if JS.startsWith k AGENT_SECRET_PREFIX then mkEntry (RStr EmptyString) (expire_at e) else e.

Definition blank_db (db : gmap string RedisEntry) : gmap string RedisEntry :=
  map_imap (fun k e => Some (blank_entry k e)) db.

Definition blank_secrets (st : State) : State :=
  mkState (blank_db <$> redisClient st) (blank_record <$> inMemoryAgents st).

Lemma blank_entry_data k e :
  JS.startsWith k AGENT_DATA_PREFIX = true -> blank_entry k e = e.
Proof.
  intros Hp. destruct (data_prefix_inv k Hp) as [a ->]. reflexivity.
Qed.

Lemma KEYS_blank now db : KEYS now (blank_db db) AGENT_DATA_PREFIX = KEYS now db AGENT_DATA_PREFIX.
Proof.
  unfold KEYS. f_equal. f_equal.
  apply map_filter_strong_ext_1. intros k e. unfold blank_db. rewrite map_lookup_imap.
  cbn [fst snd]. split.
  - intros [[Hp Hl] Hk]. destruct (db !! k) as [e'|]; [|discriminate].
    cbn in Hk. rewrite blank_entry_data in Hk by exact Hp. auto.
  - intros [[Hp Hl] Hk]. rewrite Hk. cbn. rewrite blank_entry_data by exact Hp. auto.
Qed.

Lemma GET_blank now db k :
  JS.startsWith k AGENT_DATA_PREFIX = true -> GET now (blank_db db) k = GET now db k.
Proof.
  intros Hp. unfold GET, blank_db. rewrite map_lookup_imap.
  destruct (db !! k) as [e|]; [|reflexivity]. cbn. rewrite blank_entry_data by exact Hp.
  reflexivity.
Qed.

Lemma list_loop_ext now db1 db2 keys :
  forall out,
    (forall k, k ∈ keys -> GET now db1 k = GET now db2 k) ->
    list_loop now db1 keys out = list_loop now db2 keys out.
Proof.
  induction keys as [|k ks IH]; intros out Hget; [reflexivity|].
  cbn [list_loop]. rewrite (Hget k) by left.
  destruct (GET now db2 k) as [[p|s]|]; [| destruct (JS.truthy s); [reflexivity|] |];
    apply IH; intros k' Hk'; apply Hget; right; exact Hk'.
Qed.

Lemma list_out_blank now st : list_out now (blank_secrets st) = list_out now st.
Proof.
  unfold list_out, blank_secrets. destruct (redisClient st) as [db|]; cbn [redisClient fmap option_fmap option_map inMemoryAgents].
  - rewrite KEYS_blank. f_equal. apply list_loop_ext. intros k Hk.
    apply elem_of_KEYS in Hk as (e & _ & Hp & _). apply GET_blank, Hp.
  - f_equal. unfold Obj.own. rewrite <- fmap_delete, <- map_fmap_compose.
    apply map_fmap_ext. reflexivity.
Qed.

(** C8. The listing maps an agent to its [base_url] and [tools] and to
    nothing else (its type), and two states of the registry that differ
    only in secret tokens give the same response to [/list_agents], in
    both modes and at any time. *)
Theorem C8_listing_hides_secrets (now : Z) (st1 st2 : State) :
  blank_secrets st1 = blank_secrets st2 ->
  list_agents now st1 = list_agents now st2.
Proof.
  intros Hblank. unfold list_agents.
  rewrite <- (list_out_blank now st1), <- (list_out_blank now st2), Hblank. reflexivity.
Qed.

(** The same registration with another secret. *)
Definition bio_v1' : RegisterRequest :=
  mkRegister (Some "bio") (Some "http://bio-1:8020")
    (Some [mkTool "bio-lookup" "Consulta de biologia"]) (Some "another-s3cret").

Lemma C8_listing_hides_secrets_witness :
  blank_secrets (snd (register 60 0 (initial false) bio_v1))
  = blank_secrets (snd (register 60 0 (initial false) bio_v1')) /\
  blank_secrets (snd (register 60 0 (initial true) bio_v1))
  = blank_secrets (snd (register 60 0 (initial true) bio_v1')) /\
  list_agents 1000 (snd (register 60 0 (initial false) bio_v1))
  = list_agents 1000 (snd (register 60 0 (initial false) bio_v1')) /\
  list_agents 1000 (snd (register 60 0 (initial true) bio_v1))
  = list_agents 1000 (snd (register 60 0 (initial true) bio_v1')).
Proof.
  split; [vm_compute; reflexivity|]. split; [vm_compute; reflexivity|]. split.
  - apply (C8_listing_hides_secrets 1000). vm_compute. reflexivity.
  - apply (C8_listing_hides_secrets 1000). vm_compute. reflexivity.
Defined.

(** *** Trimming is idempotent *)

Lemma trimEnd_head c s :
  JS.is_white_space c = false -> exists t, JS.trimEnd (String c s) = String c t.
Proof.
  intros Hc. cbn [JS.trimEnd]. destruct (JS.trimEnd s); [rewrite Hc|]; eauto.
Qed.

Lemma trimEnd_cons c s :
  JS.trimEnd (String c s) =
  match JS.trimEnd s with
  | EmptyString => if JS.is_white_space c then EmptyString else String c EmptyString
  | t => String c t
  end.
Proof. reflexivity. Qed.

Lemma trimEnd_idem s : JS.trimEnd (JS.trimEnd s) = JS.trimEnd s.
Proof.
  induction s as [|c s IH]; [reflexivity|]. rewrite (trimEnd_cons c s).
  destruct (JS.trimEnd s) as [|c' t] eqn:E.
  - destruct (JS.is_white_space c) eqn:Hc; [reflexivity|]. cbn. rewrite Hc. reflexivity.
  - rewrite trimEnd_cons, IH. reflexivity.
Qed.

Lemma trimStart_head s :
  JS.trimStart s = EmptyString \/
  exists c t, JS.trimStart s = String c t /\ JS.is_white_space c = false.
Proof.
  induction s as [|c s IH]; [left; reflexivity|]. cbn [JS.trimStart].
  destruct (JS.is_white_space c) eqn:Hc; [exact IH|]. right. eauto.
Qed.

Lemma trim_idem s : JS.trim (JS.trim s) = JS.trim s.
Proof.
  unfold JS.trim. destruct (trimStart_head s) as [->|(c & t & -> & Hc)]; [reflexivity|].
  destruct (trimEnd_head c t Hc) as [u Hu]. rewrite Hu. cbn [JS.trimStart]. rewrite Hc.
  rewrite <- Hu. apply trimEnd_idem.
Qed.

(** *** The names of the agents the registry holds *)

(** The agents the registry holds have a non-empty, trimmed id and a
    non-empty base URL. *)
Definition named_state (st : State) : Prop :=
  match redisClient st with
  | Some db =>
      forall a e, db !! dataKey a = Some e ->
                  JS.truthy a = true /\ JS.trim a = a /\
                  forall p, value e = RJson p -> JS.truthy (base_url p) = true
  | None =>
      forall a r, inMemoryAgents st !! a = Some r ->
                  JS.truthy a = true /\ JS.trim a = a /\ JS.truthy (m_base_url r) = true
  end.

Lemma named_step TTL st r : named_state st -> named_state (step TTL st r).
Proof.
  intros Hnamed. destruct r as [now [d|a|]]; unfold step; cbn [fst snd]; [| |exact Hnamed].
  - destruct (accepted_dec d) as [[tools Hacc]|Hrej].
    2:{ rewrite register_rejected by exact Hrej. exact Hnamed. }
    rewrite (register_accepted _ _ _ _ _ Hacc). cbn [snd].
    destruct Hacc as (_ & Hid & Hurl & _).
    unfold registered, named_state in *.
    destruct (redisClient st) as [db|]; cbn [redisClient inMemoryAgents].
    + intros a e Ha. destruct (decide (id_of d = a)) as [<-|Hne].
      * unfold stored in Ha. destruct (TTL <=? 0).
        -- rewrite lookup_delete_ne in Ha by (apply not_eq_sym, dataKey_not_secretKey).
           rewrite lookup_delete_eq in Ha. discriminate.
        -- rewrite lookup_insert_ne in Ha by (apply not_eq_sym, dataKey_not_secretKey).
           rewrite lookup_insert_eq in Ha. injection Ha as <-.
           split; [exact Hid|]. split; [apply trim_idem|].
           intros p [= <-]. exact Hurl.
      * rewrite stored_other in Ha by exact Hne. exact (Hnamed a e Ha).
    + intros a r Ha. apply lookup_insert_Some in Ha as [[<- <-]|[_ Ha]].
      * split; [exact Hid|]. split; [apply trim_idem | exact Hurl].
      * exact (Hnamed a r Ha).
  - unfold deregister, named_state in *. destruct (negb _); [exact Hnamed|].
    destruct (redisClient st) as [db|] eqn:Hdb.
    + destruct (EXISTS now db _); cbn [snd redisClient]; [|rewrite Hdb; exact Hnamed].
      intros a' e Ha. unfold DEL in Ha.
      apply lookup_delete_Some in Ha as [_ Ha]. apply lookup_delete_Some in Ha as [_ Ha].
      exact (Hnamed a' e Ha).
    + destruct (in_memory _ _);
        cbn [snd redisClient inMemoryAgents]; [|rewrite Hdb; exact Hnamed].
      intros a' r Ha. unfold Obj.remove in Ha. destruct (String.eqb _ "__proto__").
      * exact (Hnamed a' r Ha).
      * apply lookup_delete_Some in Ha as [_ Ha]. exact (Hnamed a' r Ha).
Qed.

Lemma reachable_named TTL st : reachable TTL st -> named_state st.
Proof.
  intros (fallback & rs & ->). unfold run.
  assert (H0 : named_state (initial fallback)).
  { destruct fallback; cbn; intros a e Ha; rewrite lookup_empty in Ha; discriminate. }
  revert H0. generalize (initial fallback). induction rs as [|r rs IH]; intros st H0; [exact H0|].
  cbn [fold_left]. apply IH, named_step, H0.
Qed.

(** What the listing shows of an agent is what the registry holds. *)
Lemma listed_named TTL t st id p :
  reachable TTL st ->
  list_out t st !! id = Some p ->
  JS.truthy id = true /\ JS.trim id = id /\ JS.truthy (base_url p) = true.
Proof.
  intros Hreach Hlisted.
  pose proof (reachable_wf TTL st Hreach) as Hwf.
  pose proof (reachable_named TTL st Hreach) as Hnamed.
  rewrite (list_out_lookup t st id Hwf) in Hlisted. unfold named_state in Hnamed.
  destruct (String.eqb id "__proto__"); [discriminate|].
  destruct (redisClient st) as [db|].
  - unfold listed, GET in Hlisted.
    destruct (db !! dataKey id) as [e|] eqn:He; [|discriminate].
    destruct (live t e); [|discriminate].
    destruct (value e) as [q|] eqn:Hv; [|discriminate]. injection Hlisted as ->.
    destruct (Hnamed id e He) as (? & ? & Hp). auto.
  - destruct (inMemoryAgents st !! id) as [r|] eqn:Hr; [|discriminate].
    injection Hlisted as <-. apply (Hnamed id r Hr).
Qed.

End RegistryFacts.

(** ** The host agent *)

Section HostFacts.

Import Host.

(** *** C6: a refresh that cannot reach the registry *)

Lemma fetch_unreachable cfg world st message :
  get_list_agents world = Thrown message ->
  fetchToolsFromRegistry cfg world st
  = (st,
     [HttpGet (REGISTRY_BASE_URL cfg +:+ "/list_agents");
      ConsoleWarn ("HOST: falha ao consultar Registry, mantendo ultimo estado conhecido "
                   +:+ message)]).
Proof. intros H. unfold fetchToolsFromRegistry. rewrite H. reflexivity. Qed.

(** The snapshot after a request is the snapshot its refresh left. *)
Lemma post_query_state cfg world st req :
  JS.truthy (JS.or_empty (query req)) = true ->
  snd (fst (post_query cfg world st req)) = fst (fetchToolsFromRegistry cfg world st).
Proof.
  intros Hq. unfold post_query. rewrite Hq. cbn [negb].
  destruct (fetchToolsFromRegistry cfg world st) as [st' fetched]. cbn [fst].
  repeat match goal with
         | |- context [if ?b then _ else _] => destruct b
         | |- context [match ?o with Some _ => _ | None => _ end] => destruct o
         | |- context [let '(_, _) := ?p in _] => destruct p
         end; reflexivity.
Qed.

(** C6. A refresh during which the registry cannot be reached returns
    normally, leaves the discovered tools and the agent data as they
    were, and does nothing but the call and one warning line; so does
    the refresh a [/query] request starts with, whose handler goes on
    with the retained snapshot. *)
Theorem C6_refresh_keeps_snapshot
  (cfg : Config) (world : World) (st : State) (message : string) :
  get_list_agents world = Thrown message ->
  fetchToolsFromRegistry cfg world st
  = (st,
     [HttpGet (REGISTRY_BASE_URL cfg +:+ "/list_agents");
      ConsoleWarn ("HOST: falha ao consultar Registry, mantendo ultimo estado conhecido "
                   +:+ message)]) /\
  forall req, snd (fst (post_query cfg world st req)) = st.
Proof.
  intros H. split; [apply fetch_unreachable, H|]. intros req.
  destruct (JS.truthy (JS.or_empty (query req))) eqn:Hq.
  - rewrite post_query_state by exact Hq. rewrite (fetch_unreachable _ _ _ _ H). reflexivity.
  - unfold post_query. rewrite Hq. reflexivity.
Qed.

(** A host, two agents, and a registry that is down. *)
Definition guia : Tool := mkTool "Guia de IA" "Boas praticas de IA".
Definition bio_lookup : Tool := mkTool "bio-lookup" "Consulta de biologos".

Definition two_agents : list (string * PublicPayload) :=
  [("ai-guide-agent", mkPublic "http://ai:8010" [guia]);
   ("biologist-agent", mkPublic "http://bio:8020" [bio_lookup])].

Definition host_cfg : Config :=
  mkConfig {[ "ai-guide-agent" := "secret"; "biologist-agent" := "s3cret" ]}
    "host-agent" "http://localhost:8080".

Definition no_answer : ForwardOutcome := Failed "socket hang up".

Definition registry_down : World :=
  mkWorld (Thrown "connect ECONNREFUSED") (fun _ => true) (fun _ => Resolved tt)
    (fun _ _ _ => no_answer) "0000" "2025-01-01T00:00:00.000Z".

Definition cached : State :=
  let '(allTools, agentData) := discover two_agents [] [] in mkState allTools agentData.

Lemma C6_refresh_keeps_snapshot_witness :
  get_list_agents registry_down = Thrown "connect ECONNREFUSED" /\
  fst (fetchToolsFromRegistry host_cfg registry_down cached) = cached.
Proof.
  split; [reflexivity|].
  rewrite (proj1 (C6_refresh_keeps_snapshot host_cfg registry_down cached
                    "connect ECONNREFUSED" eq_refl)).
  reflexivity.
Defined.

(** *** What a refresh calls *)

Definition is_console (e : Effect) : Prop :=
  match e with
  | ConsoleLog _ | ConsoleWarn _ => True
  | _ => False
  end.

Lemma fetch_effects cfg world st :
  exists line,
    snd (fetchToolsFromRegistry cfg world st)
    = [HttpGet (REGISTRY_BASE_URL cfg +:+ "/list_agents"); line] /\ is_console line.
Proof.
  unfold fetchToolsFromRegistry. destruct (get_list_agents world) as [registered|message].
  - destruct (discover registered [] []) as [allTools agentData]. eexists. split; [reflexivity|].
    exact I.
  - eexists. split; [reflexivity|]. exact I.
Qed.

(** The agents a list of effects asks the registry to deregister, and
    the messages it forwards. *)
Definition deregister_calls (effects : list Effect) : list string :=
  flat_map (fun e => match e with HttpPost _ (DeregisterBody a) _ => [a] | _ => [] end) effects.

Definition forwarded (effects : list Effect) : list A2AMessage :=
  flat_map (fun e => match e with HttpPost _ (A2ABody m) _ => [m] | _ => [] end) effects.

Definition probed (effects : list Effect) : list string :=
  flat_map (fun e => match e with HttpGet url => [url] | _ => [] end) effects.

Lemma fetch_calls cfg world st :
  deregister_calls (snd (fetchToolsFromRegistry cfg world st)) = [] /\
  forwarded (snd (fetchToolsFromRegistry cfg world st)) = [] /\
  probed (snd (fetchToolsFromRegistry cfg world st))
  = [REGISTRY_BASE_URL cfg +:+ "/list_agents"].
Proof.
  destruct (fetch_effects cfg world st) as (line & -> & Hline).
  destruct line; try contradiction; repeat split; reflexivity.
Qed.

(** *** What a refresh discovers *)

Lemma assoc_set_fresh {V} (key : string) (v : V) (obj : list (string * V)) :
  key ∉ obj.*1 -> assoc_set key v obj = (obj ++ [(key, v)])%list.
Proof.
  induction obj as [|[k w] obj IH]; intros Hfresh; [reflexivity|].
  cbn [assoc_set]. cbn in Hfresh. apply not_elem_of_cons in Hfresh as [Hne Hfresh].
  destruct (String.eqb k key) eqn:E.
  - apply String.eqb_eq in E. congruence.
  - rewrite IH by exact Hfresh. reflexivity.
Qed.

Lemma discover_spec (entries : list (string * PublicPayload)) :
  forall allTools agentData,
    NoDup (agentData.*1 ++ entries.*1) ->
    discover entries allTools agentData
    = ((allTools ++ flat_map (fun e => tag_tools (fst e) (snd e)) entries)%list,
       (agentData ++ entries)%list).
Proof.
  induction entries as [|[agentId info] entries IH]; intros allTools agentData Hnd.
  - cbn. rewrite !app_nil_r. reflexivity.
  - cbn [discover]. cbn [fmap list_fmap fst] in Hnd.
    assert (Hfresh : agentId ∉ agentData.*1).
    { apply NoDup_app in Hnd as (_ & Hdisj & _). intros Hin. apply (Hdisj _ Hin). left. }
    rewrite assoc_set_fresh by exact Hfresh. rewrite IH.
    + cbn [flat_map fst snd]. rewrite <- !app_assoc. reflexivity.
    + rewrite fmap_app. cbn [fmap list_fmap fst]. rewrite <- app_assoc. exact Hnd.
Qed.

(** After a refresh that reached the registry, the cache holds the
    agents as listed and every tool of every agent. *)
Lemma fetch_resolved cfg world st registered :
  get_list_agents world = Resolved registered ->
  NoDup (registered.*1) ->
  fst (fetchToolsFromRegistry cfg world st)
  = mkState (flat_map (fun e => tag_tools (fst e) (snd e)) registered) registered.
Proof.
  intros Hget Hnd. unfold fetchToolsFromRegistry. rewrite Hget.
  rewrite discover_spec by exact Hnd. reflexivity.
Qed.

(** Every tool of the cache is in the listing, under its owner. *)
Lemma listing_complete registered (t : DiscoveredTool) :
  t ∈ flat_map (fun e => tag_tools (fst e) (snd e)) registered ->
  exists a, a ∈ map agent_view registered /\
            view_agent_id a = owner_agent_id t /\
            mkTool (name t) (description t) ∈ view_tools a.
Proof.
  intros Hin. apply list_elem_of_In, in_flat_map in Hin as ([agentId info] & He & Ht).
  cbn [fst snd] in Ht. unfold tag_tools in Ht. apply in_map_iff in Ht as (tool & <- & Htool).
  exists (agent_view (agentId, info)). split; [|split].
  - apply list_elem_of_In, in_map, He.
  - reflexivity.
  - cbn. apply list_elem_of_In, in_map_iff. exists tool. auto.
Qed.

(** *** C2: the capabilities query *)

Lemma isCapabilitiesQuery_truthy text : isCapabilitiesQuery text = true -> JS.truthy text = true.
Proof. unfold isCapabilitiesQuery. destruct (JS.truthy text); [reflexivity | discriminate]. Qed.

Definition registry_empty : World :=
  mkWorld (Resolved []) (fun _ => true) (fun _ => Resolved tt)
    (fun _ _ _ => no_answer) "0000" "2025-01-01T00:00:00.000Z".

(** C2, as stated, fails on an empty snapshot: the capabilities query
    is answered 503, not with a listing. *)
Lemma C2_empty_snapshot_is_refused :
  isCapabilitiesQuery "o que voce faz" = true /\
  post_query host_cfg registry_empty (mkState [] []) (mkQuery (Some "o que voce faz") None)
  = (mkResponse 503 (Error "Nenhum agente especialista disponivel no momento."),
     mkState [] [],
     [HttpGet "http://localhost:8080/list_agents";
      ConsoleLog "HOST: descobriu 0 ferramentas de 0 agentes"]).
Proof. split; vm_compute; reflexivity. Qed.

(** C2, amended. A query that matches the capabilities keywords is
    answered, after the refresh, with status 200 and the listing of
    every agent of the snapshot with all its tools, provided the
    snapshot holds at least one tool; when it holds none the answer is
    503 and no listing. When the refresh reached the registry, every
    discovered tool is in the listing under its owner. *)
Theorem C2_capabilities_listing
  (cfg : Config) (world : World) (st : State) (req : QueryRequest) (text : string) :
  query req = Some text ->
  isCapabilitiesQuery text = true ->
  let st' := fst (fetchToolsFromRegistry cfg world st) in
  let fetched := snd (fetchToolsFromRegistry cfg world st) in
  (discoveredTools st' <> [] ->
   post_query cfg world st req
   = (mkResponse 200
        (Capabilities (fst (formatCapabilitiesResponse st'))
           (map agent_view (discoveredAgentsData st'))),
      st', fetched)) /\
  (discoveredTools st' = [] ->
   post_query cfg world st req
   = (mkResponse 503 (Error "Nenhum agente especialista disponivel no momento."),
      st', fetched)) /\
  (forall registered,
     get_list_agents world = Resolved registered -> NoDup (registered.*1) ->
     forall t, t ∈ discoveredTools st' ->
               exists a, a ∈ map agent_view (discoveredAgentsData st') /\
                         view_agent_id a = owner_agent_id t /\
                         mkTool (name t) (description t) ∈ view_tools a).
Proof.
  intros Hq Hcap st' fetched.
  assert (Hfull : forall registered,
             get_list_agents world = Resolved registered -> NoDup (registered.*1) ->
             forall t, t ∈ discoveredTools st' ->
                       exists a, a ∈ map agent_view (discoveredAgentsData st') /\
                                 view_agent_id a = owner_agent_id t /\
                                 mkTool (name t) (description t) ∈ view_tools a).
  { intros registered Hget Hnd t. subst st'.
    rewrite (fetch_resolved cfg world st registered Hget Hnd).
    cbn [discoveredTools discoveredAgentsData]. apply listing_complete. }
  cut ((discoveredTools st' <> [] ->
        post_query cfg world st req
        = (mkResponse 200
             (Capabilities (fst (formatCapabilitiesResponse st'))
                (map agent_view (discoveredAgentsData st'))),
           st', fetched)) /\
       (discoveredTools st' = [] ->
        post_query cfg world st req
        = (mkResponse 503 (Error "Nenhum agente especialista disponivel no momento."),
           st', fetched))); [tauto|].
  clear Hfull. subst st' fetched. unfold post_query. rewrite Hq.
  change (JS.or_empty (Some text)) with text.
  rewrite (isCapabilitiesQuery_truthy _ Hcap). cbn [negb].
  destruct (fetchToolsFromRegistry cfg world st) as [st' fetched]. cbn [fst snd].
  split; intros Htools.
  - destruct (discoveredTools st') as [|t ts] eqn:Ht; [congruence|]. cbn [length Nat.eqb].
    rewrite Hcap. reflexivity.
  - rewrite Htools. reflexivity.
Qed.

Definition registry_up : World :=
  mkWorld (Resolved two_agents) (fun _ => true) (fun _ => Resolved tt)
    (fun _ _ _ => no_answer) "0000" "2025-01-01T00:00:00.000Z".

Lemma C2_capabilities_listing_witness :
  query (mkQuery (Some "O que voce faz?") None) = Some "O que voce faz?" /\
  isCapabilitiesQuery "O que voce faz?" = true /\
  discoveredTools (fst (fetchToolsFromRegistry host_cfg registry_up (mkState [] []))) <> [] /\
  status (fst (fst (post_query host_cfg registry_up (mkState [] [])
                      (mkQuery (Some "O que voce faz?") None)))) = 200.
Proof.
  split; [reflexivity|]. split; [vm_compute; reflexivity|]. split; [vm_compute; discriminate|].
  rewrite (proj1 (C2_capabilities_listing host_cfg registry_up (mkState [] [])
                    (mkQuery (Some "O que voce faz?") None) "O que voce faz?" eq_refl
                    ltac:(vm_compute; reflexivity))).
  - reflexivity.
  - vm_compute. discriminate.
Defined.

(** *** C7: the router *)

(** The lower-cased query contains a keyword of the set. *)
Definition matches (keywords : list string) (query : string) : bool :=
  JS.some (fun k => JS.includes (JS.toLowerCase query) k) keywords.

(** [x] is the first element of [l] that passes [p]. *)
Definition first_such {A} (p : A -> bool) (l : list A) (x : A) : Prop :=
  exists pre post, l = (pre ++ x :: post)%list /\ p x = true /\ Forall (fun y => p y = false) pre.

Lemma find_first_such {A} (p : A -> bool) (l : list A) (x : A) :
  JS.find p l = Some x <-> first_such p l x.
Proof.
  unfold JS.find, first_such. induction l as [|y l IH]; cbn [List.find].
  - split; [discriminate|]. intros (pre & post & H & _). destruct pre; discriminate.
  - destruct (p y) eqn:Hy.
    + split.
      * intros [= ->]. exists [], l. auto.
      * intros (pre & post & H & Hx & Hpre). destruct pre as [|z pre].
        -- injection H as -> _. reflexivity.
        -- injection H as -> _. apply Forall_cons in Hpre as [Hz _]. congruence.
    + rewrite IH. split.
      * intros (pre & post & -> & Hx & Hpre). exists (y :: pre), post. auto.
      * intros (pre & post & H & Hx & Hpre). destruct pre as [|z pre].
        -- injection H as -> _. congruence.
        -- injection H as -> ->. apply Forall_cons in Hpre as [_ Hpre]. eauto.
Qed.

Lemma find_none_Forall {A} (p : A -> bool) (l : list A) :
  JS.find p l = None <-> Forall (fun y => p y = false) l.
Proof.
  unfold JS.find. induction l as [|y l IH]; cbn [List.find].
  - split; auto.
  - destruct (p y) eqn:Hy.
    + split; [discriminate|]. intros H. apply Forall_cons in H as [H _]. congruence.
    + rewrite IH. split; [auto|]. intros H. apply Forall_cons in H as [_ H]. exact H.
Qed.

(** The router as the specification words it: the first keyword set
    that matches decides which test the capabilities are scanned with,
    and the result is absent when no capability passes that test. *)
Definition route_by_first_matching_set (st : State) (query : string) : option Decision :=
  if negb (JS.truthy query) || (length (discoveredTools st) =? 0)%nat then None
  else if matches aiKw query then decide_for <$> JS.find is_ai_tool (discoveredTools st)
  else if matches bioKw query then decide_for <$> JS.find is_bio_tool (discoveredTools st)
  else None.

(** C7, as stated, fails: ["biologia marinha"] matches the AI keywords
    (["ia"] ends ["biologia"]) before the biology keywords; no
    capability of the snapshot passes the AI test, yet the router
    answers with the biology capability instead of absent. *)
Lemma C7_falls_through_to_the_second_set :
  matches aiKw "biologia marinha" = true /\
  JS.find is_ai_tool [mkDiscovered "bio-lookup" "Consulta de biologos" "biologist-agent"
                        "http://bio:8020/execute"] = None /\
  route_by_first_matching_set
    (mkState [mkDiscovered "bio-lookup" "Consulta de biologos" "biologist-agent"
                "http://bio:8020/execute"] [])
    "biologia marinha" = None /\
  heuristicRoute
    (mkState [mkDiscovered "bio-lookup" "Consulta de biologos" "biologist-agent"
                "http://bio:8020/execute"] [])
    "biologia marinha"
  = Some (mkDecision "bio-lookup" "biologist-agent" "http://bio:8020/execute").
Proof. repeat split; vm_compute; reflexivity. Qed.

Lemma heuristicRoute_Some st query d :
  heuristicRoute st query = Some d <->
  query <> EmptyString /\
  exists t, d = decide_for t /\
    ((matches aiKw query = true /\ first_such is_ai_tool (discoveredTools st) t) \/
     ((matches aiKw query = false \/ Forall (fun y => is_ai_tool y = false) (discoveredTools st)) /\
      matches bioKw query = true /\ first_such is_bio_tool (discoveredTools st) t)).
Proof.
  unfold heuristicRoute. fold (matches aiKw query) (matches bioKw query).
  destruct (JS.truthy query) eqn:Htruthy; cbn [negb orb].
  2:{ destruct query; [|discriminate]. split; [discriminate|]. intros [H _]. congruence. }
  assert (Hne : query <> EmptyString) by (intros ->; discriminate).
  destruct (length (discoveredTools st) =? 0)%nat eqn:Hlen.
  { destruct (discoveredTools st); [|discriminate]. split; [discriminate|].
    intros (_ & t & _ & [[_ H]|(_ & _ & H)]);
      destruct H as (pre & post & H & _); destruct pre; discriminate. }
  clear Hlen Htruthy.
  set (tools := discoveredTools st).
  split.
  - intros H. split; [exact Hne|].
    destruct (matches aiKw query) eqn:Hai.
    + destruct (JS.find is_ai_tool tools) as [t|] eqn:Hf.
      * injection H as <-. exists t. split; [reflexivity|]. left.
        split; [reflexivity|]. apply find_first_such, Hf.
      * destruct (matches bioKw query) eqn:Hb; [|discriminate].
        destruct (JS.find is_bio_tool tools) as [t'|] eqn:Hf'; [|discriminate].
        injection H as <-. exists t'. split; [reflexivity|]. right.
        split; [right; apply find_none_Forall, Hf|]. split; [reflexivity|].
        apply find_first_such, Hf'.
    + destruct (matches bioKw query) eqn:Hb; [|discriminate].
      destruct (JS.find is_bio_tool tools) as [t'|] eqn:Hf'; [|discriminate].
      injection H as <-. exists t'. split; [reflexivity|]. right.
      split; [left; reflexivity|]. split; [reflexivity|]. apply find_first_such, Hf'.
  - intros (_ & t & -> & [[Hai Hf]|(Hno & Hb & Hf)]).
    + rewrite Hai. apply find_first_such in Hf. rewrite Hf. reflexivity.
    + apply find_first_such in Hf. rewrite Hb, Hf.
      destruct Hno as [Hai|Hall].
      * rewrite Hai. reflexivity.
      * apply find_none_Forall in Hall. rewrite Hall.
        destruct (matches aiKw query); reflexivity.
Qed.

(** The handler up to the routing decision. *)
Lemma post_query_routing cfg world st req text :
  query req = Some text ->
  JS.truthy text = true ->
  discoveredTools (fst (fetchToolsFromRegistry cfg world st)) <> [] ->
  isCapabilitiesQuery text = false ->
  let st' := fst (fetchToolsFromRegistry cfg world st) in
  let fetched := snd (fetchToolsFromRegistry cfg world st) in
  post_query cfg world st req =
  match heuristicRoute st' text with
  | None =>
      (mkResponse 200
         (Capabilities (explicacao +:+ fst (formatCapabilitiesResponse st'))
            (snd (formatCapabilitiesResponse st'))),
       st', fetched)
  | Some decision =>
      match read_secret cfg (decision_owner decision) with
      | Some secretToken =>
          match read_base_url st' (decision_owner decision) with
          | Some agentBaseUrl =>
              (fst (dispatch cfg world text (uuid req) decision secretToken agentBaseUrl),
               st',
               (fetched
                ++ snd (dispatch cfg world text (uuid req) decision secretToken agentBaseUrl))%list)
          | None =>
              (mkResponse 500
                 (Error ("Dados do agente '" +:+ decision_owner decision
                         +:+ "' nao encontrados.")),
               st', fetched)
          end
      | None =>
          (mkResponse 500
             (Error ("Erro de seguranca interno: token para o agente "
                     +:+ decision_owner decision +:+ " nao encontrado.")),
           st', fetched)
      end
  end.
Proof.
  intros Hq Htruthy Htools Hcap. cbn zeta. unfold post_query. rewrite Hq.
  change (JS.or_empty (Some text)) with text. rewrite Htruthy. cbn [negb].
  destruct (fetchToolsFromRegistry cfg world st) as [st' fetched]. cbn [fst snd] in *.
  destruct (discoveredTools st') as [|t ts] eqn:Ht; [congruence|]. cbn [length Nat.eqb].
  rewrite Hcap. cbn [delegateToLLM].
  destruct (heuristicRoute st' text) as [decision|]; [|reflexivity].
  destruct (read_secret cfg (decision_owner decision)) as [tok|]; [|reflexivity].
  destruct (read_base_url st' (decision_owner decision)) as [url|]; [|reflexivity].
  destruct (dispatch cfg world text (uuid req) decision tok url). reflexivity.
Qed.

(** C7, amended. The router is a function of the query and of the
    discovered capabilities alone. It answers with a capability exactly
    when the query is not empty and either the lower-cased query
    contains an AI keyword and the capability is the first of the
    snapshot whose name contains "guia" or whose description contains
    "ia", or no such capability was to be had (no AI keyword, or no
    capability passing the AI test), the query contains a biology
    keyword and the capability is the first whose name or description
    contains "biolog"; otherwise it is absent. On an absent decision
    the handler answers 200 with the capabilities listing. *)
Theorem C7_router_first_match
  (cfg : Config) (world : World) (st : State) (text : string) :
  (forall d,
     heuristicRoute st text = Some d <->
     text <> EmptyString /\
     exists t, d = decide_for t /\
       ((matches aiKw text = true /\ first_such is_ai_tool (discoveredTools st) t) \/
        ((matches aiKw text = false \/
          Forall (fun y => is_ai_tool y = false) (discoveredTools st)) /\
         matches bioKw text = true /\ first_such is_bio_tool (discoveredTools st) t))) /\
  (forall st2, discoveredTools st2 = discoveredTools st ->
               heuristicRoute st2 text = heuristicRoute st text) /\
  (forall st0 req,
     query req = Some text -> JS.truthy text = true ->
     fst (fetchToolsFromRegistry cfg world st0) = st ->
     discoveredTools st <> [] ->
     isCapabilitiesQuery text = false ->
     heuristicRoute st text = None ->
     post_query cfg world st0 req
     = (mkResponse 200
          (Capabilities (explicacao +:+ fst (formatCapabilitiesResponse st))
             (map agent_view (discoveredAgentsData st))),
        st, snd (fetchToolsFromRegistry cfg world st0))).
Proof.
  split; [intros d; apply heuristicRoute_Some|]. split.
  - intros st2 H. unfold heuristicRoute. rewrite H. reflexivity.
  - intros st0 req Hq Htruthy Hst Htools Hcap Hroute. subst st.
    rewrite (post_query_routing cfg world st0 req text Hq Htruthy Htools Hcap).
    cbn zeta. rewrite Hroute. reflexivity.
Qed.

Lemma C7_router_first_match_witness :
  query (mkQuery (Some "qual a capital da franca") None) = Some "qual a capital da franca" /\
  heuristicRoute cached "qual a capital da franca" = None /\
  status (fst (fst (post_query host_cfg registry_up (mkState [] [])
                      (mkQuery (Some "qual a capital da franca") None)))) = 200.
Proof.
  split; [reflexivity|]. split; [vm_compute; reflexivity|].
  rewrite (proj2 (proj2 (C7_router_first_match host_cfg registry_up cached
                           "qual a capital da franca")) (mkState [] [])
             (mkQuery (Some "qual a capital da franca") None));
    try (vm_compute; reflexivity).
  vm_compute. discriminate.
Defined.

(** *** C9: no credential for the chosen agent *)







(** *** The host behind the registry *)




Lemma discover_tools (entries : list (string * PublicPayload)) :
  forall allTools agentData,
    fst (discover entries allTools agentData)
    = (allTools ++ flat_map (fun e => tag_tools (fst e) (snd e)) entries)%list.
Proof.
  induction entries as [|[agentId info] entries IH]; intros allTools agentData.
  - cbn. rewrite app_nil_r. reflexivity.
  - cbn [discover]. rewrite IH. cbn [flat_map fst snd]. rewrite <- app_assoc. reflexivity.
Qed.






(** *** C4: the health probe fails *)



Lemma requestDeregistration_shape cfg world agentId :
  exists line,
    is_console line /\
    requestDeregistration cfg world agentId
    = [HttpPost (REGISTRY_BASE_URL cfg +:+ "/deregister") (DeregisterBody agentId) None; line].
Proof.
  unfold requestDeregistration. destruct (post_deregister world agentId);
    eexists; (split; [|reflexivity]); exact I.
Qed.

Lemma calls_app (l1 l2 : list Effect) :
  deregister_calls (l1 ++ l2) = (deregister_calls l1 ++ deregister_calls l2)%list /\
  forwarded (l1 ++ l2) = (forwarded l1 ++ forwarded l2)%list.
Proof. unfold deregister_calls, forwarded. rewrite !flat_map_app. auto. Qed.





End HostFacts.

(* ================================================================== *)
(** * Part III: further properties of the services *)
(* ================================================================== *)

(** ** The registry: validation, deregistration, independence *)

Section RegistryMore.

Import Registry.

(** A string of white space only. *)
Fixpoint all_white (s : string) : bool :=
  match s with
  | EmptyString => true
  | String c s' => JS.is_white_space c && all_white s'
  end.

Lemma trim_all_white s : all_white s = true -> JS.trim s = EmptyString.
Proof.
  unfold JS.trim. induction s as [|c s IH]; [reflexivity|].
  cbn. intros H. apply andb_true_iff in H as [Hc Hs]. rewrite Hc. apply IH, Hs.
Qed.

Lemma register_refused TTL now st d :
  (forall tools, ~ accepted d tools) ->
  register TTL now st d = (mkResponse 400 (Error "Dados de registro incompletos."), st).
Proof.
  intros Hrej. unfold register. fold (id_of d) (url_of d) (secret_of d).
  destruct (req_tools d) as [tools|] eqn:Ht; [|reflexivity].
  destruct (JS.truthy (id_of d)) eqn:Hi; [|reflexivity].
  destruct (JS.truthy (url_of d)) eqn:Hu; [|reflexivity].
  destruct (JS.truthy (secret_of d)) eqn:Hs; [|reflexivity].
  exfalso. apply (Hrej tools). repeat split; assumption.
Qed.

(** X1. [/register] acknowledges a registration exactly when [tools] is
    an array and [agent_id], [base_url] and [secret_token] are not
    empty once trimmed; any other registration is answered 400 and
    leaves the state of the registry as it was, in both modes. In
    particular a field made of white space only is refused like a
    missing one. *)
Theorem register_validates (TTL now : Z) (st : State) (d : RegisterRequest) :
  (status (fst (register TTL now st d)) = 200 <-> exists tools, accepted d tools) /\
  (status (fst (register TTL now st d)) <> 200 ->
   register TTL now st d = (mkResponse 400 (Error "Dados de registro incompletos."), st)) /\
  (forall ws,
     all_white ws = true ->
     agent_id d = Some ws \/ req_base_url d = Some ws \/ secret_token d = Some ws ->
     register TTL now st d = (mkResponse 400 (Error "Dados de registro incompletos."), st)).
Proof.
  destruct (accepted_dec d) as [[tools Hacc]|Hrej].
  - rewrite (register_accepted _ _ _ _ _ Hacc). cbn [fst status].
    split; [split; eauto|]. split; [congruence|].
    intros ws Hws Hfield. exfalso. destruct Hacc as (_ & Hi & Hu & Hs).
    unfold id_of, url_of, secret_of in *.
    destruct Hfield as [H|[H|H]]; rewrite H in *;
      change (JS.or_empty (Some ws)) with ws in *;
      rewrite (trim_all_white ws Hws) in *; discriminate.
  - rewrite (register_refused _ _ _ _ Hrej). cbn [fst status].
    split; [split; [discriminate|]|].
    + intros [tools Hacc]. destruct (Hrej tools Hacc).
    + split; reflexivity.
Qed.

Lemma in_memory_false (mem : gmap string MemRecord) (id : string) :
  in_memory mem id = false -> Obj.own mem !! id = None.
Proof. unfold in_memory. destruct (Obj.own mem !! id); [discriminate | reflexivity]. Qed.

Lemma in_memory_own (mem : gmap string MemRecord) (id : string) (r : MemRecord) :
  id <> "__proto__" -> mem !! id = Some r -> in_memory mem id = true.
Proof.
  intros Hne Hr. unfold in_memory. rewrite own_lookup.
  destruct (String.eqb_spec id "__proto__"); [contradiction|]. rewrite Hr. reflexivity.
Qed.

Lemma wf_deregister now st a : wf_state st -> wf_state (snd (deregister now st a)).
Proof. intros Hwf. exact (wf_step 0 st (now, Deregister a) Hwf). Qed.

Lemma wf_register TTL now st d : wf_state st -> wf_state (snd (register TTL now st d)).
Proof. intros Hwf. exact (wf_step TTL st (now, Register d) Hwf). Qed.

(** X2. [/deregister] answers 200 to every agent of the listing of that
    moment, and otherwise 404, which changes nothing. After a 200 the
    agent is in no later listing and neither its data nor its secret,
    nor a record of its own in the fallback table, is left. The two
    do not coincide: a name that is found although the listing does
    not hold it is [__proto__] with a live key in Redis, which the
    listing never shows, or, in the fallback, a name that the read
    finds along the prototypes of the table, where the 200 removes
    nothing. *)
Theorem deregister_finds_what_is_listed
  (TTL now : Z) (st : State) (a : option string) :
  reachable TTL st ->
  JS.truthy (JS.trim (JS.or_empty a)) = true ->
  let id := JS.trim (JS.or_empty a) in
  let after := snd (deregister now st a) in
  let found := status (fst (deregister now st a)) = 200 in
  (is_Some (list_out now st !! id) -> found) /\
  (found ->
   (forall t, list_out t after !! id = None) /\
   match redisClient after with
   | Some db => db !! dataKey id = None /\ db !! secretKey id = None
   | None => Obj.own (inMemoryAgents after) !! id = None
   end) /\
  (~ found ->
   status (fst (deregister now st a)) = 404 /\ after = st /\ list_out now st !! id = None) /\
  (found -> list_out now st !! id = None ->
   match redisClient st with
   | Some db => id = "__proto__"
   | None => Obj.own (inMemoryAgents st) !! id = None /\ after = st
   end).
Proof.
  intros Hreach Hid id after found. apply reachable_wf in Hreach as Hwf.
  pose proof (wf_deregister now st a Hwf) as Hwf'. fold after in Hwf'.
  pose proof (fun t => list_out_lookup t after id Hwf') as Hlist.
  rewrite (list_out_lookup now st id Hwf).
  subst found after. revert Hlist. unfold deregister.
  change (JS.trim (JS.or_empty a)) with id. change (JS.truthy id = true) in Hid.
  rewrite Hid. cbn [negb].
  destruct st as [[db|] mem]; cbn [redisClient inMemoryAgents] in *.
  - unfold listed, GET, EXISTS.
    destruct (db !! dataKey id) as [e|] eqn:He.
    + destruct (live now e) eqn:Hl.
      * cbn [fst snd status redisClient]. intros Hlist.
        split; [reflexivity|]. split; [|split].
        -- intros _. unfold DEL. split; [|split].
           ++ intros t. rewrite Hlist. destruct (String.eqb id "__proto__"); [reflexivity|].
              unfold listed, GET, DEL.
              rewrite lookup_delete_ne by (apply not_eq_sym, dataKey_not_secretKey).
              rewrite lookup_delete_eq. reflexivity.
           ++ rewrite lookup_delete_ne by (apply not_eq_sym, dataKey_not_secretKey).
              apply lookup_delete_eq.
           ++ apply lookup_delete_eq.
        -- intros H. destruct H. reflexivity.
        -- intros _. destruct (String.eqb_spec id "__proto__") as [E|E]; [intros _; exact E|].
           destruct (Hwf _ _ He (dataKey_prefix id)) as [p Hp]. rewrite Hp. discriminate.
      * cbn [fst snd status]. intros _.
        split; [destruct (String.eqb id "__proto__"); intros [? ?]; discriminate|].
        split; [discriminate|]. split; [|discriminate].
        intros _. split; [reflexivity|]. split; [reflexivity|].
        destruct (String.eqb id "__proto__"); reflexivity.
    + cbn [fst snd status]. intros _.
      split; [destruct (String.eqb id "__proto__"); intros [? ?]; discriminate|].
      split; [discriminate|]. split; [|discriminate].
      intros _. split; [reflexivity|]. split; [reflexivity|].
      destruct (String.eqb id "__proto__"); reflexivity.
  - destruct (in_memory mem id) eqn:Hfound;
      cbn [fst snd status redisClient inMemoryAgents]; intros Hlist.
    + assert (Hrm : id <> "__proto__" -> Obj.remove id mem !! id = None).
      { intros Hne. unfold Obj.remove. destruct (String.eqb_spec id "__proto__"); [contradiction|].
        apply lookup_delete_eq. }
      split; [reflexivity|]. split; [|split].
      * intros _. split.
        -- intros t. rewrite Hlist. destruct (String.eqb_spec id "__proto__"); [reflexivity|].
           rewrite Hrm by assumption. reflexivity.
        -- rewrite own_lookup. destruct (String.eqb_spec id "__proto__"); [reflexivity|].
           apply Hrm. assumption.
      * intros H. destruct H. reflexivity.
      * intros _ Hnone. rewrite own_lookup. unfold Obj.remove.
        destruct (String.eqb id "__proto__"); [auto|].
        apply fmap_None in Hnone. rewrite delete_id by exact Hnone. auto.
    + apply in_memory_false in Hfound. rewrite own_lookup in Hfound.
      destruct (String.eqb id "__proto__").
      * split; [intros [? ?]; discriminate|]. split; [discriminate|].
        split; [|discriminate]. auto.
      * rewrite Hfound. split; [intros [? ?]; discriminate|]. split; [discriminate|].
        split; [|discriminate]. auto.
Qed.

Lemma deregister_finds_what_is_listed_witness :
  reachable 60 (snd (register 60 0 (initial false) bio_v1)) /\
  JS.truthy (JS.trim (JS.or_empty (Some " bio "))) = true /\
  status (fst (deregister 1000 (snd (register 60 0 (initial false) bio_v1)) (Some " bio "))) = 200.
Proof.
  split; [exists false, [(0, Register bio_v1)]; reflexivity|]. split; [reflexivity|].
  apply (proj1 (deregister_finds_what_is_listed 60 1000
                  (snd (register 60 0 (initial false) bio_v1)) (Some " bio ")
                  ltac:(exists false, [(0, Register bio_v1)]; reflexivity) eq_refl)).
  vm_compute. eauto.
Defined.

(** The registry knows nothing of the agent: no key in Redis; in the
    fallback, no record under a name that the table can hold
    ([__proto__] is the prototype, which a deregistration leaves in
    place). *)
Definition unknown (st : State) (id : string) : Prop :=
  match redisClient st with
  | Some db => db !! dataKey id = None /\ db !! secretKey id = None
  | None => inMemoryAgents st !! id = None /\ id <> "__proto__"
  end.

(** X3. Registering an agent the registry knew nothing of and
    deregistering it before its deadline gives back the state the
    registry was in, in both modes, and the deregistration is answered
    200. (The fallback table knows something of [__proto__] at any
    time: see [unknown].) *)
Theorem register_then_deregister
  (TTL now now' : Z) (st : State) (d : RegisterRequest) (tools : list Tool) :
  accepted d tools ->
  0 < TTL ->
  now' <= now + TTL * 1000 ->
  unknown st (id_of d) ->
  status (fst (deregister now' (snd (register TTL now st d)) (agent_id d))) = 200 /\
  snd (deregister now' (snd (register TTL now st d)) (agent_id d)) = st.
Proof.
  intros Hacc HTTL Hnow Hunknown.
  pose proof (dataKey_not_secretKey (id_of d) (id_of d)) as Hne.
  rewrite (register_accepted _ _ _ _ _ Hacc). cbn [snd].
  destruct Hacc as (_ & Hid & _). unfold deregister. fold (id_of d). rewrite Hid. cbn [negb].
  unfold registered, unknown in *. destruct st as [[db|] mem]; cbn [redisClient inMemoryAgents] in *.
  - destruct Hunknown as [Hd Hs]. unfold EXISTS, stored.
    rewrite (proj2 (Z.leb_gt TTL 0)) by lia.
    rewrite lookup_insert_ne, lookup_insert_eq by congruence. cbn [live expire_at].
    rewrite (proj2 (Z.leb_le now' _)) by lia. cbn [fst snd status].
    split; [reflexivity|]. f_equal. f_equal. unfold DEL. apply map_eq. intros k.
    destruct (decide (k = secretKey (id_of d))) as [->|]; [rewrite lookup_delete_eq; auto|].
    rewrite lookup_delete_ne by congruence.
    destruct (decide (k = dataKey (id_of d))) as [->|]; [rewrite lookup_delete_eq; auto|].
    rewrite lookup_delete_ne, !lookup_insert_ne by congruence. reflexivity.
  - destruct Hunknown as [Hnone Hproto].
    rewrite (in_memory_own _ _ _ Hproto (lookup_insert_eq mem (id_of d) _)).
    cbn [fst snd status inMemoryAgents]. split; [reflexivity|].
    f_equal. unfold Obj.remove. destruct (String.eqb_spec (id_of d) "__proto__"); [contradiction|].
    rewrite delete_insert_eq. apply delete_id, Hnone.
Qed.

Lemma register_then_deregister_witness :
  accepted bio_v1 [mkTool "bio-lookup" "Consulta de biologia"] /\
  unknown (initial false) (id_of bio_v1) /\
  snd (deregister 60000 (snd (register 60 0 (initial false) bio_v1)) (agent_id bio_v1))
  = initial false.
Proof.
  split; [repeat split|]. split; [split; apply lookup_empty|].
  apply (register_then_deregister 60 0 60000 (initial false) bio_v1
           [mkTool "bio-lookup" "Consulta de biologia"]);
    [repeat split | lia | lia | split; apply lookup_empty].
Defined.

(** In the fallback table the registration of [__proto__] is not
    undone: the deregistration is answered 200 and the record stays
    where the registration put it. *)
Lemma fallback_proto_stays (TTL now now' : Z) (st : State) (d : RegisterRequest)
  (tools : list Tool) :
  redisClient st = None ->
  accepted d tools ->
  id_of d = "__proto__" ->
  deregister now' (snd (register TTL now st d)) (agent_id d)
  = (mkResponse 200 (Message "desregistrado"), snd (register TTL now st d)).
Proof.
  intros Hmode Hacc Hproto.
  rewrite (register_accepted _ _ _ _ _ Hacc). cbn [snd].
  unfold deregister. fold (id_of d). rewrite Hproto. cbn [JS.truthy negb].
  unfold registered. rewrite Hmode. cbn [redisClient inMemoryAgents].
  unfold in_memory. rewrite own_lookup. cbn [String.eqb Ascii.eqb Bool.eqb andb].
  rewrite lookup_insert_eq. reflexivity.
Qed.

(** What a request that does not name the agent leaves in place: the
    agent's data key, or its in-process record. *)
Lemma step_untouched_store TTL st r id :
  ~ touches id (snd r) ->
  match redisClient st, redisClient (step TTL st r) with
  | Some db, Some db' => db' !! dataKey id = db !! dataKey id
  | None, None => inMemoryAgents (step TTL st r) !! id = inMemoryAgents st !! id
  | _, _ => False
  end.
Proof.
  intros Hnot. destruct r as [now [d|a|]]; unfold step; cbn [fst snd] in *.
  - destruct (accepted_dec d) as [[tools Hacc]|Hrej].
    + rewrite (register_accepted _ _ _ _ _ Hacc). cbn [snd]. unfold registered.
      destruct (redisClient st) as [db|]; cbn [redisClient inMemoryAgents].
      * apply stored_other, Hnot.
      * apply lookup_insert_ne, Hnot.
    + rewrite register_rejected by exact Hrej. destruct (redisClient st); reflexivity.
  - unfold deregister. destruct (negb _); [cbn [snd]; destruct (redisClient st); reflexivity|].
    destruct (redisClient st) as [db|] eqn:Hdb.
    + destruct (EXISTS now db _); cbn [snd redisClient]; [|rewrite Hdb; reflexivity].
      unfold DEL.
      rewrite lookup_delete_ne by (apply not_eq_sym, dataKey_not_secretKey).
      apply lookup_delete_ne. intros H. apply dataKey_inj in H. auto.
    + destruct (in_memory _ _);
        cbn [snd redisClient inMemoryAgents]; [|rewrite Hdb; reflexivity].
      apply remove_lookup. congruence.
  - destruct (redisClient st); reflexivity.
Qed.

Lemma step_untouched TTL st r id t :
  wf_state st -> ~ touches id (snd r) ->
  list_out t (step TTL st r) !! id = list_out t st !! id.
Proof.
  intros Hwf Hnot.
  rewrite (list_out_lookup t st id Hwf), (list_out_lookup t _ id (wf_step TTL st r Hwf)).
  destruct (String.eqb id "__proto__"); [reflexivity|].
  pose proof (step_untouched_store TTL st r id Hnot) as H.
  destruct (redisClient st), (redisClient (step TTL st r)); try contradiction.
  - unfold listed, GET. rewrite H. reflexivity.
  - rewrite H. reflexivity.
Qed.

Lemma run_untouched TTL rs id t :
  forall st,
    wf_state st -> Forall (fun r => ~ touches id (snd r)) rs ->
    list_out t (run TTL st rs) !! id = list_out t st !! id.
Proof.
  induction rs as [|r rs IH]; intros st Hwf Hrs; [reflexivity|].
  apply Forall_cons in Hrs as [Hr Hrs]. cbn [run fold_left].
  change (fold_left (step TTL) rs (step TTL st r)) with (run TTL (step TTL st r) rs).
  rewrite IH by (auto using wf_step). apply step_untouched; assumption.
Qed.

(** X4. Requests that do not name an agent (registrations and
    deregistrations of other agents, listings) change nothing of what
    the listing says of that agent, at any time and in both modes. *)
Theorem other_agents_do_not_interfere
  (TTL : Z) (st : State) (rs : list (Z * Request)) (id : string) (t : Z) :
  reachable TTL st ->
  Forall (fun r => ~ touches id (snd r)) rs ->
  list_out t (run TTL st rs) !! id = list_out t st !! id.
Proof.
  intros Hreach Hrs. apply run_untouched; [apply (reachable_wf TTL), Hreach | exact Hrs].
Qed.

Lemma other_agents_do_not_interfere_witness :
  reachable 60 (snd (register 60 0 (initial false) bio_v1)) /\
  Forall (fun r => ~ touches "bio" (snd r))
    [(10, Deregister (Some "ai-guide-agent")); (20, ListAgents)] /\
  list_out 30 (run 60 (snd (register 60 0 (initial false) bio_v1))
                 [(10, Deregister (Some "ai-guide-agent")); (20, ListAgents)]) !! "bio"
  = list_out 30 (snd (register 60 0 (initial false) bio_v1)) !! "bio".
Proof.
  assert (H : Forall (fun r => ~ touches "bio" (snd r))
                [(10, Deregister (Some "ai-guide-agent")); (20, ListAgents)]).
  { repeat constructor; cbn; [discriminate | auto]. }
  split; [exists false, [(0, Register bio_v1)]; reflexivity|]. split; [exact H|].
  apply (other_agents_do_not_interfere 60); [|exact H].
  exists false, [(0, Register bio_v1)]. reflexivity.
Defined.

(** *** The agents of the listing *)

(** X5. In every state the registry can reach, an agent of the listing
    has a non-empty id without surrounding white space and a non-empty
    base URL; a deregistration under the id of the listing finds it. *)
Theorem listed_agents_are_named
  (TTL t : Z) (st : State) (id : string) (p : PublicPayload) :
  reachable TTL st ->
  list_out t st !! id = Some p ->
  JS.truthy id = true /\ JS.trim id = id /\ JS.truthy (base_url p) = true /\
  status (fst (deregister t st (Some id))) = 200.
Proof.
  intros Hreach Hlisted.
  pose proof (reachable_wf TTL st Hreach) as Hwf.
  destruct (listed_named TTL t st id p Hreach Hlisted) as (Hid & Htrim & Hurl).
  repeat split; try assumption.
  unfold deregister. change (JS.or_empty (Some id)) with id. rewrite Htrim, Hid. cbn [negb].
  rewrite (list_out_lookup t st id Hwf) in Hlisted.
  destruct (String.eqb_spec id "__proto__") as [|Hproto]; [discriminate|].
  destruct (redisClient st) as [db|].
  - unfold listed, GET in Hlisted. unfold EXISTS.
    destruct (db !! dataKey id) as [e|]; [|discriminate].
    destruct (live t e); [reflexivity | discriminate].
  - destruct (inMemoryAgents st !! id) as [r|] eqn:Hr; [|discriminate].
    rewrite (in_memory_own _ _ _ Hproto Hr). reflexivity.
Qed.

Lemma listed_agents_are_named_witness :
  reachable 60 (snd (register 60 0 (initial true) bio_v2)) /\
  list_out 99 (snd (register 60 0 (initial true) bio_v2)) !! "bio"
  = Some (mkPublic "http://bio-2:8020"
            [mkTool "bio-lookup" "Consulta de biologia"; mkTool "eco" "Ecologia"]) /\
  JS.trim "bio" = "bio".
Proof.
  split; [exists true, [(0, Register bio_v2)]; reflexivity|]. split; [vm_compute; reflexivity|].
  apply (listed_agents_are_named 60 99 (snd (register 60 0 (initial true) bio_v2)) "bio"
           (mkPublic "http://bio-2:8020"
              [mkTool "bio-lookup" "Consulta de biologia"; mkTool "eco" "Ecologia"]));
    [exists true, [(0, Register bio_v2)]; reflexivity | vm_compute; reflexivity].
Defined.

(** X6. With a Redis that answers behind it, the registry lists an
    agent that was registered at [now] and not named by any later
    request exactly until [now + HEARTBEAT_TTL] seconds: with its
    payload at any time up to the deadline, and not at all after it.
    An agent registered as [__proto__] is not listed at any time. *)
Theorem redis_liveness_window
  (TTL now t : Z) (st : State) (d : RegisterRequest) (tools : list Tool)
  (rs : list (Z * Request)) :
  is_Some (redisClient st) ->
  reachable TTL st ->
  0 < TTL ->
  accepted d tools ->
  Forall (fun r => ~ touches (id_of d) (snd r)) rs ->
  list_out t (run TTL (snd (register TTL now st d)) rs) !! id_of d
  = if String.eqb (id_of d) "__proto__" then None
    else if t <=? now + TTL * 1000 then Some (mkPublic (url_of d) tools) else None.
Proof.
  intros [db Hdb] Hreach HTTL Hacc Hrs.
  pose proof (reachable_wf TTL st Hreach) as Hwf.
  rewrite run_untouched by (auto using wf_register).
  rewrite (list_out_lookup t _ _ (wf_register TTL now st d Hwf)).
  destruct (String.eqb (id_of d) "__proto__"); [reflexivity|].
  rewrite (register_accepted _ _ _ _ _ Hacc). cbn [snd]. unfold registered. rewrite Hdb.
  cbn [redisClient]. unfold listed, GET, stored. rewrite (proj2 (Z.leb_gt TTL 0)) by lia.
  rewrite lookup_insert_ne by (apply not_eq_sym, dataKey_not_secretKey).
  rewrite lookup_insert_eq. cbn [live expire_at value].
  destruct (t <=? now + TTL * 1000); reflexivity.
Qed.

Lemma redis_liveness_window_witness :
  is_Some (redisClient (initial false)) /\
  reachable 60 (initial false) /\
  accepted bio_v1 [mkTool "bio-lookup" "Consulta de biologia"] /\
  list_out 60000 (run 60 (snd (register 60 0 (initial false) bio_v1)) [(30000, ListAgents)])
    !! id_of bio_v1
  = Some (mkPublic "http://bio-1:8020" [mkTool "bio-lookup" "Consulta de biologia"]) /\
  list_out 60001 (run 60 (snd (register 60 0 (initial false) bio_v1)) [(30000, ListAgents)])
    !! id_of bio_v1 = None.
Proof.
  assert (Hrs : Forall (fun r => ~ touches (id_of bio_v1) (snd r)) [(30000, ListAgents)]).
  { repeat constructor. cbn. auto. }
  split; [eexists; reflexivity|]. split; [exists false, []; reflexivity|].
  split; [repeat split|]. split.
  - rewrite (redis_liveness_window 60 0 60000 (initial false) bio_v1
               [mkTool "bio-lookup" "Consulta de biologia"] [(30000, ListAgents)]
               ltac:(eexists; reflexivity) ltac:(exists false, []; reflexivity)
               ltac:(lia) ltac:(repeat split) Hrs).
    reflexivity.
  - rewrite (redis_liveness_window 60 0 60001 (initial false) bio_v1
               [mkTool "bio-lookup" "Consulta de biologia"] [(30000, ListAgents)]
               ltac:(eexists; reflexivity) ltac:(exists false, []; reflexivity)
               ltac:(lia) ltac:(repeat split) Hrs).
    reflexivity.
Defined.

End RegistryMore.

(** ** The host agent: forwarding, call discipline, routing, start-up *)

Section HostMore.

Import Host.

(** The request is routed to an agent whose credential and data the
    host holds: the conditions under which [/query] reaches the health
    probe. [text] is the query, [decision] the router's answer on the
    refreshed snapshot. *)
Definition routed (cfg : Config) (world : World) (st : State) (req : QueryRequest)
  (text : string) (decision : Decision) (secretToken : string) (agentInfo : PublicPayload)
  : Prop :=
  query req = Some text /\
  JS.truthy text = true /\
  discoveredTools (fst (fetchToolsFromRegistry cfg world st)) <> [] /\
  isCapabilitiesQuery text = false /\
  heuristicRoute (fst (fetchToolsFromRegistry cfg world st)) text = Some decision /\
  SPECIALIST_AGENTS_SECRETS cfg !! decision_owner decision = Some secretToken /\
  JS.truthy secretToken = true /\
  assoc_get (decision_owner decision)
    (discoveredAgentsData (fst (fetchToolsFromRegistry cfg world st))) = Some agentInfo.

(** The envelope the host builds for a routed query. *)
Definition envelope (cfg : Config) (world : World) (req : QueryRequest) (text : string)
  (decision : Decision) : A2AMessage :=
  mkA2A ("msg_" +:+ uuidv4 world) (now_iso world) (HOST_AGENT_ID cfg) (decision_owner decision)
    "text_query" text (uuid req).

(** The same with the two reads as the handler makes them: what it
    takes for the credential and for the base URL of the agent may come
    from [Object.prototype]. *)
Definition dispatched (cfg : Config) (world : World) (st : State) (req : QueryRequest)
  (text : string) (decision : Decision) (secretToken agentBaseUrl : string) : Prop :=
  query req = Some text /\
  JS.truthy text = true /\
  discoveredTools (fst (fetchToolsFromRegistry cfg world st)) <> [] /\
  isCapabilitiesQuery text = false /\
  heuristicRoute (fst (fetchToolsFromRegistry cfg world st)) text = Some decision /\
  read_secret cfg (decision_owner decision) = Some secretToken /\
  read_base_url (fst (fetchToolsFromRegistry cfg world st)) (decision_owner decision)
  = Some agentBaseUrl.

Lemma routed_dispatched cfg world st req text decision secretToken agentInfo :
  routed cfg world st req text decision secretToken agentInfo ->
  dispatched cfg world st req text decision secretToken (base_url agentInfo).
Proof.
  intros (Hq & Htruthy & Htools & Hcap & Hroute & Hsecret & Htok & Hinfo).
  unfold dispatched, read_secret, read_base_url. rewrite Hsecret, Htok, Hinfo. auto 10.
Qed.

Lemma post_query_dispatched cfg world st req text decision secretToken agentBaseUrl :
  dispatched cfg world st req text decision secretToken agentBaseUrl ->
  post_query cfg world st req
  = (fst (dispatch cfg world text (uuid req) decision secretToken agentBaseUrl),
     fst (fetchToolsFromRegistry cfg world st),
     (snd (fetchToolsFromRegistry cfg world st)
      ++ snd (dispatch cfg world text (uuid req) decision secretToken agentBaseUrl))%list).
Proof.
  intros (Hq & Htruthy & Htools & Hcap & Hroute & Hsecret & Hinfo).
  rewrite (post_query_routing cfg world st req text Hq Htruthy Htools Hcap).
  cbn zeta. rewrite Hroute, Hsecret, Hinfo. reflexivity.
Qed.

Lemma post_query_dispatch cfg world st req text decision secretToken agentInfo :
  routed cfg world st req text decision secretToken agentInfo ->
  post_query cfg world st req
  = (fst (dispatch cfg world text (uuid req) decision secretToken (base_url agentInfo)),
     fst (fetchToolsFromRegistry cfg world st),
     (snd (fetchToolsFromRegistry cfg world st)
      ++ snd (dispatch cfg world text (uuid req) decision secretToken
                (base_url agentInfo)))%list).
Proof. intros H. apply post_query_dispatched, routed_dispatched, H. Qed.

Lemma dispatch_live cfg world req text decision secretToken agentBaseUrl :
  get_health world (agentBaseUrl +:+ "/health") = true ->
  snd (dispatch cfg world text (uuid req) decision secretToken agentBaseUrl)
  = [HttpGet (agentBaseUrl +:+ "/health");
     HttpPost (decision_url decision) (A2ABody (envelope cfg world req text decision))
       (Some secretToken)] /\
  fst (dispatch cfg world text (uuid req) decision secretToken agentBaseUrl)
  = match post_execute world (decision_url decision) (envelope cfg world req text decision)
            secretToken with
    | Answered specialistResult =>
        mkResponse 200
          (Answer
             match sr_result specialistResult with
             | Some r => if JS.truthy r then Some r else sr_answer specialistResult
             | None => sr_answer specialistResult
             end
             (decision_owner decision) (tool_to_use decision) (sr_sources specialistResult)
             (sr_chosen_temperature specialistResult) (sr_similarity specialistResult))
    | Refused code data =>
        mkResponse 502
          (Error ("Erro ao comunicar com o agente especialista: "
                  +:+ JS.show_Z code +:+ " " +:+ data))
    | Failed message =>
        mkResponse 502 (Error ("Erro ao comunicar com o agente especialista: " +:+ message))
    end.
Proof.
  intros Hhealth. unfold dispatch. rewrite Hhealth. fold (envelope cfg world req text decision).
  destruct (post_execute world _ _ _); split; reflexivity.
Qed.

(** X7. When the health probe of the routed agent succeeds, the host
    posts exactly one message, to the execute URL of the decision and
    with the agent's credential as bearer token; the message carries
    the query and the uuid of the request unchanged, names the host as
    sender and the routed agent as receiver; the only other calls of
    the request are the registry listing and the probe, and no
    deregistration is requested, however the specialist answers. *)
Theorem forward_carries_query_and_credential
  (cfg : Config) (world : World) (st : State) (req : QueryRequest)
  (text : string) (decision : Decision) (secretToken : string) (agentInfo : PublicPayload) :
  routed cfg world st req text decision secretToken agentInfo ->
  get_health world (base_url agentInfo +:+ "/health") = true ->
  let effects := snd (post_query cfg world st req) in
  exists m,
    forwarded effects = [m] /\
    HttpPost (decision_url decision) (A2ABody m) (Some secretToken) ∈ effects /\
    payload_query m = text /\
    payload_uuid m = uuid req /\
    payload_type m = "text_query" /\
    sender_agent_id m = HOST_AGENT_ID cfg /\
    receiver_agent_id m = decision_owner decision /\
    deregister_calls effects = [] /\
    probed effects
    = [REGISTRY_BASE_URL cfg +:+ "/list_agents"; base_url agentInfo +:+ "/health"].
Proof.
  intros Hrouted Hhealth effects. subst effects.
  rewrite (post_query_dispatch _ _ _ _ _ _ _ _ Hrouted). cbn [snd].
  destruct (dispatch_live cfg world req text decision secretToken (base_url agentInfo) Hhealth)
    as [-> _].
  destruct (fetch_calls cfg world st) as (Hd & Hf & Hp).
  exists (envelope cfg world req text decision).
  destruct (calls_app (snd (fetchToolsFromRegistry cfg world st))
              [HttpGet (base_url agentInfo +:+ "/health");
               HttpPost (decision_url decision)
                 (A2ABody (envelope cfg world req text decision)) (Some secretToken)])
    as [-> ->].
  rewrite Hd, Hf. unfold probed. rewrite flat_map_app. fold (probed (snd (fetchToolsFromRegistry cfg world st))).
  rewrite Hp. repeat split; try reflexivity.
  apply elem_of_app. right. right. left.
Qed.

(** A world in which both agents are up and the specialist answers. *)
Definition specialist_answer : SpecialistResult :=
  mkResult (Some "Resposta.") None (Some ["guia.pdf"]) (Some 0.3%float) (Some 0.5%float).

Definition all_up : World :=
  mkWorld (Resolved two_agents) (fun _ => true) (fun _ => Resolved tt)
    (fun _ _ _ => Answered specialist_answer) "0000" "2025-01-01T00:00:00.000Z".

Definition bio_query : QueryRequest := mkQuery (Some "preciso de um biologo") (Some "u-1").

Definition bio_decision : Decision :=
  mkDecision "bio-lookup" "biologist-agent" "http://bio:8020/execute".

Lemma bio_routed (world : World) :
  get_list_agents world = Resolved two_agents ->
  routed host_cfg world (mkState [] []) bio_query "preciso de um biologo" bio_decision
    "s3cret" (mkPublic "http://bio:8020" [bio_lookup]).
Proof.
  intros H. unfold routed, fetchToolsFromRegistry. rewrite H.
  split; [reflexivity|]. split; [reflexivity|]. split; [vm_compute; discriminate|].
  repeat split; vm_compute; reflexivity.
Qed.

Lemma forward_carries_query_and_credential_witness :
  routed host_cfg all_up (mkState [] []) bio_query "preciso de um biologo" bio_decision
    "s3cret" (mkPublic "http://bio:8020" [bio_lookup]) /\
  get_health all_up "http://bio:8020/health" = true /\
  exists m, forwarded (snd (post_query host_cfg all_up (mkState [] []) bio_query)) = [m] /\
            payload_query m = "preciso de um biologo".
Proof.
  split; [apply bio_routed; reflexivity|]. split; [reflexivity|].
  destruct (forward_carries_query_and_credential host_cfg all_up (mkState [] []) bio_query
              "preciso de um biologo" bio_decision "s3cret"
              (mkPublic "http://bio:8020" [bio_lookup]) (bio_routed all_up eq_refl) eq_refl)
    as (m & Hm & _ & Hq & _).
  exists m. split; assumption.
Defined.

(** X8. When the probe succeeds the caller gets what the specialist
    made of the message: on a 2xx answer, status 200 with the
    specialist's [result] (its [answer] when [result] is missing or
    empty), its sources, temperature and similarity unchanged, and the
    routed agent and tool as source; on any other status, 502 with that
    status and body in the error; on no answer, 502 with the message of
    the failure. The snapshot is the refreshed one in every case. *)
Theorem specialist_answer_is_passed_through
  (cfg : Config) (world : World) (st : State) (req : QueryRequest)
  (text : string) (decision : Decision) (secretToken : string) (agentInfo : PublicPayload) :
  routed cfg world st req text decision secretToken agentInfo ->
  get_health world (base_url agentInfo +:+ "/health") = true ->
  let upstream :=
    post_execute world (decision_url decision) (envelope cfg world req text decision)
      secretToken in
  let response := fst (fst (post_query cfg world st req)) in
  snd (fst (post_query cfg world st req)) = fst (fetchToolsFromRegistry cfg world st) /\
  (forall r,
     upstream = Answered r ->
     response
     = mkResponse 200
         (Answer (if JS.truthy (JS.or_empty (sr_result r)) then sr_result r else sr_answer r)
            (decision_owner decision) (tool_to_use decision) (sr_sources r)
            (sr_chosen_temperature r) (sr_similarity r))) /\
  (forall code data,
     upstream = Refused code data ->
     response
     = mkResponse 502
         (Error ("Erro ao comunicar com o agente especialista: "
                 +:+ JS.show_Z code +:+ " " +:+ data))) /\
  (forall message,
     upstream = Failed message ->
     response
     = mkResponse 502 (Error ("Erro ao comunicar com o agente especialista: " +:+ message))).
Proof.
  intros Hrouted Hhealth upstream response. subst response.
  rewrite (post_query_dispatch _ _ _ _ _ _ _ _ Hrouted). cbn [fst snd].
  destruct (dispatch_live cfg world req text decision secretToken (base_url agentInfo) Hhealth)
    as [_ ->].
  fold upstream. split; [reflexivity|]. split; [|split].
  - intros r ->. destruct (sr_result r) as [res|]; [|reflexivity].
    change (JS.or_empty (Some res)) with res.
    destruct (JS.truthy res); reflexivity.
  - intros code data ->. reflexivity.
  - intros message ->. reflexivity.
Qed.

Lemma specialist_answer_is_passed_through_witness :
  routed host_cfg all_up (mkState [] []) bio_query "preciso de um biologo" bio_decision
    "s3cret" (mkPublic "http://bio:8020" [bio_lookup]) /\
  get_health all_up "http://bio:8020/health" = true /\
  fst (fst (post_query host_cfg all_up (mkState [] []) bio_query))
  = mkResponse 200
      (Answer (Some "Resposta.") "biologist-agent" "bio-lookup" (Some ["guia.pdf"])
         (Some 0.3%float) (Some 0.5%float)).
Proof.
  split; [apply bio_routed; reflexivity|]. split; [reflexivity|].
  apply (proj1 (proj2 (specialist_answer_is_passed_through host_cfg all_up (mkState [] [])
                         bio_query "preciso de um biologo" bio_decision "s3cret"
                         (mkPublic "http://bio:8020" [bio_lookup])
                         (bio_routed all_up eq_refl) eq_refl)) specialist_answer).
  reflexivity.
Defined.

(** The three ways a request can go: refused for want of a query, ended
    before the health probe, or dispatched. *)
Lemma post_query_shape cfg world st req :
  (JS.truthy (JS.or_empty (query req)) = false /\
   post_query cfg world st req
   = (mkResponse 400 (Error "A 'query' nao pode estar vazia."), st, [])) \/
  (JS.truthy (JS.or_empty (query req)) = true /\
   snd (post_query cfg world st req) = snd (fetchToolsFromRegistry cfg world st)) \/
  (exists text decision secretToken agentBaseUrl,
     dispatched cfg world st req text decision secretToken agentBaseUrl).
Proof.
  destruct (JS.truthy (JS.or_empty (query req))) eqn:Htruthy.
  2:{ left. split; [reflexivity|]. unfold post_query. rewrite Htruthy. reflexivity. }
  right. destruct (query req) as [text|] eqn:Hq; [|discriminate].
  change (JS.or_empty (Some text)) with text in Htruthy.
  destruct (discoveredTools (fst (fetchToolsFromRegistry cfg world st))) as [|t ts] eqn:Htools.
  { left. split; [reflexivity|]. unfold post_query. rewrite Hq.
    change (JS.or_empty (Some text)) with text. rewrite Htruthy. cbn [negb].
    destruct (fetchToolsFromRegistry cfg world st) as [st' fetched]. cbn [fst snd] in *.
    rewrite Htools. reflexivity. }
  destruct (isCapabilitiesQuery text) eqn:Hcap.
  { left. split; [reflexivity|]. unfold post_query. rewrite Hq.
    change (JS.or_empty (Some text)) with text. rewrite Htruthy. cbn [negb].
    destruct (fetchToolsFromRegistry cfg world st) as [st' fetched]. cbn [fst snd] in *.
    rewrite Htools, Hcap. reflexivity. }
  assert (Hne : discoveredTools (fst (fetchToolsFromRegistry cfg world st)) <> [])
    by (rewrite Htools; discriminate).
  pose proof (post_query_routing cfg world st req text Hq Htruthy Hne Hcap) as Hpost.
  cbn zeta in Hpost.
  destruct (heuristicRoute (fst (fetchToolsFromRegistry cfg world st)) text)
    as [decision|] eqn:Hroute; [|left; rewrite Hpost; auto].
  destruct (read_secret cfg (decision_owner decision)) as [tok|] eqn:Hsecret;
    [|left; rewrite Hpost; auto].
  destruct (read_base_url (fst (fetchToolsFromRegistry cfg world st))
              (decision_owner decision))
    as [url|] eqn:Hinfo; [|left; rewrite Hpost; auto].
  right. exists text, decision, tok, url. unfold dispatched. rewrite Htools.
  repeat split; auto.
Qed.

(** What the host takes for the credential of an agent is the
    credential it was given for it, or, when it was given none, the
    member of [Object.prototype] of that name. *)
Lemma read_secret_Some cfg agentId secretToken :
  read_secret cfg agentId = Some secretToken <->
  (SPECIALIST_AGENTS_SECRETS cfg !! agentId = Some secretToken /\
   JS.truthy secretToken = true) \/
  (SPECIALIST_AGENTS_SECRETS cfg !! agentId = None /\
   Obj.inherited agentId = true /\ secretToken = Obj.show_member agentId).
Proof.
  unfold read_secret. destruct (SPECIALIST_AGENTS_SECRETS cfg !! agentId) as [tok|].
  - destruct (JS.truthy tok) eqn:Htok; split.
    + intros [= <-]. left. auto.
    + intros [[[= <-] _]|[? _]]; [reflexivity | discriminate].
    + discriminate.
    + intros [[[= <-] ?]|[? _]]; congruence.
  - destruct (Obj.inherited agentId); split.
    + intros [= <-]. right. auto.
    + intros [[? _]|(_ & _ & ->)]; [discriminate | reflexivity].
    + discriminate.
    + intros [[? _]|(_ & ? & _)]; discriminate.
Qed.

(** X9. The calls of one [/query] request, whatever the request, the
    snapshot and the outside world. A request without a query calls
    nothing. Any other request starts with the refresh; after it comes
    at most one call that changes anything outside the host: either one
    forward or one deregistration, never both. A message is forwarded
    only after a successful probe of its receiver, and it carries the
    query of the request; its bearer token is the credential the host
    was given for that receiver or, when it was given none and the
    receiver is named like a member of [Object.prototype], that member
    printed. A deregistration is requested only for a named agent whose
    probe failed. The probe goes to the base URL the host reads for
    the agent in its snapshot. *)
Theorem host_call_discipline
  (cfg : Config) (world : World) (st : State) (req : QueryRequest) :
  let st' := fst (fetchToolsFromRegistry cfg world st) in
  let effects := snd (post_query cfg world st req) in
  (JS.truthy (JS.or_empty (query req)) = false -> effects = []) /\
  (JS.truthy (JS.or_empty (query req)) = true ->
   exists rest, effects = (snd (fetchToolsFromRegistry cfg world st) ++ rest)%list) /\
  (length (forwarded effects) + length (deregister_calls effects) <= 1)%nat /\
  (forall url m bearer,
     HttpPost url (A2ABody m) bearer ∈ effects ->
     exists secretToken agentBaseUrl,
       bearer = Some secretToken /\
       ((SPECIALIST_AGENTS_SECRETS cfg !! receiver_agent_id m = Some secretToken /\
         JS.truthy secretToken = true) \/
        (SPECIALIST_AGENTS_SECRETS cfg !! receiver_agent_id m = None /\
         Obj.inherited (receiver_agent_id m) = true /\
         secretToken = Obj.show_member (receiver_agent_id m))) /\
       query req = Some (payload_query m) /\
       read_base_url st' (receiver_agent_id m) = Some agentBaseUrl /\
       get_health world (agentBaseUrl +:+ "/health") = true) /\
  (forall a,
     a ∈ deregister_calls effects ->
     JS.truthy a = true /\
     exists agentBaseUrl,
       read_base_url st' a = Some agentBaseUrl /\
       get_health world (agentBaseUrl +:+ "/health") = false).
Proof.
  intros st' effects. subst st' effects.
  destruct (fetch_effects cfg world st) as (line & Hfetched & Hline).
  destruct (fetch_calls cfg world st) as (Hd & Hf & _).
  destruct (post_query_shape cfg world st req)
    as [[Hq Hpost]|[[Hq Hpost]|(text & decision & tok & info & Hrouted)]].
  - rewrite Hpost. cbn [snd]. split; [reflexivity|]. split; [congruence|].
    split; [cbn; lia|]. split; [intros ? ? ? H; inversion H | intros ? H; inversion H].
  - rewrite Hpost. split; [congruence|]. split; [exists []; rewrite app_nil_r; reflexivity|].
    rewrite Hd, Hf. split; [cbn; lia|]. split; [|intros ? H; inversion H].
    intros url m bearer H. rewrite Hfetched in H.
    apply elem_of_cons in H as [H|H]; [discriminate|].
    apply elem_of_cons in H as [H|H]; [subst line; contradiction | inversion H].
  - pose proof Hrouted as (Hq & Htruthy & _ & _ & _ & Hsecret & Hinfo).
    rewrite (post_query_dispatched _ _ _ _ _ _ _ _ Hrouted). cbn [snd].
    rewrite Hq. change (JS.or_empty (Some text)) with text.
    split; [congruence|]. split; [eauto|].
    destruct (get_health world (info +:+ "/health")) eqn:Hhealth.
    + destruct (dispatch_live cfg world req text decision tok info Hhealth) as [-> _].
      destruct (calls_app (snd (fetchToolsFromRegistry cfg world st))
                  [HttpGet (info +:+ "/health");
                   HttpPost (decision_url decision)
                     (A2ABody (envelope cfg world req text decision)) (Some tok)])
        as [-> ->].
      rewrite Hd, Hf. split; [cbn; lia|]. split; [|intros ? H; inversion H].
      intros url m bearer H. rewrite Hfetched in H.
      apply elem_of_app in H as [H|H].
      * apply elem_of_cons in H as [H|H]; [discriminate|].
        apply elem_of_cons in H as [H|H]; [subst line; contradiction | inversion H].
      * apply elem_of_cons in H as [H|H]; [discriminate|].
        apply elem_of_cons in H as [H|H]; [|inversion H].
        injection H as -> -> ->. exists tok, info. cbn.
        split; [reflexivity|]. split; [apply read_secret_Some, Hsecret|]. auto.
    + unfold dispatch. rewrite Hhealth. cbn [snd].
      destruct (JS.truthy (decision_owner decision)) eqn:Hname.
      * destruct (requestDeregistration_shape cfg world (decision_owner decision))
          as (line' & Hline' & ->).
        destruct (calls_app (snd (fetchToolsFromRegistry cfg world st))
                    [HttpGet (info +:+ "/health");
                     HttpPost (REGISTRY_BASE_URL cfg +:+ "/deregister")
                       (DeregisterBody (decision_owner decision)) None; line'])
          as [-> ->].
        rewrite Hd, Hf.
        assert (Hl1 : deregister_calls [line'] = []) by (destruct line'; try contradiction; reflexivity).
        assert (Hl2 : forwarded [line'] = []) by (destruct line'; try contradiction; reflexivity).
        change (deregister_calls
                  [HttpGet (info +:+ "/health");
                   HttpPost (REGISTRY_BASE_URL cfg +:+ "/deregister")
                     (DeregisterBody (decision_owner decision)) None; line'])
          with (decision_owner decision :: deregister_calls [line']).
        change (forwarded
                  [HttpGet (info +:+ "/health");
                   HttpPost (REGISTRY_BASE_URL cfg +:+ "/deregister")
                     (DeregisterBody (decision_owner decision)) None; line'])
          with (forwarded [line']).
        rewrite Hl1, Hl2. split; [cbn; lia|]. split.
        -- intros url m bearer H. rewrite Hfetched in H.
           apply elem_of_app in H as [H|H].
           ++ apply elem_of_cons in H as [H|H]; [discriminate|].
              apply elem_of_cons in H as [H|H]; [subst line; contradiction | inversion H].
           ++ apply elem_of_cons in H as [H|H]; [discriminate|].
              apply elem_of_cons in H as [H|H]; [discriminate|].
              apply elem_of_cons in H as [H|H]; [subst line'; contradiction | inversion H].
        -- intros a H. apply list_elem_of_singleton in H as ->. split; [exact Hname|]. eauto.
      * destruct (calls_app (snd (fetchToolsFromRegistry cfg world st))
                    [HttpGet (info +:+ "/health")]) as [-> ->].
        rewrite Hd, Hf. split; [cbn; lia|]. split; [|intros ? H; inversion H].
        intros url m bearer H. rewrite Hfetched in H.
        apply elem_of_app in H as [H|H].
        -- apply elem_of_cons in H as [H|H]; [discriminate|].
           apply elem_of_cons in H as [H|H]; [subst line; contradiction | inversion H].
        -- apply elem_of_cons in H as [H|H]; [discriminate | inversion H].
Qed.

(** *** The routed agent is an agent of the snapshot *)

Lemma assoc_get_NoDup {V} (l : list (string * V)) (k : string) (v : V) :
  NoDup (l.*1) -> (k, v) ∈ l -> assoc_get k l = Some v.
Proof.
  induction l as [|[k' w] l IH]; intros Hnd Hin; [inversion Hin|].
  cbn [assoc_get]. cbn in Hnd. apply NoDup_cons in Hnd as [Hfresh Hnd].
  apply elem_of_cons in Hin as [Heq|Hin].
  - injection Heq as -> ->. rewrite String.eqb_refl. reflexivity.
  - destruct (String.eqb k' k) eqn:E; [|apply IH; assumption].
    apply String.eqb_eq in E. subst k'. exfalso. apply Hfresh.
    apply list_elem_of_fmap. exists (k, v). auto.
Qed.

(** X10. After a refresh that reached the registry, whatever the router
    decides names an agent of the listing just fetched: the host finds
    the data of that agent, the tool to use is one of the tools the
    agent registered, and the URL the message will be posted to is the
    agent's base URL followed by [/execute]. *)
Theorem routed_agent_is_known
  (cfg : Config) (world : World) (st : State)
  (registered : list (string * PublicPayload)) (text : string) (decision : Decision) :
  get_list_agents world = Resolved registered ->
  NoDup (registered.*1) ->
  heuristicRoute (fst (fetchToolsFromRegistry cfg world st)) text = Some decision ->
  exists agentInfo tool,
    (decision_owner decision, agentInfo) ∈ registered /\
    tool ∈ tools agentInfo /\
    tool_to_use decision = tool_name tool /\
    decision_url decision = base_url agentInfo +:+ "/execute" /\
    assoc_get (decision_owner decision)
      (discoveredAgentsData (fst (fetchToolsFromRegistry cfg world st))) = Some agentInfo.
Proof.
  intros Hget Hnd Hroute. rewrite (fetch_resolved cfg world st registered Hget Hnd) in *.
  cbn [discoveredAgentsData].
  apply heuristicRoute_Some in Hroute as (_ & t & -> & Hcase).
  assert (Hin : t ∈ flat_map (fun e => tag_tools (fst e) (snd e)) registered).
  { cbn [discoveredTools] in Hcase.
    destruct Hcase as [[_ (pre & post & -> & _)]|(_ & _ & (pre & post & -> & _))];
      apply elem_of_app; right; left. }
  apply list_elem_of_In, in_flat_map in Hin as ([agentId info] & He & Ht).
  cbn [fst snd] in Ht. unfold tag_tools in Ht. apply in_map_iff in Ht as (tool & <- & Htool).
  exists info, tool. cbn. apply list_elem_of_In in He, Htool.
  repeat split; auto using assoc_get_NoDup.
Qed.

Lemma routed_agent_is_known_witness :
  get_list_agents all_up = Resolved two_agents /\
  NoDup (two_agents.*1) /\
  heuristicRoute (fst (fetchToolsFromRegistry host_cfg all_up (mkState [] [])))
    "preciso de um biologo" = Some bio_decision /\
  exists agentInfo tool,
    (decision_owner bio_decision, agentInfo) ∈ two_agents /\
    tool ∈ tools agentInfo /\
    tool_to_use bio_decision = tool_name tool /\
    decision_url bio_decision = base_url agentInfo +:+ "/execute" /\
    assoc_get (decision_owner bio_decision)
      (discoveredAgentsData (fst (fetchToolsFromRegistry host_cfg all_up (mkState [] []))))
    = Some agentInfo.
Proof.
  assert (Hnd : NoDup (two_agents.*1)).
  { cbn. repeat constructor; rewrite ?elem_of_cons, ?elem_of_nil; intuition discriminate. }
  split; [reflexivity|]. split; [exact Hnd|]. split; [vm_compute; reflexivity|].
  apply (routed_agent_is_known host_cfg all_up (mkState [] []) two_agents
           "preciso de um biologo" bio_decision eq_refl Hnd).
  vm_compute. reflexivity.
Defined.

(** *** Letter case and surrounding white space *)

Lemma lower_unit_white c : JS.is_white_space (JS.lower_unit c) = JS.is_white_space c.
Proof. destruct c as [[] [] [] [] [] [] [] []]; reflexivity. Qed.

Lemma toLowerCase_trimStart s :
  JS.toLowerCase (JS.trimStart s) = JS.trimStart (JS.toLowerCase s).
Proof.
  induction s as [|c s IH]; [reflexivity|]. cbn [JS.trimStart JS.toLowerCase].
  rewrite lower_unit_white. destruct (JS.is_white_space c); [exact IH | reflexivity].
Qed.

Lemma toLowerCase_trimEnd s :
  JS.toLowerCase (JS.trimEnd s) = JS.trimEnd (JS.toLowerCase s).
Proof.
  induction s as [|c s IH]; [reflexivity|]. cbn [JS.toLowerCase].
  rewrite !trimEnd_cons, <- IH, lower_unit_white.
  destruct (JS.trimEnd s) as [|c' t]; cbn [JS.toLowerCase].
  - destruct (JS.is_white_space c); reflexivity.
  - reflexivity.
Qed.

Lemma toLowerCase_trim s : JS.toLowerCase (JS.trim s) = JS.trim (JS.toLowerCase s).
Proof. unfold JS.trim. rewrite toLowerCase_trimEnd, toLowerCase_trimStart. reflexivity. Qed.

Lemma truthy_toLowerCase s : JS.truthy (JS.toLowerCase s) = JS.truthy s.
Proof. destruct s; reflexivity. Qed.

(** X11. The router and the capabilities test do not see letter case:
    two queries with the same lower-cased form get the same routing
    decision on every snapshot and the same answer from the
    capabilities test. The capabilities test does not see white space
    around the query either. *)
Theorem queries_are_read_case_insensitively (st : State) (q q' : string) :
  JS.toLowerCase q = JS.toLowerCase q' ->
  heuristicRoute st q = heuristicRoute st q' /\
  isCapabilitiesQuery q = isCapabilitiesQuery q' /\
  isCapabilitiesQuery (JS.trim q) = isCapabilitiesQuery q.
Proof.
  intros Hlow.
  assert (Htruthy : JS.truthy q = JS.truthy q')
    by (rewrite <- (truthy_toLowerCase q), <- (truthy_toLowerCase q'), Hlow; reflexivity).
  split; [|split].
  - unfold heuristicRoute. rewrite Hlow, Htruthy. reflexivity.
  - unfold isCapabilitiesQuery. rewrite !toLowerCase_trim, Hlow, Htruthy. reflexivity.
  - unfold isCapabilitiesQuery. rewrite trim_idem.
    destruct (JS.trim q) as [|c t] eqn:Htrim.
    + cbn. destruct (JS.truthy q); reflexivity.
    + assert (JS.truthy q = true) as ->; [|reflexivity].
      destruct q; [discriminate Htrim | reflexivity].
Qed.

Lemma queries_are_read_case_insensitively_witness :
  JS.toLowerCase "O Que VOCE faz?" = JS.toLowerCase "o que voce faz?" /\
  isCapabilitiesQuery "O Que VOCE faz?" = isCapabilitiesQuery "o que voce faz?".
Proof.
  split; [reflexivity|].
  apply (queries_are_read_case_insensitively (mkState [] [])). reflexivity.
Defined.

(** *** The start-up loop *)

Import HostStartup.

(** The number of tools the registry's answer holds; none when the
    registry cannot be reached. *)
Definition tools_offered (world : World) : nat :=
  match get_list_agents world with
  | Resolved registered => length (flat_map (fun e => tools (snd e)) registered)
  | Thrown _ => 0%nat
  end.

Definition sleeps (effects : list StartupEffect) : nat :=
  length (List.filter (fun e => match e with Sleep _ => true | _ => false end) effects).

Definition listens (effects : list StartupEffect) : list Z :=
  flat_map (fun e => match e with Listen port => [port] | _ => [] end) effects.

Lemma length_tagged (entries : list (string * PublicPayload)) :
  length (flat_map (fun e => tag_tools (fst e) (snd e)) entries)
  = length (flat_map (fun e => tools (snd e)) entries).
Proof.
  induction entries as [|e entries IH]; [reflexivity|].
  cbn [flat_map]. rewrite !length_app, IH. unfold tag_tools. rewrite length_map. reflexivity.
Qed.

(** The number of tools a refresh leaves. *)
Lemma fetch_tools cfg world st :
  length (discoveredTools (fst (fetchToolsFromRegistry cfg world st)))
  = match get_list_agents world with
    | Resolved _ => tools_offered world
    | Thrown _ => length (discoveredTools st)
    end.
Proof.
  unfold fetchToolsFromRegistry, tools_offered.
  destruct (get_list_agents world) as [registered|message]; [|reflexivity].
  pose proof (discover_tools registered [] []) as H.
  destruct (discover registered [] []) as [allTools agentData]. cbn [fst] in *.
  subst allTools. cbn [discoveredTools app]. apply length_tagged.
Qed.

Lemma map_Did_no_sleep (effects : list Effect) :
  sleeps (map Did effects) = 0%nat /\ listens (map Did effects) = [].
Proof. unfold sleeps, listens. induction effects as [|e l [IH1 IH2]]; cbn; auto. Qed.

Lemma sleeps_app l1 l2 : sleeps (l1 ++ l2) = (sleeps l1 + sleeps l2)%nat.
Proof. unfold sleeps. rewrite List.filter_app, length_app. reflexivity. Qed.

Lemma listens_app l1 l2 : listens (l1 ++ l2) = (listens l1 ++ listens l2)%list.
Proof. unfold listens. apply flat_map_app. Qed.

(** X12. The start-up loop refreshes once per answer of the registry
    and sleeps 5 seconds after every refresh that left no tool. The
    host starts listening at the first answer that holds a tool, with
    the snapshot discovered from that answer, after as many sleeps as
    answers without a tool came before, and it listens once, as the last
    thing it does. As long as no answer holds a tool it does not
    listen. *)
Theorem bootstrap_waits_for_the_first_tool
  (cfg : Config) (port : Z) (idle : list World) :
  Forall (fun w => tools_offered w = 0%nat) idle ->
  bootstrap cfg port idle (mkState [] []) = None /\
  forall world later,
    (0 < tools_offered world)%nat ->
    exists effects,
      bootstrap cfg port (idle ++ world :: later) (mkState [] [])
      = Some (fst (fetchToolsFromRegistry cfg world (mkState [] [])), effects) /\
      discoveredTools (fst (fetchToolsFromRegistry cfg world (mkState [] []))) <> [] /\
      sleeps effects = length idle /\
      listens effects = [port] /\
      last effects = Some (Listen port).
Proof.
  intros Hidle.
  assert (Hgen : forall st,
             discoveredTools st = [] ->
             bootstrap cfg port idle st = None /\
             forall world later,
               (0 < tools_offered world)%nat ->
               exists effects,
                 bootstrap cfg port (idle ++ world :: later) st
                 = Some (fst (fetchToolsFromRegistry cfg world (mkState [] [])), effects) /\
                 discoveredTools (fst (fetchToolsFromRegistry cfg world (mkState [] []))) <> [] /\
                 sleeps effects = length idle /\
                 listens effects = [port] /\
                 last effects = Some (Listen port)).
  2:{ apply Hgen. reflexivity. }
  induction Hidle as [|w idle Hw _ IH]; intros st Hst.
  - split; [reflexivity|]. intros world later Hoffer. cbn [app bootstrap].
    assert (Hget : exists registered, get_list_agents world = Resolved registered).
    { unfold tools_offered in Hoffer. destruct (get_list_agents world); [eauto | lia]. }
    destruct Hget as [registered Hget].
    assert (Hsame : fetchToolsFromRegistry cfg world st
                    = fetchToolsFromRegistry cfg world (mkState [] [])).
    { unfold fetchToolsFromRegistry. rewrite Hget. reflexivity. }
    rewrite Hsame.
    pose proof (fetch_tools cfg world (mkState [] [])) as Hlen. rewrite Hget in Hlen.
    unfold tools_offered in Hoffer, Hlen. rewrite Hget in Hoffer, Hlen.
    destruct (fetchToolsFromRegistry cfg world (mkState [] [])) as [st' fetched].
    cbn [fst] in *.
    rewrite (proj2 (Nat.ltb_lt 0 (length (discoveredTools st')))) by lia.
    eexists. split; [reflexivity|].
    destruct (map_Did_no_sleep fetched) as [Hs Hl].
    split; [destruct (discoveredTools st'); [cbn in Hlen; lia | discriminate]|].
    rewrite sleeps_app, listens_app, Hs, Hl. split; [reflexivity|]. split; [reflexivity|].
    rewrite last_app. reflexivity.
  - cbn [app bootstrap].
    pose proof (fetch_tools cfg w st) as Hlen.
    assert (Hnone : discoveredTools (fst (fetchToolsFromRegistry cfg w st)) = []).
    { unfold tools_offered in Hw, Hlen. destruct (get_list_agents w).
      - rewrite Hw in Hlen. apply nil_length_inv, Hlen.
      - rewrite Hst in Hlen. apply nil_length_inv, Hlen. }
    destruct (fetchToolsFromRegistry cfg w st) as [st' fetched]. cbn [fst] in *.
    rewrite Hnone. cbn [length Nat.ltb Nat.leb].
    destruct (IH st' Hnone) as [-> Hlater]. split; [reflexivity|].
    intros world later Hoffer. destruct (Hlater world later Hoffer)
      as (effects & -> & Htools & Hsleeps & Hlistens & Hlast).
    eexists. split; [reflexivity|]. split; [exact Htools|].
    destruct (map_Did_no_sleep fetched) as [Hs Hl].
    rewrite sleeps_app, listens_app, Hs, Hl. cbn [app].
    change (sleeps (Did (ConsoleLog waiting) :: Sleep 5000 :: effects)) with (S (sleeps effects)).
    change (listens (Did (ConsoleLog waiting) :: Sleep 5000 :: effects)) with (listens effects).
    rewrite Hsleeps, Hlistens. split; [reflexivity|]. split; [reflexivity|].
    rewrite last_app, !last_cons, Hlast. reflexivity.
Qed.

Definition registry_starting : World :=
  mkWorld (Resolved [("ai-guide-agent", mkPublic "http://ai:8010" [])]) (fun _ => true)
    (fun _ => Resolved tt) (fun _ _ _ => no_answer) "0000" "2025-01-01T00:00:00.000Z".

Lemma bootstrap_waits_for_the_first_tool_witness :
  Forall (fun w => tools_offered w = 0%nat) [registry_down; registry_starting] /\
  bootstrap host_cfg 8000 [registry_down; registry_starting] (mkState [] []) = None.
Proof.
  assert (H : Forall (fun w => tools_offered w = 0%nat) [registry_down; registry_starting])
    by (repeat constructor).
  split; [exact H|].
  apply (bootstrap_waits_for_the_first_tool host_cfg 8000 [registry_down; registry_starting] H).
Defined.

End HostMore.

(** ** The specialist agent: answers, outages, what the encoding reads *)

Section SpecialistMore.

Import Specialist.

(** The request carries the credential of the agent. *)
Definition authorised (cfg : Config) (req : Request) : Prop :=
  authorization req = Some ("Bearer " +:+ AGENT_SECRET_TOKEN cfg).

Lemma authorised_dec (cfg : Config) (req : Request) :
  {authorised cfg req} + {~ authorised cfg req}.
Proof.
  unfold authorised. destruct (authorization req) as [auth|]; [|right; discriminate].
  destruct (String.eqb auth ("Bearer " +:+ AGENT_SECRET_TOKEN cfg)) eqn:E.
  - left. apply String.eqb_eq in E. congruence.
  - right. intros H. injection H as ->. rewrite String.eqb_refl in E. discriminate.
Qed.

Lemma truthy_empty (s : string) : JS.truthy s = false <-> s = "".
Proof. destruct s; cbn; split; congruence. Qed.

(** The four exits of [/execute], one by one. *)
Lemma execute_unauthorised cfg world req :
  ~ authorised cfg req ->
  execute cfg world req = mkResponse 403 (Error "Acesso nao autorizado.").
Proof.
  unfold authorised, execute. intros Hno.
  destruct (authorization req) as [auth|]; [|reflexivity].
  destruct (String.eqb auth ("Bearer " +:+ AGENT_SECRET_TOKEN cfg)) eqn:E.
  - apply String.eqb_eq in E. congruence.
  - rewrite orb_true_r. reflexivity.
Qed.

Lemma execute_authorised cfg world req :
  authorised cfg req ->
  execute cfg world req =
    let query := JS.or_empty (payload_query req) in
    if negb (JS.truthy query)
    then mkResponse 400 (Error "A 'query' nao foi recebida.")
    else
      match retrieveAndFormat world "Boas_Praticas_IA" query 6 with
      | Resolved (ragContext, sourceNames, rawDocs) =>
          let '(chosen, t, s) := choose (candidates_of world ragContext query rawDocs) in
          reply sourceNames chosen t s
      | Thrown message =>
          mkResponse 500 (Error ("Erro interno do agente Guia de IA: " +:+ message))
      end.
Proof.
  unfold authorised, execute. intros ->. rewrite String.eqb_refl.
  change (JS.truthy ("Bearer " +:+ AGENT_SECRET_TOKEN cfg)) with true.
  cbn [negb orb].
  destruct (negb (JS.truthy _)); [reflexivity|].
  destruct (retrieveAndFormat _ _ _ _) as [[[ragContext sourceNames] rawDocs]|]; [|reflexivity].
  destruct (choose _) as [[chosen t] s]. reflexivity.
Qed.

(** X13. The status of an [/execute] answer tells what happened: 403
    exactly when the [authorization] header is not [Bearer] followed by
    the agent's token; 400 exactly when the credential is right and the
    query is missing or empty; 500 exactly when the retriever threw,
    with its message in the error; 200 exactly when the retriever
    answered, and then [answer] and [result] are the same text, ending
    with the sources line, and [sources] are the names the retriever
    gave. A request that is refused with 403 or 400 gets the same answer
    whatever the retriever and the model would have said. *)
Theorem execute_status (cfg : Config) (world : World) (req : Request) :
  let query := JS.or_empty (payload_query req) in
  let response := execute cfg world req in
  (status response = 403 <-> ~ authorised cfg req) /\
  (status response = 400 <-> authorised cfg req /\ query = "") /\
  (status response = 500 <->
     authorised cfg req /\ query <> "" /\
     exists message,
       retrieveAndFormat world "Boas_Praticas_IA" query 6 = Thrown message /\
       body response = Error ("Erro interno do agente Guia de IA: " +:+ message)) /\
  (status response = 200 <->
     authorised cfg req /\ query <> "" /\
     exists ragContext sourceNames rawDocs chosen t s,
       retrieveAndFormat world "Boas_Praticas_IA" query 6
         = Resolved (ragContext, sourceNames, rawDocs) /\
       body response =
         Answer (chosen +:+ JS.nl +:+ JS.nl +:+ fontesLine sourceNames)
                (chosen +:+ JS.nl +:+ JS.nl +:+ fontesLine sourceNames)
                sourceNames t s) /\
  (status response = 403 \/ status response = 400 ->
   forall world', execute cfg world' req = response).
Proof.
  intros query response. subst response.
  destruct (authorised_dec cfg req) as [Hyes|Hno].
  2:{ rewrite (execute_unauthorised cfg world req Hno). cbn [status body].
      repeat split; try tauto; try discriminate; try (intros (H & _); tauto).
      intros _ world'. apply execute_unauthorised, Hno. }
  rewrite (execute_authorised cfg world req Hyes). cbv zeta. fold query.
  destruct (JS.truthy query) eqn:Hq; cbn [negb].
  2:{ apply truthy_empty in Hq. cbn [status body].
      repeat split; try tauto; try discriminate; try (intros (_ & H & _); tauto).
      intros _ world'. rewrite (execute_authorised cfg world' req Hyes). cbv zeta. fold query.
      rewrite Hq. reflexivity. }
  assert (Hne : query <> "") by (intros H; rewrite H in Hq; discriminate).
  destruct (retrieveAndFormat world "Boas_Praticas_IA" query 6)
    as [[[ragContext sourceNames] rawDocs]|message].
  - destruct (choose _) as [[chosen t] s]. cbn [reply status body].
    repeat split; try tauto; try discriminate.
    + intros (_ & _ & m & H & _). discriminate H.
    + exists ragContext, sourceNames, rawDocs, chosen, t, s. split; reflexivity.
    + intros [H|H]; discriminate H.
  - cbn [status body].
    repeat split; try tauto; try discriminate.
    + exists message. split; reflexivity.
    + intros (_ & _ & c & n & d & ch & t & s & H & _). discriminate H.
    + intros [H|H]; discriminate H.
Qed.

(** *** The model is out *)

Lemma generate_outage world prompt rawDocs ts :
  (forall t i, exists message, invokeModelWithTemperature world prompt t i = Thrown message) ->
  forall i, generate world prompt rawDocs i ts = [].
Proof.
  intros Hout. induction ts as [|t ts IH]; intros i; cbn [generate]; [reflexivity|].
  destruct (Hout t i) as [message ->]. apply IH.
Qed.

(** The candidates are as many as the calls the model answered. *)
Fixpoint answered (world : World) (prompt : list string) (i : nat) (ts : list float) : nat :=
  match ts with
  | [] => 0%nat
  | t :: ts' =>
      match invokeModelWithTemperature world prompt t i with
      | Resolved _ => S (answered world prompt (S i) ts')
      | Thrown _ => answered world prompt (S i) ts'
      end
  end.

Lemma generate_length world prompt rawDocs ts :
  forall i, length (generate world prompt rawDocs i ts) = answered world prompt i ts.
Proof.
  induction ts as [|t ts IH]; intros i; cbn [generate answered]; [reflexivity|].
  destruct (invokeModelWithTemperature world prompt t i); cbn [length]; rewrite IH; reflexivity.
Qed.

(** X14. A generation that fails costs one candidate and nothing else:
    the request is not aborted, and there are as many candidates as
    calls the model answered, three at most. When the model answers
    none of the three calls the request is still answered 200, with the
    refusal text followed by the sources line, no chosen temperature
    and similarity 0. *)
Theorem model_outage_is_a_refusal
  (cfg : Config) (world : World) (req : Request)
  (query ragContext : string) (sourceNames rawDocs : list string) :
  authorised cfg req ->
  payload_query req = Some query ->
  JS.truthy query = true ->
  retrieveAndFormat world "Boas_Praticas_IA" query 6
    = Resolved (ragContext, sourceNames, rawDocs) ->
  let prompt := [SYSTEM_PROMPT; ragContext; query] in
  length (candidates_of world ragContext query rawDocs) = answered world prompt 0%nat temps /\
  (length (candidates_of world ragContext query rawDocs) <= 3)%nat /\
  status (execute cfg world req) = 200 /\
  ((forall t i, exists message, invokeModelWithTemperature world prompt t i = Thrown message) ->
   execute cfg world req = reply sourceNames respostaPadrao None 0%float).
Proof.
  intros Hauth Hq Htruthy Hret prompt.
  pose proof (execute_engine cfg world req query ragContext sourceNames rawDocs
                Hauth Hq Htruthy Hret) as Hexec.
  split; [apply generate_length|]. split.
  { pose proof (generate_temps world prompt rawDocs temps 0%nat) as Hsub.
    apply sublist_length in Hsub. rewrite length_map in Hsub. exact Hsub. }
  split.
  { rewrite Hexec. destruct (choose _) as [[chosen t] s]. reflexivity. }
  intros Hout. rewrite Hexec.
  replace (candidates_of world ragContext query rawDocs) with (@nil Candidate);
    [reflexivity|].
  symmetry. apply (generate_outage world prompt rawDocs temps Hout 0%nat).
Qed.

Definition silent_world : World :=
  mkWorld
    (fun _ _ _ => Resolved ("<RAG> x A </RAG>", ["docs/guia.pdf"], ["x"; "A"]))
    (fun _ _ _ => Thrown "timeout").

Lemma model_outage_is_a_refusal_witness :
  authorised tie_cfg tie_request /\
  payload_query tie_request = Some "etica" /\
  JS.truthy "etica" = true /\
  retrieveAndFormat silent_world "Boas_Praticas_IA" "etica" 6
    = Resolved ("<RAG> x A </RAG>", ["docs/guia.pdf"], ["x"; "A"]) /\
  status (execute tie_cfg silent_world tie_request) = 200.
Proof.
  do 4 (split; [reflexivity|]).
  apply (model_outage_is_a_refusal tie_cfg silent_world tie_request "etica" "<RAG> x A </RAG>"
           ["docs/guia.pdf"] ["x"; "A"]); reflexivity.
Defined.

(** *** What the encoding reads of a text *)

(** The last decimal digit of every code unit of a text. *)
Definition digits (text : string) : list Z :=
  map (fun c => JS.charCode c mod 10)%Z (list_ascii_of_string text).

Lemma encode_from_digits (dim : nat) (a : string) :
  forall b i vec, digits a = digits b -> encode_from dim i a vec = encode_from dim i b vec.
Proof.
  induction a as [|c a IH]; intros [|c' b] i vec Heq; try discriminate Heq; [reflexivity|].
  unfold digits in Heq. cbn [list_ascii_of_string map] in Heq.
  injection Heq as Hc Hrest. cbn [encode_from]. rewrite Hc. apply IH, Hrest.
Qed.

Lemma encode_from_length (dim : nat) (text : string) :
  forall i vec, length (encode_from dim i text vec) = length vec.
Proof.
  induction text as [|c text IH]; intros i vec; cbn [encode_from]; [reflexivity|].
  rewrite IH. apply length_alter.
Qed.

Lemma encode_from_nil (text : string) : forall i, encode_from 0 i text [] = [].
Proof. induction text as [|c text IH]; intros i; cbn [encode_from]; [reflexivity | apply IH]. Qed.

Lemma encodeToVector_0 (text : string) : encodeToVector text 0 = [].
Proof. apply encode_from_nil. Qed.

(** X15. What the scoring reads of the texts. A vector has as many
    entries as its dimension: 128 for the generated text, and [k] for
    the document at index [k] of the retrieval, so that the first
    document is the empty vector whatever it says and can be replaced
    by any other without changing a score. A vector depends on its
    text only through the last decimal digit of each code unit: two
    texts with the same digits in the same places have the same vector
    at every dimension, hence the same similarity against any
    documents, and count the same as documents at the same place. *)
Theorem encoding_reads_last_digits (a b : string) :
  digits a = digits b ->
  (forall dim,
     length (encodeToVector a dim) = dim /\ encodeToVector a dim = encodeToVector b dim) /\
  (forall documentos,
     calcularSimilaridadeMaxima a documentos = calcularSimilaridadeMaxima b documentos) /\
  (forall texto before after,
     calcularSimilaridadeMaxima texto (before ++ a :: after)%list
     = calcularSimilaridadeMaxima texto (before ++ b :: after)%list) /\
  (forall texto first first' others,
     calcularSimilaridadeMaxima texto (first :: others)
     = calcularSimilaridadeMaxima texto (first' :: others)).
Proof.
  intros Heq.
  assert (Hvec : forall dim, encodeToVector a dim = encodeToVector b dim)
    by (intros dim; apply encode_from_digits, Heq).
  split; [|split; [|split]].
  - intros dim. split; [|apply Hvec].
    unfold encodeToVector. rewrite encode_from_length. apply length_replicate.
  - intros documentos. unfold calcularSimilaridadeMaxima. rewrite Hvec. reflexivity.
  - intros texto before after. unfold calcularSimilaridadeMaxima.
    rewrite !length_app. cbn [length]. rewrite !imap_app, !imap_cons, Hvec. reflexivity.
  - intros texto first first' others. unfold calcularSimilaridadeMaxima.
    cbn [length]. rewrite !imap_cons, !encodeToVector_0. reflexivity.
Qed.

Lemma encoding_reads_last_digits_witness :
  digits "A" = digits "K" /\
  calcularSimilaridadeMaxima "A" ["x"; "A"] = calcularSimilaridadeMaxima "K" ["x"; "A"].
Proof.
  split; [reflexivity|].
  apply (encoding_reads_last_digits "A" "K"). reflexivity.
Defined.

End SpecialistMore.

(** ** The retriever: outages, source names, the sources line *)

Section RetrieverFacts.

Import Retriever.

(** *** The set of source names *)

Lemma existsb_eqb (x : string) (seen : list string) :
  existsb (String.eqb x) seen = true <-> x ∈ seen.
Proof.
  rewrite existsb_exists. split.
  - intros (y & Hy & E). apply String.eqb_eq in E. subst y. apply list_elem_of_In, Hy.
  - intros Hx. exists x. split; [apply list_elem_of_In, Hx | apply String.eqb_refl].
Qed.

Lemma fold_set_add (l : list string) :
  forall seen,
    NoDup seen ->
    NoDup (fold_left set_add l seen) /\
    (forall x, x ∈ fold_left set_add l seen <-> x ∈ seen \/ x ∈ l) /\
    (length (fold_left set_add l seen) <= length seen + length l)%nat.
Proof.
  induction l as [|y l IH]; intros seen Hseen; cbn [fold_left].
  - split; [exact Hseen|]. split; [|cbn [length]; lia].
    intros x. rewrite elem_of_nil. tauto.
  - unfold set_add at 2 4 6. destruct (existsb (String.eqb y) seen) eqn:E.
    + apply existsb_eqb in E. destruct (IH seen Hseen) as (Hnd & Hin & Hlen).
      split; [exact Hnd|]. split; [|cbn [length]; lia].
      intros x. rewrite Hin, elem_of_cons. split; [tauto|].
      intros [H|[->|H]]; tauto.
    + assert (Hy : y ∉ seen).
      { intros H. apply existsb_eqb in H. congruence. }
      destruct (IH (seen ++ [y])%list) as (Hnd & Hin & Hlen).
      { apply NoDup_app. split; [exact Hseen|]. split; [|apply NoDup_singleton].
        intros x Hx Hxy. apply list_elem_of_singleton in Hxy. subst x. exact (Hy Hx). }
      split; [exact Hnd|]. split.
      * intros x. rewrite Hin, elem_of_app, list_elem_of_singleton, elem_of_cons. tauto.
      * rewrite length_app in Hlen. cbn [length] in *. lia.
Qed.

Lemma unique_spec (l : list string) :
  NoDup (unique l) /\ (forall x, x ∈ unique l <-> x ∈ l) /\ (length (unique l) <= length l)%nat.
Proof.
  destruct (fold_set_add l [] (NoDup_nil_2)) as (Hnd & Hin & Hlen).
  split; [exact Hnd|]. split; [|exact Hlen].
  intros x. unfold unique. rewrite Hin, elem_of_nil. tauto.
Qed.

(** *** Labels *)

Lemma label_from_truthy (meta : Metadata) (keys : list string) (label : string) :
  label_from meta keys = Some label -> JS.truthy label = true.
Proof.
  induction keys as [|k keys IH]; cbn [label_from]; [discriminate|].
  destruct (meta !! k) as [v|]; [|exact IH].
  destruct (JS.truthy v) eqn:Hv; [|exact IH].
  intros H. injection H as <-.
  destruct (JS.truthy (JS.split_pop "/" v)) eqn:Hb; [exact Hb | exact Hv].
Qed.

Lemma label_of_truthy (meta : option Metadata) : JS.truthy (label_of meta) = true.
Proof.
  unfold label_of. destruct meta as [meta|]; [|reflexivity].
  destruct (label_from meta label_keys) as [label|] eqn:E; [|reflexivity].
  rewrite (label_from_truthy meta label_keys label E). exact (label_from_truthy _ _ _ E).
Qed.

(** X16. The source names of a retrieval are the labels of the metadata
    records of the first query text, each once: no name is repeated,
    none is empty, every label is among them, and there are at most as
    many as records. The documents are those of the first query text,
    unchanged, and the context is made of these documents. ChromaDB is
    called once. *)
Theorem source_names_are_the_labels
  (cfg : Config) (world : World) (collectionName queryText : string) (nResults : option Z) :
  let results := fst (queryCollection cfg world collectionName queryText nResults) in
  let records := first_or_empty (metadatas results) in
  let '(formattedContext, sourceNames, rawDocuments, effects) :=
    retrieveAndFormat cfg world collectionName queryText nResults in
  NoDup sourceNames /\
  Forall (fun n => JS.truthy n = true) sourceNames /\
  (forall n, n ∈ sourceNames <-> exists meta, meta ∈ records /\ n = label_of meta) /\
  (length sourceNames <= length records)%nat /\
  rawDocuments = first_or_empty (documents results) /\
  formattedContext = formatContextForLLM rawDocuments /\
  length (List.filter (fun e => match e with HttpPost _ _ => true | _ => false end) effects)
    = 1%nat.
Proof.
  intros results records. subst records results. unfold retrieveAndFormat.
  destruct (queryCollection cfg world collectionName queryText nResults)
    as [results effects] eqn:Hq.
  cbn [fst].
  destruct (unique_spec (map label_of (first_or_empty (metadatas results))))
    as (Hnd & Hin & Hlen).
  split; [exact Hnd|]. split.
  { rewrite Forall_forall. intros n Hn. apply Hin, list_elem_of_fmap in Hn.
    destruct Hn as (meta & -> & _). apply label_of_truthy. }
  split.
  { intros n. rewrite Hin. rewrite list_elem_of_fmap. split.
    - intros (meta & -> & Hm). exists meta. split; [exact Hm | reflexivity].
    - intros (meta & Hm & ->). exists meta. split; [reflexivity | exact Hm]. }
  split; [rewrite length_map in Hlen; exact Hlen|].
  split; [reflexivity|]. split; [reflexivity|].
  unfold queryCollection in Hq.
  destruct (post world _ _); injection Hq as _ <-; reflexivity.
Qed.

(** *** The specialist agent on top of this retriever *)

(** The world of the specialist agent when its retriever is this one;
    [retrieveAndFormat] catches the failures of ChromaDB, so it always
    resolves. *)
Definition with_retriever (cfg : Config) (world : World)
  (model : list string -> float -> nat -> outcome string) : Specialist.World :=
  Specialist.mkWorld
    (fun collectionName queryText nResults =>
       Resolved (fst (retrieveAndFormat cfg world collectionName queryText (Some nResults))))
    model.

Lemma retrieve_outage (cfg : Config) (world : World) (collectionName queryText : string)
  (nResults : option Z) :
  (forall url body, exists message, post world url body = Thrown message) ->
  fst (retrieveAndFormat cfg world collectionName queryText nResults)
  = ("<RAG>Nenhum contexto encontrado.</RAG>", [], []).
Proof.
  intros Hdown. unfold retrieveAndFormat, queryCollection.
  match goal with |- context [post world ?u ?b] => destruct (Hdown u b) as [message ->] end.
  reflexivity.
Qed.

(** X17. A ChromaDB that cannot be reached never makes [/execute] fail:
    with this retriever every authorised request with a query is
    answered 200, never 500, and while ChromaDB is down the answer is
    the refusal text and the line [Fontes: -], with no source, no
    chosen temperature and similarity 0, whatever the model
    generates. *)
Theorem chroma_outage_is_a_refusal
  (rcfg : Config) (rworld : World) (model : list string -> float -> nat -> outcome string)
  (cfg : Specialist.Config) (req : Specialist.Request) (query : string) :
  authorised cfg req ->
  Specialist.payload_query req = Some query ->
  JS.truthy query = true ->
  Specialist.status (Specialist.execute cfg (with_retriever rcfg rworld model) req) = 200 /\
  ((forall url body, exists message, post rworld url body = Thrown message) ->
   Specialist.execute cfg (with_retriever rcfg rworld model) req
   = Specialist.mkResponse 200
       (Specialist.Answer
          (Specialist.respostaPadrao +:+ JS.nl +:+ JS.nl +:+ "Fontes: -")
          (Specialist.respostaPadrao +:+ JS.nl +:+ JS.nl +:+ "Fontes: -")
          [] None 0%float)).
Proof.
  intros Hauth Hq Htruthy.
  rewrite (execute_authorised cfg (with_retriever rcfg rworld model) req Hauth).
  rewrite Hq. change (JS.or_empty (Some query)) with query. cbv zeta.
  rewrite Htruthy. cbn [negb with_retriever Specialist.retrieveAndFormat].
  split.
  - destruct (fst (retrieveAndFormat rcfg rworld "Boas_Praticas_IA" query (Some 6)))
      as [[ragContext sourceNames] rawDocs].
    destruct (Specialist.choose _) as [[chosen t] s]. reflexivity.
  - intros Hdown. rewrite (retrieve_outage rcfg rworld _ _ _ Hdown).
    pose proof (generate_no_documents (with_retriever rcfg rworld model)
                  [Specialist.SYSTEM_PROMPT; "<RAG>Nenhum contexto encontrado.</RAG>"; query]
                  Specialist.temps 0%nat) as Hzero.
    unfold Specialist.choose, Specialist.candidates_of.
    replace (List.filter Specialist.isAnchor _) with (@nil Specialist.Candidate);
      [reflexivity|].
    symmetry. induction Hzero as [|c l [_ Hc] _ IH]; [reflexivity|].
    cbn [List.filter]. rewrite Hc. exact IH.
Qed.

Definition chroma_cfg : Config := mkConfig "http://localhost:8000" 6.

Definition chroma_down : World := mkWorld (fun _ _ => Thrown "connect ECONNREFUSED").

Lemma chroma_outage_is_a_refusal_witness :
  authorised tie_cfg tie_request /\
  Specialist.payload_query tie_request = Some "etica" /\
  JS.truthy "etica" = true /\
  Specialist.status
    (Specialist.execute tie_cfg
       (with_retriever chroma_cfg chroma_down (fun _ _ _ => Resolved "A resposta."))
       tie_request) = 200.
Proof.
  do 3 (split; [reflexivity|]).
  apply (chroma_outage_is_a_refusal chroma_cfg chroma_down (fun _ _ _ => Resolved "A resposta.")
           tie_cfg tie_request "etica"); reflexivity.
Defined.

(** *** Base names *)

(** The text holds no separator. *)
Fixpoint free_of (sep : ascii) (s : string) : bool :=
  match s with
  | EmptyString => true
  | String c s' => negb (Ascii.eqb c sep) && free_of sep s'
  end.

Lemma append_cons (c : ascii) (a b : string) : String c a +:+ b = String c (a +:+ b).
Proof. reflexivity. Qed.

Lemma append_nil_r (a : string) : a +:+ "" = a.
Proof. induction a as [|c a IH]; [reflexivity | rewrite append_cons, IH; reflexivity]. Qed.




Lemma append_assoc (a b c : string) : (a +:+ b) +:+ c = a +:+ (b +:+ c).
Proof. induction a as [|x a IH]; [reflexivity | rewrite !append_cons, IH; reflexivity]. Qed.












Definition guia_meta : Metadata := {[ "source" := "docs/guia.pdf" ]}.



End RetrieverFacts.

(** ** The conversation log: the context block, sessions *)

Section MonitorFacts.

Import Monitor.

(** *** Reading a text around and inside a block *)

Lemma startsWith_cons_neq (c x : ascii) (s k : string) :
  Ascii.eqb c x = false -> JS.startsWith (String c s) (String x k) = false.
Proof. intros H. cbn [JS.startsWith]. rewrite Ascii.eqb_sym, H. reflexivity. Qed.

Lemma strip_keeps_plain (plain rest : string) :
  free_of "<" plain = true ->
  strip false 0 (plain +:+ rest) = plain +:+ strip false 0 rest.
Proof.
  induction plain as [|c plain IH]; intros Hfree; [reflexivity|].
  cbn [free_of] in Hfree. apply andb_true_iff in Hfree as [Hc Hplain].
  apply negb_true_iff in Hc. rewrite !append_cons. cbn [strip].
  rewrite (startsWith_cons_neq c "<" _ _ Hc). cbn [andb]. rewrite (IH Hplain). reflexivity.
Qed.

Lemma strip_drops_plain (plain rest : string) :
  free_of "<" plain = true ->
  strip true 0 (plain +:+ rest) = strip true 0 rest.
Proof.
  induction plain as [|c plain IH]; intros Hfree; [reflexivity|].
  cbn [free_of] in Hfree. apply andb_true_iff in Hfree as [Hc Hplain].
  apply negb_true_iff in Hc. rewrite append_cons. cbn [strip].
  rewrite (startsWith_cons_neq c "<" _ _ Hc). apply IH, Hplain.
Qed.

(** A tag that begins in [a] and ends behind it holds the unit that
    follows [a]. *)
Lemma startsWith_before (x : ascii) (k : string) :
  free_of x k = true ->
  forall a r, JS.startsWith (a +:+ String x r) k = true -> JS.startsWith a k = true.
Proof.
  induction k as [|y k IH]; intros Hfree a r H; [reflexivity|].
  cbn [free_of] in Hfree. apply andb_true_iff in Hfree as [Hy Hk].
  apply negb_true_iff in Hy.
  destruct a as [|b a].
  - change ("" +:+ String x r) with (String x r) in H. cbn [JS.startsWith] in H.
    rewrite Hy in H. discriminate H.
  - rewrite append_cons in H. cbn [JS.startsWith] in H |- *.
    destruct (Ascii.eqb y b); [|discriminate H]. exact (IH Hk a r H).
Qed.

Lemma includes_cons (c : ascii) (s k : string) :
  JS.includes (String c s) k = JS.startsWith (String c s) k || JS.includes s k.
Proof. reflexivity. Qed.

Lemma strip_drops_document (d rest : string) :
  JS.includes d "</RAG>" = false ->
  strip true 0 (d +:+ JS.nl +:+ rest) = strip true 0 (JS.nl +:+ rest).
Proof.
  induction d as [|c d IH]; intros Hd; [reflexivity|].
  rewrite includes_cons in Hd. apply orb_false_iff in Hd as [Hhere Hlater].
  rewrite append_cons. cbn [strip].
  destruct (JS.startsWith (String c (d +:+ JS.nl +:+ rest)) "</RAG>") eqn:E.
  - rewrite <- append_cons in E.
    change (JS.nl +:+ rest) with (String (ascii_of_nat 10) rest) in E.
    apply startsWith_before in E; [congruence | reflexivity].
  - apply IH, Hlater.
Qed.

(** The blocks [_formatContextForLLM] writes, one per document. *)
Fixpoint blocks (documents : list string) : string :=
  match documents with
  | [] => ""
  | d :: documents' =>
      (JS.nl +:+ "---" +:+ JS.nl +:+ d +:+ JS.nl +:+ "---" +:+ JS.nl) +:+ blocks documents'
  end.

Lemma fold_blocks (documents : list string) :
  forall ctx,
    fold_left
      (fun ctx d => ctx +:+ (JS.nl +:+ "---" +:+ JS.nl +:+ d +:+ JS.nl +:+ "---" +:+ JS.nl))
      documents ctx
    = ctx +:+ blocks documents.
Proof.
  induction documents as [|d documents IH]; intros ctx; cbn [fold_left blocks].
  - rewrite append_nil_r. reflexivity.
  - rewrite IH, append_assoc. reflexivity.
Qed.

Lemma strip_drops_blocks (documents : list string) (rest : string) :
  Forall (fun d => JS.includes d "</RAG>" = false) documents ->
  strip true 0 (blocks documents +:+ rest) = strip true 0 rest.
Proof.
  induction 1 as [|d documents Hd _ IH]; [reflexivity|].
  cbn [blocks]. rewrite !append_assoc.
  rewrite (strip_drops_plain JS.nl) by reflexivity.
  rewrite (strip_drops_plain "---") by reflexivity.
  rewrite (strip_drops_plain JS.nl) by reflexivity.
  rewrite (strip_drops_document d _ Hd).
  rewrite (strip_drops_plain JS.nl) by reflexivity.
  rewrite (strip_drops_plain "---") by reflexivity.
  rewrite (strip_drops_plain JS.nl) by reflexivity.
  exact IH.
Qed.

Lemma startsWith_append (k r : string) : JS.startsWith (k +:+ r) k = true.
Proof.
  induction k as [|c k IH]; [reflexivity|].
  rewrite append_cons. cbn [JS.startsWith]. rewrite Ascii.eqb_refl. exact IH.
Qed.

Lemma includes_here (s k : string) : JS.startsWith s k = true -> JS.includes s k = true.
Proof. intros H. destruct s; cbn [JS.includes]; rewrite H; reflexivity. Qed.

Lemma includes_append (p r k : string) :
  JS.includes r k = true -> JS.includes (p +:+ r) k = true.
Proof.
  intros H. induction p as [|c p IH]; [exact H|].
  rewrite append_cons, includes_cons, IH. apply orb_true_r.
Qed.

(** A block that is closed somewhere is opened. *)
Lemma strip_opens (r : string) :
  JS.includes r "</RAG>" = true -> strip false 0 ("<RAG>" +:+ r) = strip true 0 r.
Proof.
  intros H.
  change (strip false 0 ("<RAG>" +:+ r))
    with (if JS.startsWith ("<RAG>" +:+ r) "<RAG>" && JS.includes r "</RAG>"
          then strip true 0 r
          else String "<" (strip false 0 ("RAG>" +:+ r))).
  rewrite H, (startsWith_append "<RAG>" r). reflexivity.
Qed.

Lemma strip_closes (rest : string) : strip true 0 ("</RAG>" +:+ rest) = strip false 0 rest.
Proof. reflexivity. Qed.

(** X19. [removeBetweenRagTags] takes the context of the retriever out
    of a text without touching what is around it: for documents that do
    not hold the closing tag themselves, a text made of a part without
    [<], the formatted context and any rest is turned into the first
    part followed by what the function makes of the rest. In
    particular the formatted context alone is turned into the empty
    string, also when no document was found. *)
Theorem rag_context_is_removed (documents : list string) (before rest : string) :
  free_of "<" before = true ->
  Forall (fun d => JS.includes d "</RAG>" = false) documents ->
  removeBetweenRagTags (before +:+ Retriever.formatContextForLLM documents +:+ rest)
  = before +:+ removeBetweenRagTags rest /\
  removeBetweenRagTags (Retriever.formatContextForLLM documents) = "".
Proof.
  intros Hbefore Hdocs.
  assert (Hmain : forall before rest, free_of "<" before = true ->
            removeBetweenRagTags (before +:+ Retriever.formatContextForLLM documents +:+ rest)
            = before +:+ removeBetweenRagTags rest).
  { clear before rest Hbefore. intros before rest Hbefore.
    unfold removeBetweenRagTags. rewrite (strip_keeps_plain before _ Hbefore). f_equal.
    unfold Retriever.formatContextForLLM. destruct documents as [|d documents].
    - change (strip false 0 ("<RAG>" +:+ "Nenhum contexto encontrado." +:+ "</RAG>" +:+ rest)
              = strip false 0 rest).
      rewrite strip_opens.
      + rewrite strip_drops_plain by reflexivity. apply strip_closes.
      + apply includes_append, includes_here, startsWith_append.
    - change (length (d :: documents) =? 0)%nat with false. cbv iota.
      rewrite fold_blocks.
      change ("<RAG> Contexto recuperado:" +:+ JS.nl)
        with ("<RAG>" +:+ " Contexto recuperado:" +:+ JS.nl).
      rewrite !append_assoc.
      rewrite strip_opens.
      + rewrite (strip_drops_plain " Contexto recuperado:") by reflexivity.
        rewrite (strip_drops_plain JS.nl) by reflexivity.
        rewrite (strip_drops_blocks _ _ Hdocs). apply strip_closes.
      + do 3 apply includes_append. apply includes_here, startsWith_append. }
  split; [apply Hmain, Hbefore|].
  specialize (Hmain "" "" eq_refl).
  change ("" +:+ Retriever.formatContextForLLM documents +:+ "")
    with (Retriever.formatContextForLLM documents +:+ "") in Hmain.
  rewrite append_nil_r in Hmain. exact Hmain.
Qed.

Lemma rag_context_is_removed_witness :
  free_of "<" "Pergunta: " = true /\
  Forall (fun d => JS.includes d "</RAG>" = false) ["Use IA com etica."; "a < b"] /\
  removeBetweenRagTags (Retriever.formatContextForLLM ["Use IA com etica."; "a < b"]) = "".
Proof.
  assert (H : Forall (fun d => JS.includes d "</RAG>" = false) ["Use IA com etica."; "a < b"])
    by (repeat constructor).
  split; [reflexivity|]. split; [exact H|].
  apply (rag_context_is_removed ["Use IA com etica."; "a < b"] "Pergunta: " "" eq_refl H).
Defined.

(** *** Texts without a closed block *)

Lemma includes_slice (k : string) (n : nat) :
  forall s, JS.includes s k = false -> JS.includes (JS.slice n s) k = false.
Proof.
  induction n as [|n IH]; intros s H; [destruct s; exact H|].
  destruct s as [|c s]; [exact H|].
  cbn [JS.slice]. apply IH. rewrite includes_cons in H. apply orb_false_iff in H. tauto.
Qed.

Lemma strip_length (s : string) :
  forall inside skip, (String.length (strip inside skip s) <= String.length s)%nat.
Proof.
  induction s as [|c s IH]; intros inside skip; cbn [strip String.length]; [lia|].
  destruct skip as [|n]; [|specialize (IH inside n); lia].
  destruct inside.
  - destruct (JS.startsWith _ _); [specialize (IH false 5%nat) | specialize (IH true 0%nat)]; lia.
  - destruct (_ && _); [specialize (IH true 4%nat); lia|].
    cbn [String.length]. specialize (IH false 0%nat). lia.
Qed.

(** X20. [removeBetweenRagTags] only removes: its result is never
    longer than its input; and it removes nothing from a text in which
    no block is both opened and closed: a text without [<RAG>], or
    without [</RAG>], comes back as it is. *)
Theorem text_without_block_is_kept (input : string) :
  (String.length (removeBetweenRagTags input) <= String.length input)%nat /\
  (JS.includes input "<RAG>" = false \/ JS.includes input "</RAG>" = false ->
   removeBetweenRagTags input = input).
Proof.
  split; [apply strip_length|].
  unfold removeBetweenRagTags. induction input as [|c input IH]; intros H; [reflexivity|].
  cbn [strip].
  assert (Hcond : JS.startsWith (String c input) "<RAG>"
                  && JS.includes (JS.slice 5 (String c input)) "</RAG>" = false).
  { destruct H as [H|H].
    - rewrite includes_cons in H. apply orb_false_iff in H as [-> _]. reflexivity.
    - rewrite (includes_slice _ 5 _ H). apply andb_false_r. }
  rewrite Hcond, IH; [reflexivity|].
  destruct H as [H|H]; [left|right]; rewrite includes_cons in H;
    apply orb_false_iff in H; tauto.
Qed.

(** *** Sessions *)

(** One call of [appendConversation], with the clock at the call. *)
Record Append := mkAppend {
  a_message : Message;
  a_sender : option string;
  a_receiver : option string;
  a_uuid : option string;
  a_time : Z
}.

Definition stored_of (a : Append) : StoredMessage :=
  mkStored (a_sender a) (content_of (a_message a)) (a_receiver a) (a_time a).

(** The calls of [ops] one after the other, every write answered. *)
Fixpoint appends (st : State) (ops : list Append) : State :=
  match ops with
  | [] => st
  | a :: ops' =>
      appends
        (snd (appendConversation (Resolved tt) (a_time a) st (a_message a)
                (a_sender a) (a_receiver a) (a_uuid a) None))
        ops'
  end.

(** The state with nothing logged: connected to MongoDB or not. *)
Definition nothing_logged (connected : bool) : State :=
  mkState (if connected then Some ∅ else None) ∅.

(** The calls of one session: in the collection a session is a uuid,
    in the fallback store it is a property name. *)
Definition same_session (connected : bool) (uuid : option string) (a : Append) : bool :=
  if connected then bool_decide (a_uuid a = uuid)
  else String.eqb (key_of (a_uuid a)) (key_of uuid).

Definition messages_of (docs : gmap (option string) Doc) (uuid : option string)
  : list StoredMessage :=
  match docs !! uuid with
  | Some doc => messages doc
  | None => []
  end.

(** A store that holds no array under a name of [Object.prototype]:
    the store of the start, and every store after it. *)
Definition plain_store (store : gmap string (list StoredMessage)) : Prop :=
  forall key, Obj.inherited key = true -> store !! key = None.

Lemma appends_fallback (ops : list Append) (key : string) :
  forall store,
    plain_store store ->
    collection (appends (mkState None store) ops) = None /\
    plain_store (inMemoryStore (appends (mkState None store) ops)) /\
    (Obj.inherited key = false ->
     default [] (inMemoryStore (appends (mkState None store) ops) !! key)
     = (default [] (store !! key)
        ++ map stored_of (List.filter (fun a => String.eqb (key_of (a_uuid a)) key) ops))%list).
Proof.
  induction ops as [|a ops IH]; intros store Hplain; cbn [appends List.filter map].
  - rewrite app_nil_r. auto.
  - unfold appendConversation. cbn [collection inMemoryStore snd].
    unfold reads_member.
    destruct (Obj.inherited (key_of (a_uuid a))) eqn:Hin.
    + rewrite (Hplain _ Hin). cbn [snd].
      destruct (IH store Hplain) as (Hc & Hp & Hs).
      split; [exact Hc|]. split; [exact Hp|]. intros Hkey. rewrite (Hs Hkey).
      destruct (String.eqb (key_of (a_uuid a)) key) eqn:E; [|reflexivity].
      apply String.eqb_eq in E. congruence.
    + replace (match store !! key_of (a_uuid a) with
               | Some _ => false | None => false end) with false
        by (destruct (store !! key_of (a_uuid a)); reflexivity).
      cbn [snd].
      set (store' := <[key_of (a_uuid a) :=
                         (default [] (store !! key_of (a_uuid a)) ++
                          [mkStored (a_sender a) (content_of (a_message a)) (a_receiver a)
                             (a_time a)])%list]> store).
      assert (Hplain' : plain_store store').
      { intros k Hk. unfold store'. rewrite lookup_insert_ne by congruence. exact (Hplain k Hk). }
      destruct (IH store' Hplain') as (Hc & Hp & Hs).
      split; [exact Hc|]. split; [exact Hp|]. intros Hkey. rewrite (Hs Hkey). unfold store'.
      destruct (String.eqb (key_of (a_uuid a)) key) eqn:E.
      * apply String.eqb_eq in E. rewrite E, lookup_insert_eq. cbn [default id map].
        rewrite <- app_assoc. reflexivity.
      * apply String.eqb_neq in E. rewrite lookup_insert_ne by exact E. reflexivity.
Qed.

Lemma appends_connected (ops : list Append) (uuid : option string) :
  forall docs store,
    exists docs',
      appends (mkState (Some docs) store) ops = mkState (Some docs') store /\
      messages_of docs' uuid
      = (messages_of docs uuid
         ++ map stored_of (List.filter (fun a => bool_decide (a_uuid a = uuid)) ops))%list.
Proof.
  induction ops as [|a ops IH]; intros docs store; cbn [appends List.filter map].
  - exists docs. rewrite app_nil_r. split; reflexivity.
  - unfold appendConversation. cbn [collection inMemoryStore snd].
    match goal with |- context [mkState (Some ?d) store] =>
      destruct (IH d store) as (docs' & Heq & Hm) end.
    exists docs'. split; [exact Heq|]. rewrite Hm. unfold messages_of.
    destruct (bool_decide (a_uuid a = uuid)) eqn:E.
    + apply bool_decide_eq_true in E. rewrite E, lookup_insert_eq.
      destruct (docs !! uuid) as [doc|]; cbn [messages map];
        rewrite <- ?app_assoc; reflexivity.
    + apply bool_decide_eq_false in E. rewrite lookup_insert_ne by exact E. reflexivity.
Qed.

(** X21. What [getContext] gives back after any number of writes on an
    empty log: the messages of the session asked for, in the order they
    were written and with sender, text, destination and time as given,
    and nothing of the other sessions. Connected to MongoDB a session is
    a uuid and a context of more than 5 messages comes back as one
    string, [LLM_STUB_RESPONSE: ] followed by the texts joined by line
    breaks; in the fallback store a session is a property name, so that
    a missing uuid and the uuid [undefined] are the same session, and
    the messages come back as a list however many they are. The
    fallback store cannot hold a session named like a member of
    [Object.prototype] ([constructor], [toString], [__proto__], ...):
    every write to it throws and leaves the store as it was, and
    [getContext] gives back that member, whatever was written. *)
Theorem context_of_session (connected : bool) (ops : list Append) (uuid : option string) :
  let msgs := map stored_of (List.filter (same_session connected uuid) ops) in
  getContext (Resolved tt) (appends (nothing_logged connected) ops) uuid
  = Resolved
      (if connected
       then if (5 <? length msgs)%nat
            then Summary ("LLM_STUB_RESPONSE: " +:+ JS.join JS.nl (map message msgs))
            else Messages msgs
       else if Obj.inherited (key_of uuid) then Member (key_of uuid)
            else Messages msgs) /\
  (connected = false ->
   forall st a,
     collection st = None ->
     reads_member (inMemoryStore st) (key_of (a_uuid a)) = true ->
     appendConversation (Resolved tt) (a_time a) st (a_message a) (a_sender a) (a_receiver a)
       (a_uuid a) None
     = (Thrown no_push, st)).
Proof.
  intros msgs. subst msgs. split.
  - unfold nothing_logged, same_session, getContext.
    destruct connected.
    + destruct (appends_connected ops uuid ∅ ∅) as (docs' & -> & Hm).
      cbn [collection]. unfold messages_of in Hm. rewrite lookup_empty in Hm.
      cbn [app] in Hm. rewrite <- Hm.
      destruct (docs' !! uuid) as [doc|]; [|reflexivity].
      unfold invokeModel. destruct (5 <? length (messages doc))%nat; reflexivity.
    + assert (H0 : plain_store ∅) by (intros k _; apply lookup_empty).
      destruct (appends_fallback ops (key_of uuid) ∅ H0) as (-> & Hp & Hs).
      cbv zeta. unfold reads_member.
      destruct (Obj.inherited (key_of uuid)) eqn:Hin.
      * rewrite (Hp _ Hin). reflexivity.
      * rewrite (Hs eq_refl), lookup_empty.
        destruct (inMemoryStore _ !! key_of uuid); reflexivity.
  - intros _ st a Hc Hrd. unfold appendConversation. rewrite Hc. cbv zeta. rewrite Hrd.
    reflexivity.
Qed.

End MonitorFacts.

(** ** The specialist agent and its log *)

Section SpecialistLogFacts.

Import Specialist.

(** X22. The log never changes what [/execute] answers: whatever
    MongoDB does with the two writes, the response is the one of the
    handler without its log. A request that is not answered 200 is not
    logged at all. A request answered 200 on the fallback store adds
    exactly two messages to its session, the query from the sender to
    the agent and then the final answer from the agent to the sender,
    and leaves every other session as it was; a request without uuid is
    logged in the session named [undefined]. The exception is a uuid
    under which the store reads a member of [Object.prototype]: both
    writes throw, the log does not change and the request costs two
    warnings. With MongoDB connected and failing both writes the log
    does not change either, at the cost of two warnings. *)
Theorem answered_requests_are_logged
  (cfg : Config) (world : World) (mongo1 mongo2 : outcome unit) (now1 now2 : Z)
  (log : Monitor.State) (req : Request) :
  let '(response, log', effects) :=
    SpecialistLog.execute cfg world mongo1 mongo2 now1 now2 log req in
  let key := Monitor.key_of (payload_uuid req) in
  response = execute cfg world req /\
  (status response <> 200 -> log' = log /\ effects = []) /\
  (status response = 200 ->
   Monitor.collection log = None ->
   Monitor.reads_member (Monitor.inMemoryStore log) key = false ->
   effects = [] /\
   exists answer sources t s,
     body response = Answer answer answer sources t s /\
     log' =
       Monitor.mkState None
         (<[key := (default [] (Monitor.inMemoryStore log !! key)
                    ++ [Monitor.mkStored (sender_agent_id req) (JS.or_empty (payload_query req))
                          (Some (AGENT_ID cfg)) now1;
                        Monitor.mkStored (Some (AGENT_ID cfg)) answer
                          (sender_agent_id req) now2])%list]>
            (Monitor.inMemoryStore log))) /\
  (status response = 200 ->
   Monitor.collection log = None ->
   Monitor.reads_member (Monitor.inMemoryStore log) key = true ->
   log' = log /\
   effects = [SpecialistLog.ConsoleWarn "ai_guide_agent: falha append input" Monitor.no_push;
              SpecialistLog.ConsoleWarn "ai_guide_agent: falha append resposta"
                Monitor.no_push]) /\
  (status response = 200 ->
   is_Some (Monitor.collection log) ->
   forall e1 e2,
     mongo1 = Thrown e1 ->
     mongo2 = Thrown e2 ->
     log' = log /\
     effects = [SpecialistLog.ConsoleWarn "ai_guide_agent: falha append input" e1;
                SpecialistLog.ConsoleWarn "ai_guide_agent: falha append resposta" e2]).
Proof.
  unfold SpecialistLog.execute, execute.
  destruct (authorization req) as [auth|].
  2:{ cbn [status]. repeat split; try discriminate; reflexivity. }
  destruct (negb (JS.truthy auth)
            || negb (String.eqb auth ("Bearer " +:+ AGENT_SECRET_TOKEN cfg))).
  { cbn [status]. repeat split; try discriminate; reflexivity. }
  destruct (negb (JS.truthy (JS.or_empty (payload_query req)))).
  { cbn [status]. repeat split; try discriminate; reflexivity. }
  destruct (retrieveAndFormat world "Boas_Praticas_IA" (JS.or_empty (payload_query req)) 6)
    as [[[ragContext sourceNames] rawDocs]|message].
  2:{ cbn [status]. repeat split; try discriminate; reflexivity. }
  destruct (choose _) as [[respostaFinal bestTemp] bestScore].
  unfold Monitor.appendConversation.
  destruct (Monitor.collection log) as [docs|] eqn:Hc.
  - destruct mongo1 as [[]|e1]; destruct mongo2 as [[]|e2];
      cbn [Monitor.collection Monitor.inMemoryStore status body];
      try rewrite Hc;
      (split; [reflexivity|]); (split; [intros H; exfalso; apply H; reflexivity|]);
      (split; [intros _ H; discriminate H|]);
      (split; [intros _ H; discriminate H|]);
      intros _ _ x1 x2 H1 H2; try discriminate H1; try discriminate H2.
    injection H1 as <-. injection H2 as <-. split; reflexivity.
  - cbv zeta.
    destruct (Monitor.reads_member (Monitor.inMemoryStore log)
                (Monitor.key_of (payload_uuid req))) eqn:Hrd.
    + rewrite Hc, Hrd. cbn [status body].
      split; [reflexivity|]. split; [intros H; exfalso; apply H; reflexivity|].
      split; [intros _ _ H; discriminate H|].
      split; [intros _ _ _; split; reflexivity|].
      intros _ [x Hx]. discriminate Hx.
    + cbn [Monitor.collection Monitor.inMemoryStore].
      unfold Monitor.reads_member at 1. rewrite lookup_insert_eq.
      cbn [status body].
      split; [reflexivity|]. split; [intros H; exfalso; apply H; reflexivity|].
      split.
      * intros _ _ _. split; [reflexivity|].
        eexists _, _, _, _. split; [reflexivity|].
        rewrite insert_insert_eq. cbn [default id].
        rewrite <- app_assoc. reflexivity.
      * split; [intros _ _ H; discriminate H|].
        intros _ [x Hx]. discriminate Hx.
Qed.

End SpecialistLogFacts.

(** ** The interface in front of the host agent *)

Section UIFacts.

Import Host.

(** The statuses of [/query]. *)
Lemma post_query_status cfg world st req :
  let s := status (fst (fst (post_query cfg world st req))) in
  (s = 400 <-> JS.truthy (JS.or_empty (query req)) = false) /\
  (s = 400 \/ s = 200 \/ s = 500 \/ s = 502 \/ s = 503).
Proof.
  destruct (post_query_shape cfg world st req)
    as [(Hq & ->)|[(Hq & Hcalls)|(text & decision & tok & info & Hrouted)]]; cbn [fst status].
  - split; [tauto | left; reflexivity].
  - clear Hcalls. unfold post_query. rewrite Hq. cbn [negb].
    destruct (fetchToolsFromRegistry cfg world st) as [st' fetched].
    destruct (length (discoveredTools st') =? 0)%nat;
      [cbn [fst status]; split; [split; [discriminate | congruence] | tauto]|].
    destruct (isCapabilitiesQuery _);
      [cbn [fst status]; split; [split; [discriminate | congruence] | tauto]|].
    cbn [delegateToLLM].
    destruct (heuristicRoute st' _) as [decision|];
      [|cbn [fst status]; split; [split; [discriminate | congruence] | tauto]].
    destruct (read_secret cfg (decision_owner decision)) as [tok|];
      [|cbn [fst status]; split; [split; [discriminate | congruence] | tauto]].
    destruct (read_base_url st' (decision_owner decision)) as [info|];
      [|cbn [fst status]; split; [split; [discriminate | congruence] | tauto]].
    unfold dispatch. destruct (get_health world _).
    + destruct (post_execute world _ _ _); cbn [fst status];
        (split; [split; [discriminate | congruence] | tauto]).
    + cbn [fst status]. split; [split; [discriminate | congruence] | tauto].
  - rewrite (post_query_dispatched _ _ _ _ _ _ _ _ Hrouted). cbn [fst].
    destruct Hrouted as (Hq & Htruthy & _). rewrite Hq.
    change (JS.or_empty (Some text)) with text. rewrite Htruthy.
    unfold dispatch. destruct (get_health world _).
    + destruct (post_execute world _ _ _); cbn [fst status];
        (split; [split; [discriminate | congruence] | tauto]).
    + cbn [fst status]. split; [split; [discriminate | congruence] | tauto].
Qed.

(** X23. [/chat] hands the body of the host's answer to its caller and
    drops the status: whatever the host answers, an error included,
    [/chat] answers 200 with that body. A request without a query is
    answered 400 by [/chat] itself and never reaches the host, so the
    host's own 400 is never the answer behind a [/chat] response; a
    host that cannot be reached gives 502 with the message of the
    failure. The host sees the query and the uuid of the request. *)
Theorem chat_drops_the_host_status
  (cfg : Config) (world : World) (st : State) (req : QueryRequest) :
  let host := fun r => Resolved (fst (fst (post_query cfg world st r))) in
  let answer := fst (fst (post_query cfg world st req)) in
  (JS.truthy (JS.or_empty (query req)) = false ->
   forall h, UI.chat h req = UI.mkResponse 400 (UI.Error "query required")) /\
  (JS.truthy (JS.or_empty (query req)) = true ->
   UI.chat host req = UI.mkResponse 200 (UI.FromHost (body answer)) /\
   status answer <> 400 /\
   (status answer = 200 \/ status answer = 500 \/ status answer = 502 \/ status answer = 503) /\
   forall h message,
     h req = Thrown message -> UI.chat h req = UI.mkResponse 502 (UI.Error message)).
Proof.
  intros host answer. split.
  - intros Hq h. unfold UI.chat. rewrite Hq. reflexivity.
  - intros Hq.
    assert (Hreq : mkQuery (Some (JS.or_empty (query req))) (uuid req) = req).
    { destruct req as [[q|] u]; [reflexivity | discriminate Hq]. }
    destruct (post_query_status cfg world st req) as [H400 Hall]. cbv zeta in H400, Hall.
    fold answer in H400, Hall.
    split; [|split; [|split]].
    + unfold UI.chat. rewrite Hq, Hreq. reflexivity.
    + intros H. apply H400 in H. congruence.
    + destruct Hall as [H|H]; [|exact H]. apply H400 in H. congruence.
    + intros h message Hh. unfold UI.chat. rewrite Hq, Hreq, Hh. reflexivity.
Qed.

End UIFacts.

(** ** The host agent in front of the specialist agent *)

Section EndToEnd.

Import Host.

(** The request the specialist agent receives when the host posts the
    message [m] with the bearer token [bearer]. *)
Definition specialist_request (m : A2AMessage) (bearer : string) : Specialist.Request :=
  Specialist.mkRequest (Some ("Bearer " +:+ bearer)) (Some (payload_query m))
    (payload_uuid m) (Some (sender_agent_id m)).

(** How the host's [axios.post] ends when the specialist agent is the
    one behind the URL: a 200 answer resolves with its fields, any
    other status throws with [e.response], whose JSON body is printed
    as [[object Object]] in a template literal. *)
Definition forwarded_to (scfg : Specialist.Config) (sworld : Specialist.World)
  : string -> A2AMessage -> string -> ForwardOutcome :=
  fun _ m bearer =>
    let r := Specialist.execute scfg sworld (specialist_request m bearer) in
    match Specialist.body r with
    | Specialist.Answer answer result sources t s =>
        Answered (mkResult (Some result) (Some answer) (Some sources) t (Some s))
    | Specialist.Error _ => Refused (Specialist.status r) "[object Object]"
    end.

Lemma truthy_append_r (a b : string) : JS.truthy b = true -> JS.truthy (a +:+ b) = true.
Proof. intros H. destruct a; [exact H | reflexivity]. Qed.

(** X24. The host and the specialist agent together. When the host
    routes a query to the specialist agent, the probe succeeds and the
    token the host holds for the agent is the agent's own, the
    specialist agent never refuses the message (the query of the host
    is never empty): the caller gets 200 with the engine's final text,
    that is the chosen text followed by the sources line, with the
    sources, temperature and similarity of the engine and the routed
    agent and tool as source; if the retriever throws, the caller gets
    502 naming the status 500. When the token differs, the caller gets
    502 naming the status 403 and nothing of the engine. *)
Theorem host_and_specialist_end_to_end
  (cfg : Config) (world : World) (st : State) (req : QueryRequest)
  (text : string) (decision : Decision) (secretToken : string) (agentInfo : PublicPayload)
  (scfg : Specialist.Config) (sworld : Specialist.World) :
  routed cfg world st req text decision secretToken agentInfo ->
  get_health world (base_url agentInfo +:+ "/health") = true ->
  post_execute world = forwarded_to scfg sworld ->
  let answer := fst (fst (post_query cfg world st req)) in
  (secretToken = Specialist.AGENT_SECRET_TOKEN scfg ->
   (forall ragContext sourceNames rawDocs,
      Specialist.retrieveAndFormat sworld "Boas_Praticas_IA" text 6
        = Resolved (ragContext, sourceNames, rawDocs) ->
      exists chosen t s,
        Specialist.choose (Specialist.candidates_of sworld ragContext text rawDocs)
          = (chosen, t, s) /\
        answer =
          mkResponse 200
            (Answer (Some (chosen +:+ JS.nl +:+ JS.nl +:+ Specialist.fontesLine sourceNames))
               (decision_owner decision) (tool_to_use decision)
               (Some sourceNames) t (Some s))) /\
   (forall message,
      Specialist.retrieveAndFormat sworld "Boas_Praticas_IA" text 6 = Thrown message ->
      answer =
        mkResponse 502
          (Error "Erro ao comunicar com o agente especialista: 500 [object Object]"))) /\
  (secretToken <> Specialist.AGENT_SECRET_TOKEN scfg ->
   answer =
     mkResponse 502 (Error "Erro ao comunicar com o agente especialista: 403 [object Object]")).
Proof.
  intros Hrouted Hhealth Hlink answer. subst answer.
  rewrite (post_query_dispatch _ _ _ _ _ _ _ _ Hrouted). cbn [fst].
  destruct (dispatch_live cfg world req text decision secretToken (base_url agentInfo) Hhealth)
    as [_ ->].
  rewrite Hlink. unfold forwarded_to. cbv zeta.
  destruct Hrouted as (Hq & Htruthy & _).
  set (sreq := specialist_request (envelope cfg world req text decision) secretToken).
  split.
  - intros Htok.
    assert (Hauth : authorised scfg sreq) by (unfold authorised; rewrite <- Htok; reflexivity).
    pose proof (execute_authorised scfg sworld sreq Hauth) as Hexec.
    change (JS.or_empty (Specialist.payload_query sreq)) with text in Hexec.
    cbv zeta in Hexec. rewrite Htruthy in Hexec. cbn [negb] in Hexec.
    split.
    + intros ragContext sourceNames rawDocs Hret. rewrite Hret in Hexec.
      destruct (Specialist.choose _) as [[chosen t] s].
      exists chosen, t, s. split; [reflexivity|]. rewrite Hexec.
      cbn [reply Specialist.body sr_result sr_answer sr_sources sr_chosen_temperature
             sr_similarity].
      rewrite truthy_append_r by reflexivity. reflexivity.
    + intros message Hret. rewrite Hret in Hexec. rewrite Hexec. reflexivity.
  - intros Htok.
    assert (Hno : ~ authorised scfg sreq).
    { unfold authorised. intros H. injection H as H. apply Htok. exact H. }
    rewrite (execute_unauthorised scfg sworld sreq Hno). reflexivity.
Qed.

Definition guide_query : QueryRequest := mkQuery (Some "etica") None.

Definition guide_decision : Decision :=
  mkDecision "Guia de IA" "ai-guide-agent" "http://ai:8010/execute".

(** Both agents are up and the guide is the specialist agent of the
    tie. *)
Definition linked : World :=
  mkWorld (Resolved two_agents) (fun _ => true) (fun _ => Resolved tt)
    (forwarded_to tie_cfg tie_world) "0000" "2025-01-01T00:00:00.000Z".

Lemma guide_routed :
  routed host_cfg linked (mkState [] []) guide_query "etica" guide_decision
    "secret" (mkPublic "http://ai:8010" [guia]).
Proof.
  unfold routed. split; [reflexivity|]. split; [reflexivity|].
  split; [vm_compute; discriminate|].
  repeat split; vm_compute; reflexivity.
Qed.

Lemma host_and_specialist_end_to_end_witness :
  routed host_cfg linked (mkState [] []) guide_query "etica" guide_decision
    "secret" (mkPublic "http://ai:8010" [guia]) /\
  get_health linked "http://ai:8010/health" = true /\
  post_execute linked = forwarded_to tie_cfg tie_world /\
  fst (fst (post_query host_cfg linked (mkState [] []) guide_query))
  = mkResponse 200
      (Answer (Some ("K" +:+ JS.nl +:+ JS.nl +:+ "Fontes: guia.pdf")) "ai-guide-agent"
         "Guia de IA" (Some ["docs/guia.pdf"]) (Some 0.6%float) (Some 1%float)).
Proof.
  split; [exact guide_routed|]. split; [reflexivity|]. split; [reflexivity|].
  destruct (host_and_specialist_end_to_end host_cfg linked (mkState [] []) guide_query "etica"
              guide_decision "secret" (mkPublic "http://ai:8010" [guia]) tie_cfg tie_world
              guide_routed eq_refl eq_refl) as [Hsame _].
  destruct (Hsame eq_refl) as [Hok _].
  destruct (Hok "<RAG> x A </RAG>" ["docs/guia.pdf"] ["x"; "A"] eq_refl)
    as (chosen & t & s & Hchosen & ->).
  vm_compute in Hchosen. injection Hchosen as <- <- <-. reflexivity.
Defined.

End EndToEnd.

(** ** The backend: the bearer token, uploads, the shared conversation *)

Section BackendFacts.

Import Backend.

(** *** The bearer token *)

Lemma startsWith_slice (k : string) :
  forall s, JS.startsWith s k = true -> s = k +:+ JS.slice (String.length k) s.
Proof.
  induction k as [|a k IH]; intros s H; [destruct s; reflexivity|].
  destruct s as [|b s]; [discriminate H|].
  cbn [JS.startsWith] in H. destruct (Ascii.eqb a b) eqn:E; [|discriminate H].
  apply Ascii.eqb_eq in E. subst b.
  rewrite append_cons. cbn [String.length JS.slice]. rewrite <- (IH s H). reflexivity.
Qed.

Lemma authenticateBearer_next (token : string) (authorization : option string) :
  authenticateBearer token authorization = None <->
  authorization = Some ("Bearer " +:+ token).
Proof.
  unfold authenticateBearer. split.
  - destruct (JS.truthy (JS.or_empty authorization)); [|discriminate].
    destruct (JS.startsWith (JS.or_empty authorization) "Bearer ") eqn:Hs; [|discriminate].
    cbn [negb orb].
    destruct (String.eqb (JS.slice 7 (JS.or_empty authorization)) token) eqn:E; [|discriminate].
    intros _. apply String.eqb_eq in E. apply startsWith_slice in Hs.
    change (String.length "Bearer ") with 7%nat in Hs. rewrite E in Hs.
    destruct authorization as [h|]; [|discriminate Hs].
    change (JS.or_empty (Some h)) with h in Hs. rewrite Hs. reflexivity.
  - intros ->. change (JS.or_empty (Some ("Bearer " +:+ token))) with ("Bearer " +:+ token).
    rewrite (startsWith_append "Bearer " token).
    change (JS.slice 7 ("Bearer " +:+ token)) with token. rewrite String.eqb_refl. reflexivity.
Qed.

(** X25. The three endpoints of the backend are behind the bearer
    token. The check lets a request through exactly when its
    [authorization] header is [Bearer ] followed by the token of the
    agent; it answers 401 exactly when the header is missing or does
    not begin with [Bearer ], and 403 exactly when it begins with
    [Bearer ] and goes on with anything but the token. A request that
    is not let through is answered by the check on all three
    endpoints: nothing is asked of ChromaDB or of the model and the
    conversation is not touched. The specialist agent lets through
    the same headers, and answers 403 to all the others. *)
Theorem bearer_token_is_required
  (token : string) (world : World) (llm : LLMConversation) (req : Request) :
  let check := authenticateBearer token (authorization req) in
  (check = None <-> authorization req = Some ("Bearer " +:+ token)) /\
  (check = Some (mkResponse 401 (Error "Bearer token required")) <->
   JS.startsWith (JS.or_empty (authorization req)) "Bearer " = false) /\
  (check = Some (mkResponse 403 (Error "Invalid token")) <->
   exists other, authorization req = Some ("Bearer " +:+ other) /\ other <> token) /\
  (forall refused,
     check = Some refused ->
     get_health token world req = (refused, []) /\
     post_add token world req = (refused, []) /\
     post_query token world llm req = (Some refused, llm, [])) /\
  (forall id sworld payload_query payload_uuid sender,
     check = None <->
     Specialist.status
       (Specialist.execute (Specialist.mkConfig id token) sworld
          (Specialist.mkRequest (authorization req) payload_query payload_uuid sender))
     <> 403).
Proof.
  intros check. subst check.
  pose proof (authenticateBearer_next token (authorization req)) as Hnext.
  split; [exact Hnext|]. split; [|split; [|split]].
  - unfold authenticateBearer.
    destruct (JS.or_empty (authorization req)) as [|c h] eqn:Hh; [split; reflexivity|].
    cbn [JS.truthy negb orb].
    destruct (JS.startsWith (String c h) "Bearer "); cbn [negb].
    + destruct (negb _); split; discriminate.
    + split; reflexivity.
  - unfold authenticateBearer. split.
    + destruct (JS.truthy (JS.or_empty (authorization req))); [|discriminate].
      destruct (JS.startsWith (JS.or_empty (authorization req)) "Bearer ") eqn:Hs;
        [|discriminate].
      cbn [negb orb].
      destruct (String.eqb (JS.slice 7 (JS.or_empty (authorization req))) token) eqn:E;
        [discriminate|].
      intros _. apply String.eqb_neq in E. apply startsWith_slice in Hs.
      change (String.length "Bearer ") with 7%nat in Hs.
      exists (JS.slice 7 (JS.or_empty (authorization req))). split; [|exact E].
      destruct (authorization req) as [h|]; [|discriminate Hs].
      change (JS.or_empty (Some h)) with h in Hs |- *. rewrite <- Hs. reflexivity.
    + intros (other & -> & Hother).
      change (JS.or_empty (Some ("Bearer " +:+ other))) with ("Bearer " +:+ other).
      rewrite (startsWith_append "Bearer " other).
      change (JS.slice 7 ("Bearer " +:+ other)) with other.
      apply String.eqb_neq in Hother. rewrite Hother. reflexivity.
  - intros refused Hcheck. unfold get_health, post_add, post_query. rewrite Hcheck.
    repeat split; reflexivity.
  - intros id sworld q u sender. rewrite Hnext. split.
    + intros Hauth.
      rewrite (execute_authorised (Specialist.mkConfig id token) sworld
                 (Specialist.mkRequest (authorization req) q u sender) Hauth).
      cbv zeta. destruct (negb _); [discriminate|].
      destruct (Specialist.retrieveAndFormat _ _ _ _) as [[[c n] d]|m]; [|discriminate].
      destruct (Specialist.choose _) as [[chosen t] s]. discriminate.
    + intros Hstatus.
      destruct (authorised_dec (Specialist.mkConfig id token)
                  (Specialist.mkRequest (authorization req) q u sender)) as [Hyes|Hno];
        [exact Hyes|].
      rewrite (execute_unauthorised _ sworld _ Hno) in Hstatus. exfalso. apply Hstatus.
      reflexivity.
Qed.

(** *** Uploads *)

(** X26. [/collections/add] hands ChromaDB only what it has checked:
    whatever the request, ChromaDB is asked at most once, and only to
    add the ids and the documents of a request that carries the token,
    both lists present and of the same length. The answer is 200 or 500
    exactly when ChromaDB was asked, and 400, 401 or 403 when it was
    not. *)
Theorem add_sends_matching_ids_and_documents
  (token : string) (world : World) (req : Request) :
  let '(response, effects) := post_add token world req in
  (effects = [] \/
   exists ids documents,
     effects = [AddEmbeddings ids documents] /\
     authorization req = Some ("Bearer " +:+ token) /\
     Backend.ids req = Some ids /\
     req_documents req = Some documents /\
     length ids = length documents) /\
  (effects <> [] <-> status response = 200 \/ status response = 500) /\
  (effects = [] <-> status response = 400 \/ status response = 401 \/ status response = 403).
Proof.
  unfold post_add.
  pose proof (authenticateBearer_next token (authorization req)) as Hnext.
  destruct (authenticateBearer token (authorization req)) as [refused|] eqn:Hcheck.
  { assert (Hr : status refused = 401 \/ status refused = 403).
    { unfold authenticateBearer in Hcheck.
      destruct (_ || _); [injection Hcheck as <-; left; reflexivity|].
      destruct (negb _); [injection Hcheck as <-; right; reflexivity | discriminate]. }
    split; [left; reflexivity|]. split; [split; [congruence | lia] | tauto]. }
  assert (Hauth : authorization req = Some ("Bearer " +:+ token)) by (apply Hnext; reflexivity).
  destruct (ids req) as [ids|], (req_documents req) as [documents|];
    try (cbn [status]; split; [left; reflexivity|];
         split; [split; [congruence | lia] | tauto]).
  destruct (length ids =? length documents)%nat eqn:E; cbn [negb].
  2:{ cbn [status]. split; [left; reflexivity|]. split; [split; [congruence | lia] | tauto]. }
  apply Nat.eqb_eq in E.
  destruct (add world ids documents); cbn [status];
    (split; [right; exists ids, documents; repeat split; assumption|]);
    (split; [split; [tauto | discriminate] | split; [discriminate | lia]]).
Qed.

(** *** The context of the backend *)

Lemma blocks_app (a b : list string) : blocks (a ++ b) = blocks a +:+ blocks b.
Proof.
  induction a as [|d a IH]; cbn [app blocks]; [reflexivity|].
  rewrite IH, !append_assoc. reflexivity.
Qed.

Lemma fold_nested_blocks (raw_documents : list (list string)) :
  forall ctx,
    fold_left (fun ctx docArr => fold_left (fun ctx doc => ctx +:+ block doc) docArr ctx)
      raw_documents ctx
    = ctx +:+ blocks (concat raw_documents).
Proof.
  induction raw_documents as [|docArr raw_documents IH]; intros ctx; cbn [fold_left concat].
  - rewrite append_nil_r. reflexivity.
  - rewrite IH. unfold block. rewrite fold_blocks, blocks_app, append_assoc. reflexivity.
Qed.

Lemma retrieveFormatted_context (world : World) (text : string) (results : QueryResults) :
  query world [text] 3 = Resolved results ->
  retrieveFormatted world text
  = (Resolved ("<RAG> Contexto recuperado:" +:+ JS.nl
               +:+ blocks (concat (default [] (documents results))) +:+ "</RAG>",
               Retriever.unique (map source_of (default [] (metadatas results)))),
     [Query [text] 3]).
Proof.
  intros Hq. unfold retrieveFormatted. rewrite Hq.
  destruct (documents results) as [docs|], (metadatas results) as [metas|];
    cbn [default id concat blocks map];
    rewrite ?fold_nested_blocks, ?append_assoc; reflexivity.
Qed.

Lemma unique_constant (name : string) (l : list string) :
  Forall (fun x => x = name) l ->
  Retriever.unique l = match l with [] => [] | _ => [name] end.
Proof.
  intros Hall. unfold Retriever.unique. destruct l as [|x l]; [reflexivity|].
  apply Forall_cons in Hall as [-> Hall]. cbn [fold_left].
  change (Retriever.set_add [] name) with [name].
  induction Hall as [|y l -> _ IH]; [reflexivity|].
  cbn [fold_left]. unfold Retriever.set_add at 2. cbn [existsb].
  rewrite String.eqb_refl. exact IH.
Qed.

(** X27. The backend and the specialist agent format what they
    retrieve in the same way as soon as there is a document: the
    context of the backend is the opening line, one block per document
    of every query text in order, and the closing tag, which is what
    [_formatContextForLLM] makes of the same documents. Without any
    document the two differ: the backend sends the opening line and
    the closing tag with nothing between, the specialist agent's
    retriever says that no context was found. The sources differ
    always: the backend names no source. It reads each element of
    [metadatas], the list of the records of one query text, as if it
    were one record, finds no [source] in it, and answers with
    [Origem desconhecida] alone, or with no source at all when the
    answer of ChromaDB holds no metadata. *)
Theorem the_two_retrievers_format_alike
  (world : World) (text : string) (results : QueryResults) :
  query world [text] 3 = Resolved results ->
  let docs := concat (default [] (documents results)) in
  exists context sources,
    fst (retrieveFormatted world text) = Resolved (context, sources) /\
    context = "<RAG> Contexto recuperado:" +:+ JS.nl +:+ blocks docs +:+ "</RAG>" /\
    (docs <> [] <-> context = Retriever.formatContextForLLM docs) /\
    sources = match default [] (metadatas results) with
              | [] => []
              | _ => ["Origem desconhecida"]
              end.
Proof.
  intros Hq docs. rewrite (retrieveFormatted_context world text results Hq). fold docs.
  eexists _, _. split; [reflexivity|]. split; [reflexivity|].
  split.
  - unfold Retriever.formatContextForLLM. destruct docs as [|d docs'].
    + split; [congruence|]. cbn [length Nat.eqb blocks]. intros H. vm_compute in H.
      discriminate H.
    + split; [|discriminate]. intros _. change (length (d :: docs') =? 0)%nat with false.
      cbv iota. rewrite fold_blocks, !append_assoc. reflexivity.
  - rewrite (unique_constant "Origem desconhecida").
    + destruct (default [] (metadatas results)); reflexivity.
    + apply Forall_forall. intros x Hx. apply list_elem_of_fmap in Hx as (row & -> & _).
      reflexivity.
Qed.

Definition backend_up : World :=
  mkWorld (Resolved 1) (fun _ _ => Resolved "ok")
    (fun _ _ =>
       Resolved (mkResults (Some [["Use IA com etica."; "Nao use dados pessoais."]])
                   (Some [[Some guia_meta; None]])))
    (fun _ => Resolved "Com etica.").

Lemma the_two_retrievers_format_alike_witness :
  query backend_up ["etica"] 3
  = Resolved (mkResults (Some [["Use IA com etica."; "Nao use dados pessoais."]])
                (Some [[Some guia_meta; None]])) /\
  exists context,
    fst (retrieveFormatted backend_up "etica") = Resolved (context, ["Origem desconhecida"]) /\
    context = Retriever.formatContextForLLM ["Use IA com etica."; "Nao use dados pessoais."].
Proof.
  split; [reflexivity|].
  destruct (the_two_retrievers_format_alike backend_up "etica"
              (mkResults (Some [["Use IA com etica."; "Nao use dados pessoais."]])
                 (Some [[Some guia_meta; None]]))
              eq_refl) as (context & sources & Hret & _ & Hsame & ->).
  exists context. split; [exact Hret|]. apply Hsame. discriminate.
Defined.

(** *** The conversation *)

(** A request [/query] serves: it carries the token and a query. *)
Definition served (token : string) (req : Request) (text : string) : Prop :=
  authorization req = Some ("Bearer " +:+ token) /\
  (exists p, payload req = Some p /\ payload_query p = Some text) /\
  JS.truthy text = true.

(** Requests served one after the other by the one conversation of the
    process, each in the world of its moment. *)
Fixpoint serve (token : string) (llm : LLMConversation) (calls : list (World * Request))
  : LLMConversation * list Effect :=
  match calls with
  | [] => (llm, [])
  | (world, req) :: later =>
      let '(_, llm, effects) := post_query token world llm req in
      let '(llm, effects') := serve token llm later in
      (llm, (effects ++ effects')%list)
  end.

(** The history starts with the system prompt of the conversation. *)
Definition prompted (llm : LLMConversation) : Prop :=
  exists rest, history llm = SystemMessage (systemPrompt llm) :: rest.

Lemma invokeModel_history model llm humanInput systemInput :
  let '(_, llm', effects) := invokeModel model llm humanInput systemInput in
  systemPrompt llm' = systemPrompt llm /\
  exists context answer,
    effects = [Invoke (history llm ++ context ++ [HumanMessage humanInput])%list] /\
    history llm' = (history llm ++ context ++ [HumanMessage humanInput] ++ answer)%list /\
    (context = [] \/ context = [SystemMessage (JS.or_empty systemInput)]).
Proof.
  unfold invokeModel.
  destruct (JS.truthy (JS.or_empty systemInput)).
  - destruct (model _) as [a|e]; (split; [reflexivity|]).
    + exists [SystemMessage (JS.or_empty systemInput)], [AIMessage a].
      rewrite <- ?app_assoc. repeat split; auto.
    + exists [SystemMessage (JS.or_empty systemInput)], [].
      rewrite <- ?app_assoc. repeat split; auto.
  - destruct (model _) as [a|e]; (split; [reflexivity|]).
    + exists [], [AIMessage a]. rewrite <- ?app_assoc. repeat split; auto.
    + exists [], []. rewrite <- ?app_assoc. repeat split; auto.
Qed.

(** What one request does to the conversation: the history grows at
    its end, and what the model is asked begins with the history of
    before. *)
Lemma post_query_history token world llm req :
  let '(_, llm', effects) := post_query token world llm req in
  systemPrompt llm' = systemPrompt llm /\
  history llm `prefix_of` history llm' /\
  forall h, Invoke h ∈ effects -> history llm `prefix_of` h /\ h `prefix_of` history llm'.
Proof.
  unfold post_query.
  destruct (authenticateBearer token (authorization req)) as [refused|].
  { split; [reflexivity|]. split; [reflexivity|]. intros h Hh. apply elem_of_nil in Hh as []. }
  destruct (negb _).
  { split; [reflexivity|]. split; [reflexivity|]. intros h Hh. apply elem_of_nil in Hh as []. }
  set (text := match payload req with
               | Some payload => JS.or_empty (payload_query payload)
               | None => ""
               end).
  unfold retrieveFormatted. destruct (query world _ 3) as [results|e].
  2:{ split; [reflexivity|]. split; [reflexivity|]. intros h Hh.
      apply list_elem_of_singleton in Hh. discriminate Hh. }
  match goal with |- context [invokeModel ?m llm ?t ?c] =>
    pose proof (invokeModel_history m llm t c) as Hinv;
    destruct (invokeModel m llm t c) as [[answer llm'] invoked] end.
  destruct Hinv as (Hprompt & context & reply & -> & Hhist & _).
  assert (Hgoal : systemPrompt llm' = systemPrompt llm /\
            history llm `prefix_of` history llm' /\
            forall h, Invoke h ∈ ([Query [text] 3]
                                  ++ [Invoke (history llm ++ context ++ [HumanMessage text])])%list ->
                      history llm `prefix_of` h /\ h `prefix_of` history llm').
  { split; [exact Hprompt|]. split.
    - rewrite Hhist. apply prefix_app_r. reflexivity.
    - intros h Hh. apply elem_of_app in Hh as [Hh|Hh];
        apply list_elem_of_singleton in Hh; [discriminate Hh|].
      injection Hh as ->. split.
      + apply prefix_app_r. reflexivity.
      + rewrite Hhist. exists reply. rewrite <- !app_assoc. reflexivity. }
  destruct answer; exact Hgoal.
Qed.

Lemma serve_history token (calls : list (World * Request)) :
  forall llm,
    history llm `prefix_of` history (fst (serve token llm calls)) /\
    forall h, Invoke h ∈ snd (serve token llm calls) -> history llm `prefix_of` h.
Proof.
  induction calls as [|[world req] later IH]; intros llm; cbn [serve].
  - split; [reflexivity|]. cbn [snd]. intros h Hh. apply elem_of_nil in Hh as [].
  - pose proof (post_query_history token world llm req) as Hone.
    destruct (post_query token world llm req) as [[response llm1] effects].
    destruct Hone as (_ & Hgrow & Hasked).
    destruct (IH llm1) as [Hlater Hlater_asked].
    destruct (serve token llm1 later) as [llm2 effects']. cbn [fst snd] in *.
    split; [etransitivity; eassumption|].
    intros h Hh. apply elem_of_app in Hh as [Hh|Hh].
    + apply Hasked, Hh.
    + etransitivity; [exact Hgrow | apply Hlater_asked, Hh].
Qed.

Lemma prefix_elem {A} (x : A) (l1 l2 : list A) : x ∈ l1 -> l1 `prefix_of` l2 -> x ∈ l2.
Proof. intros Hx [k ->]. apply elem_of_app. left. exact Hx. Qed.

(** X28. The backend keeps one conversation for all its callers. A
    served query and the context retrieved for it are added to the
    history, after everything that was there, before the model is
    asked, and the model is asked with the whole history; the answer,
    if any, is added behind. No request to [/query] removes anything:
    every later call of the model, for whatever sender and uuid, begins
    with the history as it stood, and so holds the earlier query. *)
Theorem conversation_is_shared
  (token : string) (world : World) (llm : LLMConversation) (req : Request) (text : string)
  (results : QueryResults) (later : list (World * Request)) :
  served token req text ->
  query world [text] 3 = Resolved results ->
  let '(response, llm1, effects) := post_query token world llm req in
  (exists context,
     effects = [Query [text] 3;
                Invoke (history llm ++ [SystemMessage context; HumanMessage text])%list] /\
     JS.startsWith context "<RAG>" = true /\
     match model world (history llm ++ [SystemMessage context; HumanMessage text])%list with
     | Resolved answer =>
         history llm1
         = (history llm ++ [SystemMessage context; HumanMessage text; AIMessage answer])%list /\
         exists sources, response = Some (mkResponse 200 (Queried answer context sources))
     | Thrown _ =>
         history llm1 = (history llm ++ [SystemMessage context; HumanMessage text])%list /\
         response = None
     end) /\
  forall h,
    Invoke h ∈ snd (serve token llm1 later) ->
    history llm1 `prefix_of` h /\ HumanMessage text ∈ h.
Proof.
  intros (Hauth & (p & Hp & Hq) & Htruthy) Hresults.
  unfold post_query.
  rewrite (proj2 (authenticateBearer_next token (authorization req)) Hauth).
  rewrite Hp, Hq. change (JS.or_empty (Some text)) with text. rewrite Htruthy.
  rewrite (retrieveFormatted_context world text results Hresults).
  cbn [negb].
  match goal with |- context [invokeModel _ llm text (Some ?c)] => set (context := c) end.
  assert (Hctx : JS.truthy context = true) by reflexivity.
  assert (Hrag : JS.startsWith context "<RAG>" = true) by reflexivity.
  unfold invokeModel. change (JS.or_empty (Some context)) with context. rewrite Hctx.
  rewrite <- app_assoc. cbn [app].
  destruct (model world (history llm ++ [SystemMessage context; HumanMessage text])%list)
    as [answer|e] eqn:Hmodel.
  - split.
    + exists context. split; [reflexivity|]. split; [exact Hrag|].
      rewrite Hmodel. cbn [history]. rewrite <- app_assoc.
      split; [reflexivity|]. eexists. reflexivity.
    + intros h Hh.
      destruct (serve_history token later
                  (mkLLM ((history llm ++ [SystemMessage context; HumanMessage text])
                          ++ [AIMessage answer])%list (systemPrompt llm))) as [_ Hasked].
      specialize (Hasked h Hh). split; [exact Hasked|].
      eapply prefix_elem; [|exact Hasked]. cbn [history].
      rewrite !elem_of_app, !elem_of_cons. tauto.
  - split.
    + exists context. split; [reflexivity|]. split; [exact Hrag|].
      rewrite Hmodel. split; reflexivity.
    + intros h Hh.
      destruct (serve_history token later
                  (mkLLM (history llm ++ [SystemMessage context; HumanMessage text])%list
                     (systemPrompt llm))) as [_ Hasked].
      specialize (Hasked h Hh). split; [exact Hasked|].
      eapply prefix_elem; [|exact Hasked]. cbn [history].
      rewrite !elem_of_app, !elem_of_cons. tauto.
Qed.

Definition first_caller : Request :=
  mkRequest (Some "Bearer tok") None None (Some (mkPayload (Some "etica") (Some "u-1")))
    (Some "host-agent").

Definition second_caller : Request :=
  mkRequest (Some "Bearer tok") None None (Some (mkPayload (Some "biologia") (Some "u-2")))
    (Some "another-agent").

Lemma conversation_is_shared_witness :
  served "tok" first_caller "etica" /\
  query backend_up ["etica"] 3
  = Resolved (mkResults (Some [["Use IA com etica."; "Nao use dados pessoais."]])
                (Some [[Some guia_meta; None]])) /\
  let '(response, llm1, effects) :=
    post_query "tok" backend_up (new_conversation "Responda.") first_caller in
  forall h,
    Invoke h ∈ snd (serve "tok" llm1 [(backend_up, second_caller)]) ->
    HumanMessage "etica" ∈ h.
Proof.
  assert (Hserved : served "tok" first_caller "etica").
  { split; [reflexivity|]. split; [eexists; split; reflexivity | reflexivity]. }
  split; [exact Hserved|]. split; [reflexivity|].
  pose proof (conversation_is_shared "tok" backend_up (new_conversation "Responda.")
                first_caller "etica"
                (mkResults (Some [["Use IA com etica."; "Nao use dados pessoais."]])
                   (Some [[Some guia_meta; None]]))
                [(backend_up, second_caller)] Hserved eq_refl) as H.
  destruct (post_query "tok" backend_up (new_conversation "Responda.") first_caller)
    as [[response llm1] effects].
  destruct H as [_ H]. intros h Hh. apply H, Hh.
Defined.

(** *** The system prompt *)

(** What can be done with a conversation. *)
Inductive Op :=
| OpInvoke (model : list BaseMessage -> outcome string) (humanInput : string)
    (systemInput : option string)
| OpClear
| OpSetPrompt (prompt : string).

Definition apply_op (llm : LLMConversation) (op : Op) : LLMConversation :=
  match op with
  | OpInvoke model humanInput systemInput =>
      snd (fst (invokeModel model llm humanInput systemInput))
  | OpClear => clearHistory llm
  | OpSetPrompt prompt => setSystemPrompt llm prompt
  end.

Lemma apply_op_prompted (llm : LLMConversation) (op : Op) :
  prompted llm -> prompted (apply_op llm op).
Proof.
  intros [rest Hrest]. destruct op as [model humanInput systemInput| |prompt]; cbn [apply_op].
  - pose proof (invokeModel_history model llm humanInput systemInput) as H.
    destruct (invokeModel model llm humanInput systemInput) as [[answer llm'] effects].
    destruct H as (Hp & context & reply & _ & Hh & _). cbn [fst snd].
    unfold prompted. rewrite Hp, Hh, Hrest. eexists. reflexivity.
  - eexists. reflexivity.
  - eexists. reflexivity.
Qed.

Lemma filter_filter_same {A} (p : A -> bool) (l : list A) :
  List.filter p (List.filter p l) = List.filter p l.
Proof.
  induction l as [|x l IH]; [reflexivity|]. cbn [List.filter].
  destruct (p x) eqn:E; [cbn [List.filter]; rewrite E, IH; reflexivity | exact IH].
Qed.

Lemma filter_filter_neg {A} (p : A -> bool) (l : list A) :
  List.filter p (List.filter (fun x => negb (p x)) l) = [].
Proof.
  induction l as [|x l IH]; [reflexivity|]. cbn [List.filter].
  destruct (p x) eqn:E; cbn [negb List.filter]; [exact IH | rewrite E; exact IH].
Qed.

(** X29. Whatever is done with a conversation, calls of the model that
    answer or throw, [clearHistory] and [setSystemPrompt] in any order,
    its history begins with its system prompt, so that every history
    the model is asked with begins with it too. [setSystemPrompt] keeps
    the human and model messages in their order and drops every other
    system message, the retrieved contexts included; [clearHistory]
    gives the conversation of the beginning back, under the prompt of
    the moment. *)
Theorem history_begins_with_the_prompt
  (prompt : string) (ops : list Op) :
  let llm := fold_left apply_op ops (new_conversation prompt) in
  prompted llm /\
  (forall model humanInput systemInput h,
     Invoke h ∈ snd (invokeModel model llm humanInput systemInput) ->
     head h = Some (SystemMessage (getSystemPrompt llm)) /\
     last h = Some (HumanMessage humanInput)) /\
  (forall p,
     List.filter is_system (getHistory (setSystemPrompt llm p)) = [SystemMessage p] /\
     List.filter (fun msg => negb (is_system msg)) (getHistory (setSystemPrompt llm p))
     = List.filter (fun msg => negb (is_system msg)) (getHistory llm) /\
     getSystemPrompt (setSystemPrompt llm p) = p) /\
  clearHistory llm = new_conversation (getSystemPrompt llm).
Proof.
  intros llm.
  assert (Hprompted : prompted llm).
  { subst llm. generalize (new_conversation prompt), (ex_intro (fun rest =>
      history (new_conversation prompt) = SystemMessage (systemPrompt (new_conversation prompt))
                                          :: rest) [] eq_refl : prompted (new_conversation prompt)).
    induction ops as [|op ops IH]; intros l Hl; cbn [fold_left]; [exact Hl|].
    apply IH, apply_op_prompted, Hl. }
  split; [exact Hprompted|]. split; [|split].
  - intros model humanInput systemInput h Hh.
    pose proof (invokeModel_history model llm humanInput systemInput) as H.
    destruct (invokeModel model llm humanInput systemInput) as [[answer llm'] effects].
    destruct H as (_ & context & reply & -> & _ & _). cbn [snd] in Hh.
    apply list_elem_of_singleton in Hh. injection Hh as ->.
    destruct Hprompted as [rest ->]. split; [reflexivity|].
    rewrite !app_assoc. apply last_snoc.
  - intros p. unfold getHistory, getSystemPrompt, setSystemPrompt. cbn [history systemPrompt].
    cbn [List.filter is_system negb].
    rewrite filter_filter_neg, (filter_filter_same (fun msg => negb (is_system msg))).
    repeat split; reflexivity.
  - reflexivity.
Qed.

End BackendFacts.
